(** * VideoPainter: the clip preparation and comparison code of [infer/inpaint.py]

    A shallow embedding of the frame/mask loaders, the temporal resampler,
    the first-frame policy, the call into the generative pipeline and the
    comparison compositor of [infer/inpaint.py], followed by the properties
    proved about them: first the lemmas on the building blocks, then the
    claims C1 to C10 in order, then a few further properties.

    Python values are modelled as follows.
    - [int] is [Z]; [//] is [Z.div] (both round towards minus infinity),
      guarded by an explicit test for a zero divisor.
    - A [list] is a [list]; the three clip sequences are distinct list
      objects that are never aliased, and the frames they hold are never
      mutated in place, so [l[0] = x] is modelled by a functional update
      that raises [IndexError] when the list is empty.
    - An exception is a value of [exn]; a computation that may raise has
      type [result A].  [UnboundLocalError] is a subclass of [NameError]
      and is modelled by it.  A local variable that is assigned on some
      paths only is an [option], [None] while it is unbound.
    - An 8-bit image is a list of rows; an RGB pixel is a triple.  The
      floating-point samples of tensors and of generated frames are of an
      abstract type, with the two comparisons and the product that the
      code applies to them.
    - Storage, the decoders and the models are records of functions. *)

From Stdlib Require Import ZArith Ascii String DecimalString DecimalPos.
From stdpp Require Import base tactics option list sorting strings.

Local Open Scope string_scope.
Local Open Scope Z_scope.

(** ** Exceptions and the result monad *)

Inductive exn : Type :=
| ValueError (msg : string)
| IndexError (msg : string)
| NameError (name : string)
| TypeError (msg : string)
| ZeroDivisionError
| NotImplementedError
| RuntimeError (msg : string)
| OSError (msg : string).

Inductive result (A : Type) : Type :=
| Ok (a : A)
| Raise (e : exn).
Arguments Ok {A} a.
Arguments Raise {A} e.

#[global] Instance result_ret : MRet result := λ A, Ok.
#[global] Instance result_bind : MBind result :=
  λ A B f m, match m with Ok a => f a | Raise e => Raise e end.
(** ** Unicode

    A Python [str] is modelled by its bytes in UTF-8, a byte that belongs
    to no well-formed sequence standing for itself (the lone surrogate
    U+DC00 + byte of the "surrogateescape" handler, with which
    [os.listdir] decodes file names).  The functions that split, join and
    compare strings work on these bytes; [int] and [repr] look at code
    points.  The tables are those of the Unicode 14.0 database of
    CPython 3.11. *)

Module Unicode.

Definition byte (c : ascii) : Z := Z.of_N (N_of_ascii c).
Definition of_byte (b : Z) : ascii := ascii_of_N (Z.to_N b).

Definition continuation (c : ascii) : bool :=
  (128 <=? byte c) && (byte c <=? 191).

(** The code points of a string. *)
Fixpoint code_points (s : string) : list Z :=
  match s with
  | EmptyString => []
  | String c0 s1 =>
      let b0 := byte c0 in
      let escaped := 56320 + b0 in
      if b0 <? 128 then b0 :: code_points s1
      else
        match s1 with
        | EmptyString => [escaped]
        | String c1 s2 =>
            if (194 <=? b0) && (b0 <=? 223) && continuation c1
            then ((b0 - 192) * 64 + (byte c1 - 128)) :: code_points s2
            else
              match s2 with
              | EmptyString => escaped :: code_points s1
              | String c2 s3 =>
                  let cp3 :=
                    (b0 - 224) * 4096 + (byte c1 - 128) * 64 + (byte c2 - 128) in
                  if (224 <=? b0) && (b0 <=? 239)
                     && continuation c1 && continuation c2
                     && (2048 <=? cp3)
                     && negb ((55296 <=? cp3) && (cp3 <=? 57343))
                  then cp3 :: code_points s3
                  else
                    match s3 with
                    | EmptyString => escaped :: code_points s1
                    | String c3 s4 =>
                        let cp4 :=
                          (b0 - 240) * 262144 + (byte c1 - 128) * 4096
                          + (byte c2 - 128) * 64 + (byte c3 - 128) in
                        if (240 <=? b0) && (b0 <=? 244)
                           && continuation c1 && continuation c2
                           && continuation c3
                           && (65536 <=? cp4) && (cp4 <=? 1114111)
                        then cp4 :: code_points s4
                        else escaped :: code_points s1
                    end
              end
        end
  end.

(** The bytes of one code point that is not a surrogate. *)
Definition encode (cp : Z) : string :=
  let tail (n : Z) := of_byte (128 + n `mod` 64) in
  if cp <? 128 then String (of_byte cp) EmptyString
  else if cp <? 2048 then
    String (of_byte (192 + cp `div` 64)) (String (tail cp) EmptyString)
  else if cp <? 65536 then
    String (of_byte (224 + cp `div` 4096))
      (String (tail (cp `div` 64)) (String (tail cp) EmptyString))
  else
    String (of_byte (240 + cp `div` 262144))
      (String (tail (cp `div` 4096))
         (String (tail (cp `div` 64)) (String (tail cp) EmptyString))).

Definition in_ranges (table : list (Z * Z)) (cp : Z) : bool :=
  existsb (λ r : Z * Z, (r.1 <=? cp) && (cp <=? r.2)) table.

(** The code points of the digits zero of the decimal number systems
    (general category Nd); the digits 1 to 9 of each follow its zero. *)
Definition decimal_zeros : list Z :=
  [48; 1632; 1776; 1984; 2406; 2534; 2662; 2790; 2918; 3046; 3174; 3302;
   3430; 3558; 3664; 3792; 3872; 4160; 4240; 6112; 6160; 6470; 6608; 6784;
   6800; 6992; 7088; 7232; 7248; 42528; 43216; 43264; 43472; 43504; 43600;
   44016; 65296; 66720; 68912; 69734; 69872; 69942; 70096; 70384; 70736;
   70864; 71248; 71360; 71472; 71904; 72016; 72784; 73040; 73120; 92768;
   92864; 93008; 120782; 120792; 120802; 120812; 120822; 123200; 123632;
   125264; 130032].

(** [unicodedata.decimal(chr(cp))], if any *)
Definition decimal (cp : Z) : option Z :=
  match list_find (λ z, bool_decide (z ≤ cp < z + 10)) decimal_zeros with
  | Some (_, z) => Some (cp - z)
  | None => None
  end.

(** The ranges of the white space from U+007F on ([chr(cp).isspace()]). *)
Definition spaces : list (Z * Z) :=
  [(133, 133); (160, 160); (5760, 5760); (8192, 8202); (8232, 8233); (8239,
   8239); (8287, 8287); (12288, 12288)].

(** The ranges of the code points from U+007F on that [repr] escapes
    ([not chr(cp).isprintable()]). *)
Definition not_printable : list (Z * Z) :=
  [(127, 160); (173, 173); (888, 889); (896, 899); (907, 907); (909, 909);
   (930, 930); (1328, 1328); (1367, 1368); (1419, 1420); (1424, 1424);
   (1480, 1487); (1515, 1518); (1525, 1541); (1564, 1564); (1757, 1757);
   (1806, 1807); (1867, 1868); (1970, 1983); (2043, 2044); (2094, 2095);
   (2111, 2111); (2140, 2141); (2143, 2143); (2155, 2159); (2191, 2199);
   (2274, 2274); (2436, 2436); (2445, 2446); (2449, 2450); (2473, 2473);
   (2481, 2481); (2483, 2485); (2490, 2491); (2501, 2502); (2505, 2506);
   (2511, 2518); (2520, 2523); (2526, 2526); (2532, 2533); (2559, 2560);
   (2564, 2564); (2571, 2574); (2577, 2578); (2601, 2601); (2609, 2609);
   (2612, 2612); (2615, 2615); (2618, 2619); (2621, 2621); (2627, 2630);
   (2633, 2634); (2638, 2640); (2642, 2648); (2653, 2653); (2655, 2661);
   (2679, 2688); (2692, 2692); (2702, 2702); (2706, 2706); (2729, 2729);
   (2737, 2737); (2740, 2740); (2746, 2747); (2758, 2758); (2762, 2762);
   (2766, 2767); (2769, 2783); (2788, 2789); (2802, 2808); (2816, 2816);
   (2820, 2820); (2829, 2830); (2833, 2834); (2857, 2857); (2865, 2865);
   (2868, 2868); (2874, 2875); (2885, 2886); (2889, 2890); (2894, 2900);
   (2904, 2907); (2910, 2910); (2916, 2917); (2936, 2945); (2948, 2948);
   (2955, 2957); (2961, 2961); (2966, 2968); (2971, 2971); (2973, 2973);
   (2976, 2978); (2981, 2983); (2987, 2989); (3002, 3005); (3011, 3013);
   (3017, 3017); (3022, 3023); (3025, 3030); (3032, 3045); (3067, 3071);
   (3085, 3085); (3089, 3089); (3113, 3113); (3130, 3131); (3141, 3141);
   (3145, 3145); (3150, 3156); (3159, 3159); (3163, 3164); (3166, 3167);
   (3172, 3173); (3184, 3190); (3213, 3213); (3217, 3217); (3241, 3241);
   (3252, 3252); (3258, 3259); (3269, 3269); (3273, 3273); (3278, 3284);
   (3287, 3292); (3295, 3295); (3300, 3301); (3312, 3312); (3315, 3327);
   (3341, 3341); (3345, 3345); (3397, 3397); (3401, 3401); (3408, 3411);
   (3428, 3429); (3456, 3456); (3460, 3460); (3479, 3481); (3506, 3506);
   (3516, 3516); (3518, 3519); (3527, 3529); (3531, 3534); (3541, 3541);
   (3543, 3543); (3552, 3557); (3568, 3569); (3573, 3584); (3643, 3646);
   (3676, 3712); (3715, 3715); (3717, 3717); (3723, 3723); (3748, 3748);
   (3750, 3750); (3774, 3775); (3781, 3781); (3783, 3783); (3790, 3791);
   (3802, 3803); (3808, 3839); (3912, 3912); (3949, 3952); (3992, 3992);
   (4029, 4029); (4045, 4045); (4059, 4095); (4294, 4294); (4296, 4300);
   (4302, 4303); (4681, 4681); (4686, 4687); (4695, 4695); (4697, 4697);
   (4702, 4703); (4745, 4745); (4750, 4751); (4785, 4785); (4790, 4791);
   (4799, 4799); (4801, 4801); (4806, 4807); (4823, 4823); (4881, 4881);
   (4886, 4887); (4955, 4956); (4989, 4991); (5018, 5023); (5110, 5111);
   (5118, 5119); (5760, 5760); (5789, 5791); (5881, 5887); (5910, 5918);
   (5943, 5951); (5972, 5983); (5997, 5997); (6001, 6001); (6004, 6015);
   (6110, 6111); (6122, 6127); (6138, 6143); (6158, 6158); (6170, 6175);
   (6265, 6271); (6315, 6319); (6390, 6399); (6431, 6431); (6444, 6447);
   (6460, 6463); (6465, 6467); (6510, 6511); (6517, 6527); (6572, 6575);
   (6602, 6607); (6619, 6621); (6684, 6685); (6751, 6751); (6781, 6782);
   (6794, 6799); (6810, 6815); (6830, 6831); (6863, 6911); (6989, 6991);
   (7039, 7039); (7156, 7163); (7224, 7226); (7242, 7244); (7305, 7311);
   (7355, 7356); (7368, 7375); (7419, 7423); (7958, 7959); (7966, 7967);
   (8006, 8007); (8014, 8015); (8024, 8024); (8026, 8026); (8028, 8028);
   (8030, 8030); (8062, 8063); (8117, 8117); (8133, 8133); (8148, 8149);
   (8156, 8156); (8176, 8177); (8181, 8181); (8191, 8207); (8232, 8239);
   (8287, 8303); (8306, 8307); (8335, 8335); (8349, 8351); (8385, 8399);
   (8433, 8447); (8588, 8591); (9255, 9279); (9291, 9311); (11124, 11125);
   (11158, 11158); (11508, 11512); (11558, 11558); (11560, 11564); (11566,
   11567); (11624, 11630); (11633, 11646); (11671, 11679); (11687, 11687);
   (11695, 11695); (11703, 11703); (11711, 11711); (11719, 11719); (11727,
   11727); (11735, 11735); (11743, 11743); (11870, 11903); (11930, 11930);
   (12020, 12031); (12246, 12271); (12284, 12288); (12352, 12352); (12439,
   12440); (12544, 12548); (12592, 12592); (12687, 12687); (12772, 12783);
   (12831, 12831); (42125, 42127); (42183, 42191); (42540, 42559); (42744,
   42751); (42955, 42959); (42962, 42962); (42964, 42964); (42970, 42993);
   (43053, 43055); (43066, 43071); (43128, 43135); (43206, 43213); (43226,
   43231); (43348, 43358); (43389, 43391); (43470, 43470); (43482, 43485);
   (43519, 43519); (43575, 43583); (43598, 43599); (43610, 43611); (43715,
   43738); (43767, 43776); (43783, 43784); (43791, 43792); (43799, 43807);
   (43815, 43815); (43823, 43823); (43884, 43887); (44014, 44015); (44026,
   44031); (55204, 55215); (55239, 55242); (55292, 63743); (64110, 64111);
   (64218, 64255); (64263, 64274); (64280, 64284); (64311, 64311); (64317,
   64317); (64319, 64319); (64322, 64322); (64325, 64325); (64451, 64466);
   (64912, 64913); (64968, 64974); (64976, 65007); (65050, 65055); (65107,
   65107); (65127, 65127); (65132, 65135); (65141, 65141); (65277, 65280);
   (65471, 65473); (65480, 65481); (65488, 65489); (65496, 65497); (65501,
   65503); (65511, 65511); (65519, 65531); (65534, 65535); (65548, 65548);
   (65575, 65575); (65595, 65595); (65598, 65598); (65614, 65615); (65630,
   65663); (65787, 65791); (65795, 65798); (65844, 65846); (65935, 65935);
   (65949, 65951); (65953, 65999); (66046, 66175); (66205, 66207); (66257,
   66271); (66300, 66303); (66340, 66348); (66379, 66383); (66427, 66431);
   (66462, 66462); (66500, 66503); (66518, 66559); (66718, 66719); (66730,
   66735); (66772, 66775); (66812, 66815); (66856, 66863); (66916, 66926);
   (66939, 66939); (66955, 66955); (66963, 66963); (66966, 66966); (66978,
   66978); (66994, 66994); (67002, 67002); (67005, 67071); (67383, 67391);
   (67414, 67423); (67432, 67455); (67462, 67462); (67505, 67505); (67515,
   67583); (67590, 67591); (67593, 67593); (67638, 67638); (67641, 67643);
   (67645, 67646); (67670, 67670); (67743, 67750); (67760, 67807); (67827,
   67827); (67830, 67834); (67868, 67870); (67898, 67902); (67904, 67967);
   (68024, 68027); (68048, 68049); (68100, 68100); (68103, 68107); (68116,
   68116); (68120, 68120); (68150, 68151); (68155, 68158); (68169, 68175);
   (68185, 68191); (68256, 68287); (68327, 68330); (68343, 68351); (68406,
   68408); (68438, 68439); (68467, 68471); (68498, 68504); (68509, 68520);
   (68528, 68607); (68681, 68735); (68787, 68799); (68851, 68857); (68904,
   68911); (68922, 69215); (69247, 69247); (69290, 69290); (69294, 69295);
   (69298, 69375); (69416, 69423); (69466, 69487); (69514, 69551); (69580,
   69599); (69623, 69631); (69710, 69713); (69750, 69758); (69821, 69821);
   (69827, 69839); (69865, 69871); (69882, 69887); (69941, 69941); (69960,
   69967); (70007, 70015); (70112, 70112); (70133, 70143); (70162, 70162);
   (70207, 70271); (70279, 70279); (70281, 70281); (70286, 70286); (70302,
   70302); (70314, 70319); (70379, 70383); (70394, 70399); (70404, 70404);
   (70413, 70414); (70417, 70418); (70441, 70441); (70449, 70449); (70452,
   70452); (70458, 70458); (70469, 70470); (70473, 70474); (70478, 70479);
   (70481, 70486); (70488, 70492); (70500, 70501); (70509, 70511); (70517,
   70655); (70748, 70748); (70754, 70783); (70856, 70863); (70874, 71039);
   (71094, 71095); (71134, 71167); (71237, 71247); (71258, 71263); (71277,
   71295); (71354, 71359); (71370, 71423); (71451, 71452); (71468, 71471);
   (71495, 71679); (71740, 71839); (71923, 71934); (71943, 71944); (71946,
   71947); (71956, 71956); (71959, 71959); (71990, 71990); (71993, 71994);
   (72007, 72015); (72026, 72095); (72104, 72105); (72152, 72153); (72165,
   72191); (72264, 72271); (72355, 72367); (72441, 72703); (72713, 72713);
   (72759, 72759); (72774, 72783); (72813, 72815); (72848, 72849); (72872,
   72872); (72887, 72959); (72967, 72967); (72970, 72970); (73015, 73017);
   (73019, 73019); (73022, 73022); (73032, 73039); (73050, 73055); (73062,
   73062); (73065, 73065); (73103, 73103); (73106, 73106); (73113, 73119);
   (73130, 73439); (73465, 73647); (73649, 73663); (73714, 73726); (74650,
   74751); (74863, 74863); (74869, 74879); (75076, 77711); (77811, 77823);
   (78895, 82943); (83527, 92159); (92729, 92735); (92767, 92767); (92778,
   92781); (92863, 92863); (92874, 92879); (92910, 92911); (92918, 92927);
   (92998, 93007); (93018, 93018); (93026, 93026); (93048, 93052); (93072,
   93759); (93851, 93951); (94027, 94030); (94088, 94094); (94112, 94175);
   (94181, 94191); (94194, 94207); (100344, 100351); (101590, 101631);
   (101641, 110575); (110580, 110580); (110588, 110588); (110591, 110591);
   (110883, 110927); (110931, 110947); (110952, 110959); (111356, 113663);
   (113771, 113775); (113789, 113791); (113801, 113807); (113818, 113819);
   (113824, 118527); (118574, 118575); (118599, 118607); (118724, 118783);
   (119030, 119039); (119079, 119080); (119155, 119162); (119275, 119295);
   (119366, 119519); (119540, 119551); (119639, 119647); (119673, 119807);
   (119893, 119893); (119965, 119965); (119968, 119969); (119971, 119972);
   (119975, 119976); (119981, 119981); (119994, 119994); (119996, 119996);
   (120004, 120004); (120070, 120070); (120075, 120076); (120085, 120085);
   (120093, 120093); (120122, 120122); (120127, 120127); (120133, 120133);
   (120135, 120137); (120145, 120145); (120486, 120487); (120780, 120781);
   (121484, 121498); (121504, 121504); (121520, 122623); (122655, 122879);
   (122887, 122887); (122905, 122906); (122914, 122914); (122917, 122917);
   (122923, 123135); (123181, 123183); (123198, 123199); (123210, 123213);
   (123216, 123535); (123567, 123583); (123642, 123646); (123648, 124895);
   (124903, 124903); (124908, 124908); (124911, 124911); (124927, 124927);
   (125125, 125126); (125143, 125183); (125260, 125263); (125274, 125277);
   (125280, 126064); (126133, 126208); (126270, 126463); (126468, 126468);
   (126496, 126496); (126499, 126499); (126501, 126502); (126504, 126504);
   (126515, 126515); (126520, 126520); (126522, 126522); (126524, 126529);
   (126531, 126534); (126536, 126536); (126538, 126538); (126540, 126540);
   (126544, 126544); (126547, 126547); (126549, 126550); (126552, 126552);
   (126554, 126554); (126556, 126556); (126558, 126558); (126560, 126560);
   (126563, 126563); (126565, 126566); (126571, 126571); (126579, 126579);
   (126584, 126584); (126589, 126589); (126591, 126591); (126602, 126602);
   (126620, 126624); (126628, 126628); (126634, 126634); (126652, 126703);
   (126706, 126975); (127020, 127023); (127124, 127135); (127151, 127152);
   (127168, 127168); (127184, 127184); (127222, 127231); (127406, 127461);
   (127491, 127503); (127548, 127551); (127561, 127567); (127570, 127583);
   (127590, 127743); (128728, 128732); (128749, 128751); (128765, 128767);
   (128884, 128895); (128985, 128991); (129004, 129007); (129009, 129023);
   (129036, 129039); (129096, 129103); (129114, 129119); (129160, 129167);
   (129198, 129199); (129202, 129279); (129620, 129631); (129646, 129647);
   (129653, 129655); (129661, 129663); (129671, 129679); (129709, 129711);
   (129723, 129727); (129734, 129743); (129754, 129759); (129768, 129775);
   (129783, 129791); (129939, 129939); (129995, 130031); (130042, 131071);
   (173792, 173823); (177977, 177983); (178206, 178207); (183970, 183983);
   (191457, 194559); (195102, 196607); (201547, 917759); (918000, 1114111)].

End Unicode.

(** ** Python strings *)

Module Str.

(** [s.startswith(p)] *)
Definition startswith (s p : string) : bool := String.prefix p s.

(** [s.endswith(p)] *)
Definition endswith (s p : string) : bool :=
  let n := String.length s in
  let m := String.length p in
  (m <=? n)%nat && String.eqb (String.substring (n - m) m s) p.

(** [p in s] *)
Definition contains (s p : string) : bool :=
  match String.index 0 p s with Some _ => true | None => false end.

(** [s.split(sep)] for a one-character separator: never empty. *)
Fixpoint split (sep : ascii) (s : string) : list string :=
  match s with
  | EmptyString => [EmptyString]
  | String c s' =>
      if Ascii.eqb c sep then EmptyString :: split sep s'
      else match split sep s' with
           | [] => [String c EmptyString]
           | w :: ws => String c w :: ws
           end
  end.

(** [s.replace(old, new)]: every non-overlapping occurrence, left to right.
    [skip] counts the characters of a match that are still to be dropped. *)
Fixpoint replace_go (old new : string) (skip : nat) (s : string) : string :=
  match s with
  | EmptyString => EmptyString
  | String c s' =>
      match skip with
      | S k => replace_go old new k s'
      | O =>
          if String.prefix old s
          then new ++ replace_go old new (String.length old - 1) s'
          else String c (replace_go old new O s')
      end
  end.

Definition replace (s old new : string) : string :=
  match old with
  | EmptyString => s   (* not used with an empty pattern *)
  | _ => replace_go old new O s
  end.

(** The code point of a lower-case hexadecimal digit, and the [width]
    digits of a number. *)
Definition hex_digit (n : Z) : Z := if n <? 10 then 48 + n else 87 + n.

Fixpoint hex (width : nat) (n : Z) : list Z :=
  match width with
  | O => []
  | S w => (hex w (n `div` 16) ++ [hex_digit (n `mod` 16)])%list
  end.

(** One code point inside a literal enclosed in [quote]: the quote and
    the backslash (92) get a backslash, tab, line feed and carriage return
    their letter, and what is not printable an escape in hexadecimal. *)
Definition repr_char (quote cp : Z) : list Z :=
  if (cp =? quote) || (cp =? 92) then [92; cp]
  else if cp =? 9 then [92; 116]
  else if cp =? 10 then [92; 110]
  else if cp =? 13 then [92; 114]
  else if (cp <? 32) || (cp =? 127) then 92 :: 120 :: hex 2 cp
  else if cp <? 127 then [cp]
  else if negb (Unicode.in_ranges Unicode.not_printable cp) then [cp]
  else if cp <=? 255 then 92 :: 120 :: hex 2 cp
  else if cp <=? 65535 then 92 :: 117 :: hex 4 cp
  else 92 :: 85 :: hex 8 cp.

(** [repr(s)], as code points.  Double quotes (34) enclose the literal
    when the string holds a single quote (39) and no double quote, single
    quotes otherwise. *)
Definition repr_points (s : string) : list Z :=
  let cps := Unicode.code_points s in
  let quote :=
    if existsb (Z.eqb 39) cps && negb (existsb (Z.eqb 34) cps) then 34 else 39 in
  (quote :: concat (map (repr_char quote) cps) ++ [quote])%list.

Definition of_points (cps : list Z) : string :=
  String.concat "" (map Unicode.encode cps).

Definition repr (s : string) : string := of_points (repr_points s).

(** What [int] makes of one code point: below U+007F the character
    itself counts, with the white space of C (tab to carriage return and
    the space); from there on a white space of Unicode counts as a space
    and a decimal digit of any number system as that digit. *)
Inductive IntChar : Type :=
| Space
| Plus
| Minus
| Underscore
| Digit (d : Z)
| Other.

Definition int_char (cp : Z) : IntChar :=
  if cp <? 127 then
    if (9 <=? cp) && (cp <=? 13) || (cp =? 32) then Space
    else if cp =? 43 then Plus
    else if cp =? 45 then Minus
    else if cp =? 95 then Underscore
    else if (48 <=? cp) && (cp <=? 57) then Digit (cp - 48)
    else Other
  else if Unicode.in_ranges Unicode.spaces cp then Space
  else match Unicode.decimal cp with
       | Some d => Digit d
       | None => Other
       end.

Fixpoint skip_spaces (l : list IntChar) : list IntChar :=
  match l with
  | Space :: l' => skip_spaces l'
  | _ => l
  end.

(** The digits that follow a digit, each one possibly after one
    underscore; what is left is returned with the number. *)
Fixpoint digits (acc : Z) (l : list IntChar) : Z * list IntChar :=
  match l with
  | Digit d :: l' => digits (10 * acc + d) l'
  | Underscore :: Digit d :: l' => digits (10 * acc + d) l'
  | _ => (acc, l)
  end.

(** At least one digit, then nothing but white space. *)
Definition unsigned (l : list IntChar) : option Z :=
  match l with
  | Digit d :: l' =>
      let '(n, rest) := digits d l' in
      match skip_spaces rest with
      | [] => Some n
      | _ => None
      end
  | _ => None
  end.

(** [int(s)] for a string [s]: white space, an optional sign, decimal
    digits with single underscores between them, white space; anything
    else is a [ValueError], whose message shows the first 200 characters
    of [repr(s)]. *)
Definition int (s : string) : result Z :=
  let bad :=
    Raise (ValueError ("invalid literal for int() with base 10: "
                       ++ of_points (take 200 (repr_points s)))) in
  match skip_spaces (map int_char (Unicode.code_points s)) with
  | Minus :: l => match unsigned l with Some n => Ok (- n) | None => bad end
  | Plus :: l => match unsigned l with Some n => Ok n | None => bad end
  | l => match unsigned l with Some n => Ok n | None => bad end
  end.

(** [str(n)], as an f-string prints an [int]. *)
Definition of_Z (n : Z) : string := NilZero.string_of_int (Z.to_int n).

End Str.

(** ** [os.path] (the POSIX flavour) *)

Module OsPath.

(** [os.path.join(a, b)] *)
Definition join (a b : string) : string :=
  if Str.startswith b "/" then b
  else if String.eqb a "" || Str.endswith a "/" then a ++ b
  else a ++ "/" ++ b.

(** [os.path.basename(p)]: what follows the last slash. *)
Definition basename (p : string) : string :=
  default "" (last (Str.split "/" p)).

Fixpoint all_dots (s : string) : bool :=
  match s with
  | EmptyString => true
  | String c s' => Ascii.eqb c "." && all_dots s'
  end.

(** [os.path.splitext(p)[0]] for a path without a slash: the name up to
    its last dot, unless only dots precede that dot. *)
Definition splitext_root (p : string) : string :=
  match reverse (Str.split "." p) with
  | [] | [_] => p
  | _ext :: rest =>
      let root := String.concat "." (reverse rest) in
      if all_dots root then p else root
  end.

End OsPath.

(** ** Python lists *)

Module PyList.
Section Ops.
Context {A : Type}.

(** [l[0]] *)
Definition first (l : list A) : result A :=
  match l with
  | x :: _ => Ok x
  | [] => Raise (IndexError "list index out of range")
  end.

(** [l[-1]] *)
Definition last_item (l : list A) : result A :=
  match last l with
  | Some x => Ok x
  | None => Raise (IndexError "list index out of range")
  end.

(** [l[0] = x] *)
Definition set_first (l : list A) (x : A) : result (list A) :=
  match l with
  | _ :: _ => Ok (<[0%nat := x]> l)
  | [] => Raise (IndexError "list assignment index out of range")
  end.

(** A slice bound [i] clamped into [0, len]: negative bounds count from
    the end. *)
Definition clamp (len : nat) (i : Z) : nat :=
  if i <? 0 then Z.to_nat (Z.max 0 (Z.of_nat len + i))
  else Nat.min (Z.to_nat i) len.

(** [l[start:stop]] *)
Definition slice (l : list A) (start stop : Z) : list A :=
  let a := clamp (length l) start in
  let b := clamp (length l) stop in
  take (b - a) (drop a l).

(** [l[:stop]], where [stop] may be [None] *)
Definition slice_to (l : list A) (stop : option Z) : list A :=
  match stop with
  | Some n => slice l 0 n
  | None => l
  end.

(** Every [k]-th element; [c] elements are skipped before the next one
    is taken. *)
Fixpoint every (k c : nat) (l : list A) : list A :=
  match l with
  | [] => []
  | x :: l' =>
      match c with
      | O => x :: every k (k - 1) l'
      | S c' => every k c' l'
      end
  end.

(** [l[::step]] *)
Definition slice_step (l : list A) (step : Z) : result (list A) :=
  if step =? 0 then Raise (ValueError "slice step cannot be zero")
  else if 0 <? step then Ok (every (Z.to_nat step) 0 l)
  else Ok (every (Z.to_nat (- step)) 0 (reverse l)).

(** [sorted(l, key=key)]: the keys are computed first, in order; the
    sort is stable. *)
Fixpoint insert_by_key (k : Z) (x : A) (l : list (Z * A)) : list (Z * A) :=
  match l with
  | [] => [(k, x)]
  | (k', y) :: l' =>
      if k <=? k' then (k, x) :: (k', y) :: l'
      else (k', y) :: insert_by_key k x l'
  end.

Definition stable_sort (l : list (Z * A)) : list (Z * A) :=
  foldr (λ kx acc, insert_by_key kx.1 kx.2 acc) [] l.

Definition sorted (key : A → result Z) (l : list A) : result (list A) :=
  keys ← mapM key l;
  mret ((stable_sort (zip keys l)).*2).

End Ops.
End PyList.

(** ** Rasters (numpy arrays and PIL images) *)

(** A mode-"L" image or a 2-D array: rows of values. *)
Definition gray : Type := list (list Z).
(** A mode-"RGB" image or an H x W x 3 array: rows of channel triples. *)
Definition rgb : Type := list (list (Z * Z * Z)).

(** [img] has [h] rows of [w] entries each. *)
Definition has_shape {P : Type} (h w : nat) (img : list (list P)) : Prop :=
  length img = h ∧ Forall (λ row, length row = w) img.

(** [img[r, c]], when the index is in range. *)
Definition pixel_at {P : Type} (img : list (list P)) (r c : nat) : option P :=
  row ← img !! r; row !! c.

Module Np.

(** Binary operation on two axes of equal length, or with one of them of
    length one stretched over the other (broadcasting); [err] is raised
    when the lengths are incompatible. *)
Definition broadcast {A B C} (err : exn) (f : A → B → result C)
    (la : list A) (lb : list B) : result (list C) :=
  if decide (length la = length lb) then mapM (λ ab, f ab.1 ab.2) (zip la lb)
  else match la, lb with
       | [a], _ => mapM (f a) lb
       | _, [b] => mapM (λ a, f a b) la
       | _, _ => Raise err
       end.

Definition shape_error : exn :=
  ValueError "operands could not be broadcast together".

(** [a == v] *)
Definition eq_scalar (a : gray) (v : Z) : list (list bool) :=
  map (map (λ x, bool_decide (x = v))) a.

(** [np.zeros_like(a)] *)
Definition zeros_like (a : rgb) : rgb := map (map (λ _, (0, 0, 0))) a.

(** [np.ones_like(a) * 255] *)
Definition ones_like_255 (a : rgb) : rgb := map (map (λ _, (255, 255, 255))) a.

(** [np.where(np.repeat(c[:, :, np.newaxis], 3, axis=2), x, y)]: the
    condition is the same on the three channels of a pixel. *)
Definition where3 (c : list (list bool)) (x y : rgb) : result rgb :=
  cx ← broadcast shape_error
          (broadcast shape_error (λ b p, Ok (b, p))) c x;
  broadcast shape_error
    (broadcast shape_error (λ (bp : bool * (Z * Z * Z)) q, Ok (if bp.1 then bp.2 else q)))
    cx y.

(** [np.where(c, x, y).astype(np.uint8)] for scalars [x] and [y] *)
Definition where_scalar (c : list (list bool)) (x y : Z) : gray :=
  map (map (λ b : bool, if b then x else y)) c.

(** [Image.fromarray(a).convert("RGB")] for a 2-D array *)
Definition gray_to_rgb (a : gray) : rgb := map (map (λ v, (v, v, v))) a.

(** [np.where(np.array(m) == 255, np.array(img), 0)] on two H x W x 3
    arrays, channel by channel. *)
Definition keep_where_255 (m img : rgb) : result rgb :=
  let pick (v x : Z) := if bool_decide (v = 255) then x else 0 in
  broadcast shape_error
    (broadcast shape_error
       (λ '(mr, mg, mb) '(r, g, b), Ok (pick mr r, pick mg g, pick mb b)))
    m img.

(** [np.concatenate(arrays, axis=1)] on H x W_i x 3 arrays: the heights
    must agree. *)
Definition concatenate_axis1 {P} (arrays : list (list (list P))) : result (list (list P)) :=
  match arrays with
  | [] => Raise (ValueError "need at least one array to concatenate")
  | a :: rest =>
      if forallb (λ b, Nat.eqb (length b) (length a)) rest
      then Ok (foldl (zip_with app) a rest)
      else Raise (ValueError "all the input array dimensions except for the concatenation axis must match exactly")
  end.

End Np.

(** ** Storage and the other libraries the loaders call *)

Record Storage : Type := {
  (** [os.listdir(path)], in whatever order the file system yields *)
  listdir : string → result (list string);
  (** [Image.open(path).convert("RGB")] *)
  open_RGB : string → result rgb;
  (** [Image.open(path).convert("L")] *)
  open_L : string → result gray;
  (** [diffusers.utils.load_video(path)]: the decoded RGB frames *)
  load_video : string → result (list rgb);
  (** [int(cv2.VideoCapture(path).get(cv2.CAP_PROP_FPS))] *)
  capture_fps : string → Z
}.

(** ** The frame/mask loaders *)

(** The body shared, word for word, by the loops of both loaders (lines
    100-115 and 153-168) once [binary_mask] is known: the masked frame and
    the rendered binary mask of one frame. *)
Definition mask_one_frame (mask_background : bool) (frame : rgb)
    (binary_mask : list (list bool)) : result (rgb * rgb) :=
  let frame_array := frame in
  let black_frame := Np.zeros_like frame_array in
  masked_frame ← Np.where3 binary_mask black_frame frame_array;
  let binary_mask_image :=
    if mask_background then Np.where_scalar binary_mask 0 255
    else Np.where_scalar binary_mask 255 0 in
  mret (masked_frame, Np.gray_to_rgb binary_mask_image).

(** [for frame, frame_mask in zip(video, mask): ...] with the two appended
    lists as result; [zip] stops at the shorter sequence. *)
Definition mask_frames {M : Type} (binarize : M → list (list bool))
    (mask_background : bool) (video : list rgb) (masks : list M)
    : result (list rgb * list rgb) :=
  pairs ← mapM (λ fm : rgb * M, mask_one_frame mask_background fm.1 (binarize fm.2))
             (zip video masks);
  mret (pairs.*1, pairs.*2).

(** [read_video_with_mask] (lines 74-117): a video file and an array of
    per-frame label masks. *)
Definition read_video_with_mask (st : Storage) (video_path : string)
    (masks : list gray) (mask_id : Z)
    (skip_frames_start skip_frames_end : Z) (mask_background : bool) (fps : Z)
    : result (list rgb * list rgb * list rgb * Z) :=
  loaded ← load_video st video_path;
  let video := PyList.slice loaded skip_frames_start skip_frames_end in
  let mask := PyList.slice masks skip_frames_start skip_frames_end in
  let fps := if fps =? 0 then capture_fps st video_path else fps in
  '(masked_video, binary_masks) ←
     mask_frames (λ frame_mask, Np.eq_scalar frame_mask mask_id)
       mask_background video mask;
  mret (video, masked_video, binary_masks, fps).

(** [sort_key] (lines 141-142): the integer after the last underscore of
    the file name without its extension. *)
Definition sort_key (path : string) : result Z :=
  suffix ← PyList.last_item
             (Str.split "_" (OsPath.splitext_root (OsPath.basename path)));
  Str.int suffix.

(** [f.startswith(pre) and f.endswith(".png")] *)
Definition is_numbered (pre f : string) : Prop :=
  Is_true (Str.startswith f pre && Str.endswith f ".png").

#[global] Instance is_numbered_dec pre f : Decision (is_numbered pre f) := _.

(** The names the loader looks for: [frame_<k>.png] and [seg_mask_<k>.png]. *)
Definition frame_file (k : nat) : string :=
  ("frame_" ++ Str.of_Z (Z.of_nat k) ++ ".png")%string.
Definition mask_file (k : nat) : string :=
  ("seg_mask_" ++ Str.of_Z (Z.of_nat k) ++ ".png")%string.

(** Lines 132-148: the decoded frames and masks, each in the order of its
    file numbers. *)
Definition load_frames_and_masks (st : Storage) (video_path mask_path : string)
    : result (list rgb * list gray) :=
  names_v ← listdir st video_path;
  let frame_paths :=
    map (OsPath.join video_path) (filter (is_numbered "frame_") names_v) in
  names_m ← listdir st mask_path;
  let mask_paths :=
    map (OsPath.join mask_path) (filter (is_numbered "seg_mask_") names_m) in
  frame_paths ← PyList.sorted sort_key frame_paths;
  mask_paths ← PyList.sorted sort_key mask_paths;
  video ← mapM (open_RGB st) frame_paths;
  masks ← mapM (open_L st) mask_paths;
  mret (video, masks).

(** [read_video_with_mask_from_frame] (lines 119-170): a directory of
    numbered frames and a directory of numbered masks.  The parameters
    [skip_frames_start] and [skip_frames_end] are not read by the body. *)
Definition read_video_with_mask_from_frame (st : Storage)
    (video_path mask_path : string)
    (skip_frames_start skip_frames_end : Z) (mask_background : bool) (fps : Z)
    : result (list rgb * list rgb * list rgb * Z) :=
  '(video, masks) ← load_frames_and_masks st video_path mask_path;
  '(masked_video, binary_masks) ←
     mask_frames (λ mask, Np.eq_scalar mask 255) mask_background video masks;
  mret (video, masked_video, binary_masks, fps).

(** ** The captioning helper *)

(** One message of a chat request: its role and its content, which is a
    text or a text followed by an image URL. *)
Inductive Content : Type :=
  | Text (text : string)
  | TextAndImage (text url : string).

Record Message : Type := { role : string; content : Content }.

(** [vlm_model.chat.completions.create(model=..., messages=...)]: the
    [message.content] of each of [response.choices]. *)
Record ChatClient : Type := {
  chat_completions_create : string → list Message → result (list (option string))
}.

Record Vlm : Type := {
  (** [OpenAI()] *)
  OpenAI : result ChatClient;
  (** the image saved as PNG, Base64-encoded and decoded to [str] *)
  png_base64 : rgb → string
}.

(** [video_editing_prompt] (lines 172-248).  The description is checked
    first, then the client is made, and only then is the masked image
    asked for; the answer is [response.choices[0].message.content], which
    the service may leave empty ([None]). *)
Definition video_editing_prompt (vlm : Vlm) (prompt : option string)
    (llm_model : string) (masked_image : option rgb) (target_img_caption : bool)
    : result (string * option string) :=
  match prompt with
  | None => Raise (ValueError "prompt is None")
  | Some prompt =>
      vlm_model ← OpenAI vlm;
      response ←
        (if target_img_caption then
           match masked_image with
           | None => Raise (ValueError "masked_image is None when target_img_caption=True")
           | Some masked_image =>
               let img_str := png_base64 vlm masked_image in
               let system_prompt := "You are an expert in image description. Based on the given masked image, please generate a concise description for target for following inpainting." in
               let user_prompt := "Please generate a description for the unmasked target in the given masked image. Requirements:
        1. Keep the description concise and precise
        2. Only describe unmasked visual elements
        3. Black background is not a visual element
        Only return the description, no other words." in
               chat_completions_create vlm_model llm_model
                 [ {| role := "system"; content := Text system_prompt |};
                   {| role := "user";
                      content := TextAndImage user_prompt
                                   ("data:image/png;base64," ++ img_str) |} ]
           end
         else
           let system_prompt := "You are an expert in image description. Based on the given video description, please generate a concise description for the first static frame, focusing on the most important visual elements." in
           let user_prompt := ("Video description: " ++ prompt ++ "
        Please generate a static description for the first frame. Requirements:
        1. Keep the description concise and precise
        2. Only describe key visual elements
        3. Avoid using any dynamic or temporal-related words
        Only return the description, no other words.")%string in
           chat_completions_create vlm_model llm_model
             [ {| role := "system"; content := Text system_prompt |};
               {| role := "user"; content := Text user_prompt |} ]);
      image_inpainting_prompt ← PyList.first response;
      mret (prompt, image_inpainting_prompt)
  end.

(** ** The comparison compositor *)

(** [concatenate_images_horizontally] (lines 51-72).  Every sequence of
    [images_list] is indexed up to the length of the first one; a shorter
    sequence raises [IndexError]. *)
Definition concatenate_images_horizontally {P : Type}
    (images_list : list (list (list (list P)))) (output_type : string)
    : result (list (list (list P))) :=
  first_seq ← PyList.first images_list;
  let length := length first_seq in
  mapM (λ i : nat,
          tmp_tuple ← mapM (λ item : list (list (list P)),
                              match item !! i with
                              | Some img => Ok img
                              | None => Raise (IndexError "index out of bounds")
                              end) images_list;
          concatenated_img ← Np.concatenate_axis1 tmp_tuple;
          if String.eqb output_type "pil" then Ok concatenated_img
          else if String.eqb output_type "np" then Ok concatenated_img
          else Raise NotImplementedError)
       (seq 0 length).

(** What the generative pipeline object offers to this file.  [R] is the
    type of the floating-point samples of tensors and of generated frames;
    [K] gathers the settings that [generate_video] forwards untouched
    ([num_videos_per_prompt], [num_inference_steps], [guidance_scale],
    [seed], [prev_clip_weight], ...).  A tensor of shape (1, C, F, H, W) is
    modelled as F frames of H rows of W pixels. *)
Record PipeArgs (K : Type) : Type := {
  pa_prompt : string;
  pa_image : rgb;
  pa_num_frames : Z;
  pa_video : list rgb;
  pa_masks : list rgb;
  pa_replace_gt : bool;
  pa_mask_add : bool;
  pa_stride : Z;
  pa_id_pool_resample_learnable : bool;
  pa_forwarded : K
}.
Arguments pa_prompt {K} _.
Arguments pa_image {K} _.
Arguments pa_num_frames {K} _.
Arguments pa_video {K} _.
Arguments pa_masks {K} _.
Arguments pa_replace_gt {K} _.
Arguments pa_mask_add {K} _.
Arguments pa_stride {K} _.
Arguments pa_id_pool_resample_learnable {K} _.
Arguments pa_forwarded {K} _.

Record Pipeline (R K : Type) : Type := {
  (** [pipe(...).frames[0]] with [output_type="np"] *)
  pipe_call : PipeArgs K → result (list (list (list (R * R * R))));
  (** [pipe.video_processor.preprocess_video(video, height=h, width=w)] *)
  video_preprocess : list rgb → nat → nat → result (list (list (list (R * R * R))));
  (** [pipe.masked_video_processor.preprocess_video(masks, height=h, width=w)] *)
  mask_preprocess : list rgb → nat → nat → result (list (list (list R)));
  (** [pipe.video_processor.postprocess_video(video=t, output_type="np")[0]] *)
  video_postprocess : list (list (list (R * R * R))) → result (list (list (list (R * R * R))));
  (** [x >= 0.5] and [x < 0.5] *)
  ge_half : R → bool;
  lt_half : R → bool;
  (** [x * b] for a Boolean [b] *)
  mul_bool : R → bool → R
}.
Arguments pipe_call {R K} _ _.
Arguments video_preprocess {R K} _ _ _ _.
Arguments mask_preprocess {R K} _ _ _ _.
Arguments video_postprocess {R K} _ _.
Arguments ge_half {R K} _ _.
Arguments lt_half {R K} _ _.
Arguments mul_bool {R K} _ _ _.

(** [video.shape[1]] and [video.shape[2]] of a stack of frames (zero for an
    empty stack, whose frames are never looked at). *)
Definition frame_height {P} (video : list (list (list P))) : nat :=
  match video with f :: _ => length f | [] => O end.
Definition frame_width {P} (video : list (list (list P))) : nat :=
  match video with (row :: _) :: _ => length row | _ => O end.

(** One pixel of [original_video * (masks >= 0.5)] (or [< 0.5]): the mask
    sample is broadcast over the three channels. *)
Definition mask_pixel {R K} (pipe : Pipeline R K) (mask_background : bool)
    (p : R * R * R) (m : R) : R * R * R :=
  let keep := if mask_background then ge_half pipe m else lt_half pipe m in
  (mul_bool pipe p.1.1 keep, mul_bool pipe p.1.2 keep, mul_bool pipe p.2 keep).

(** [masks[..., np.newaxis].repeat(3, axis=-1)] *)
Definition three_channels {R} (masks : list (list (list R)))
    : list (list (list (R * R * R))) :=
  map (map (map (λ v : R, (v, v, v)))) masks.

(** [_visualize_video] (lines 30-49) *)
Definition _visualize_video {R K} (pipe : Pipeline R K) (mask_background : bool)
    (original_video : list rgb) (video : list (list (list (R * R * R))))
    (masks : list rgb) : result (list (list (list (R * R * R)))) :=
  let height := frame_height video in
  let width := frame_width video in
  original_video ← video_preprocess pipe original_video height width;
  masks ← mask_preprocess pipe masks height width;
  let err := RuntimeError "The size of tensor a must match the size of tensor b" in
  masked_video ←
    Np.broadcast err
      (Np.broadcast err
         (Np.broadcast err (λ p m, Ok (mask_pixel pipe mask_background p m))))
      original_video masks;
  original_video ← video_postprocess pipe original_video;
  masked_video ← video_postprocess pipe masked_video;
  let masks := three_channels masks in
  concatenate_images_horizontally [original_video; masked_video; masks; video] "np".

(** What [_visualize_video] relies on from the processors of the pipeline:
    pre-processing returns one frame of the requested height and width per
    input frame, and post-processing keeps the number and the shape of the
    frames it is given. *)
Definition processors_keep_shape {R K} (pipe : Pipeline R K) : Prop :=
  (∀ v h w, ∃ t, video_preprocess pipe v h w = Ok t
                 ∧ length t = length v ∧ Forall (has_shape h w) t)
  ∧ (∀ v h w, ∃ t, mask_preprocess pipe v h w = Ok t
                   ∧ length t = length v ∧ Forall (has_shape h w) t)
  ∧ (∀ t h w, Forall (has_shape h w) t →
              ∃ t', video_postprocess pipe t = Ok t'
                    ∧ length t' = length t ∧ Forall (has_shape h w) t').

(** ** The temporal resampler *)

(** [int(fps//down_sample_fps)] *)
Definition resample_step (fps down_sample_fps : Z) : result Z :=
  if down_sample_fps =? 0 then Raise ZeroDivisionError
  else Ok (fps `div` down_sample_fps).

(** The message of the [ValueError] of line 485. *)
Definition too_short_message (frames len_video : Z) : string :=
  ("video length is less than " ++ Str.of_Z frames
   ++ ", len(video): " ++ Str.of_Z len_video
   ++ ", using " ++ Str.of_Z (len_video - len_video `mod` 4 + 1) ++ " frames...")%string.

(** Lines 478-485 of [generate_video].  Returns the three resampled
    sequences, [frames] and the effective [down_sample_fps]. *)
Definition resample {A : Type} (fps down_sample_fps : Z) (long_video : bool)
    (inpainting_frames : option Z) (video masked_video binary_masks : list A)
    : result (list A * list A * list A * Z * Z) :=
  let frames := inpainting_frames in
  let down_sample_fps := if down_sample_fps =? 0 then fps else down_sample_fps in
  step ← resample_step fps down_sample_fps;
  video ← PyList.slice_step video step;
  masked_video ← PyList.slice_step masked_video step;
  binary_masks ← PyList.slice_step binary_masks step;
  let '(video, masked_video, binary_masks) :=
    if long_video then (video, masked_video, binary_masks)
    else (PyList.slice_to video frames, PyList.slice_to masked_video frames,
          PyList.slice_to binary_masks frames) in
  match frames with
  | None => Raise (TypeError "'<' not supported between instances of 'int' and 'NoneType'")
  | Some n =>
      if Z.of_nat (length video) <? n
      then Raise (ValueError (too_short_message n (Z.of_nat (length video))))
      else mret (video, masked_video, binary_masks, n, down_sample_fps)
  end.

(** ** The first-frame policy *)

(** Lines 487-492: with [first_frame_gt] the mask of frame 0 is saved in
    [gt_mask_first_frame] and replaced by a constant frame; otherwise the
    local [gt_mask_first_frame] stays unbound ([None]). *)
Definition first_frame_policy (first_frame_gt mask_background : bool)
    (binary_masks : list rgb) : result (list rgb * option rgb) :=
  if first_frame_gt then
    gt_mask_first_frame ← PyList.first binary_masks;
    binary_masks ←
      PyList.set_first binary_masks
        (if mask_background then Np.ones_like_255 gt_mask_first_frame
         else Np.zeros_like gt_mask_first_frame);
    mret (binary_masks, Some gt_mask_first_frame)
  else mret (binary_masks, None).

(** The still-image collaborators of lines 403-466. *)
Record StillImage : Type := {
  (** [cv2.dilate(np.array(m), np.ones((d, d))).astype(np.uint8)] *)
  cv2_dilate : Z → rgb → rgb;
  (** [FluxFillPipeline(prompt, image, mask_image, height, width, ...).images[0]] *)
  flux_fill : string → rgb → rgb → nat → nat → result rgb
}.

Definition image_inpainting_prompt : string :=
  "Realistic red Coca-Cola aluminum can, classic white script logo, glossy finish, upright, photorealistic".

(** [if s:] for an optional string *)
Definition truthy (s : option string) : bool :=
  match s with
  | Some s => negb (String.eqb s "")
  | None => false
  end.

(** Lines 403-466: with an image-inpainting model, frame 0 of [video] and
    of [masked_video] is replaced by the inpainted still and the loaded
    frame 0 is saved in [gt_video_first_frame]; otherwise that local stays
    unbound ([None]).  The files written on the way (the sidecar record
    and two still images) read these values and change none; they are not
    modelled. *)
Definition first_frame_substitution (si : StillImage)
    (img_inpainting_model : option string) (dilate_size : Z)
    (video masked_video binary_masks : list rgb)
    : result (list rgb * list rgb * list rgb * option rgb) :=
  if truthy img_inpainting_model then
    let binary_masks :=
      if 0 <? dilate_size then map (cv2_dilate si dilate_size) binary_masks
      else binary_masks in
    image ← PyList.first video;
    mask ← PyList.first binary_masks;
    masked_image ← Np.keep_where_255 mask image;
    image_inpainting ←
      flux_fill si image_inpainting_prompt image mask
        (length image) (match image with row :: _ => length row | [] => O end);
    gt_video_first_frame ← PyList.first video;
    video ← PyList.set_first video image_inpainting;
    masked_video ← PyList.set_first masked_video image_inpainting;
    mret (video, masked_video, binary_masks, Some gt_video_first_frame)
  else mret (video, masked_video, binary_masks, None).

(** ** [generate_video] *)

Record Args (K : Type) : Type := {
  generate_type : string;
  (** [meta_data['path']] and [meta_data['caption']] of the selected row *)
  meta_path : string;
  meta_caption : string;
  output_path : string;
  inpainting_frames : option Z;
  mask_background : bool;
  first_frame_gt : bool;
  replace_gt : bool;
  mask_add : bool;
  long_video : bool;
  down_sample_fps : Z;
  overlap_frames : Z;
  dilate_size : Z;
  img_inpainting_model : option string;
  id_adapter_resample_learnable_path : option string;
  forwarded : K
}.
Arguments generate_type {K} _.
Arguments meta_path {K} _.
Arguments meta_caption {K} _.
Arguments output_path {K} _.
Arguments inpainting_frames {K} _.
Arguments mask_background {K} _.
Arguments first_frame_gt {K} _.
Arguments replace_gt {K} _.
Arguments mask_add {K} _.
Arguments long_video {K} _.
Arguments down_sample_fps {K} _.
Arguments overlap_frames {K} _.
Arguments dilate_size {K} _.
Arguments img_inpainting_model {K} _.
Arguments id_adapter_resample_learnable_path {K} _.
Arguments forwarded {K} _.

(** Reading a local variable that may not have been assigned. *)
Definition read_local {A} (name : string) (v : option A) : result A :=
  match v with
  | Some x => Ok x
  | None => Raise (NameError name)
  end.

(** The clip as it stands when the generative pipeline is called, with the
    two locals that hold the ground truth of frame 0. *)
Record Prepared (K : Type) : Type := {
  p_video : list rgb;
  p_masked_video : list rgb;
  p_binary_masks : list rgb;
  p_frames : Z;
  p_down_sample_fps : Z;
  p_gt_video_first_frame : option rgb;
  p_gt_mask_first_frame : option rgb;
  p_call : PipeArgs K
}.
Arguments p_video {K} _.
Arguments p_masked_video {K} _.
Arguments p_binary_masks {K} _.
Arguments p_frames {K} _.
Arguments p_down_sample_fps {K} _.
Arguments p_gt_video_first_frame {K} _.
Arguments p_gt_mask_first_frame {K} _.
Arguments p_call {K} _.

(** Lines 313-338, 403-466 and 477-512 up to the call: loading, first-frame
    substitution, resampling, first-frame policy and the arguments of the
    call.  (Loading the models, lines 341-401 and 468-474, touches none of
    the sequences and is not modelled.) *)
Definition prepare {K} (st : Storage) (si : StillImage) (a : Args K)
    : result (Prepared K) :=
  _ ← (if Str.contains (meta_path a) ".0.mp4" then Ok tt
       else if Str.contains (meta_path a) ".mp4" then Ok tt
       else Raise NotImplementedError);
  let video_path := "../../data/droid_2/images/" in
  let mask_frames_path := "../../data/droid_2/masks/" in
  let fps := 8 in
  let start_frame := 0 in
  let end_frame := -1 in
  let prompt := meta_caption a in
  '(video, masked_video, binary_masks, fps) ←
     read_video_with_mask_from_frame st video_path mask_frames_path
       start_frame end_frame (mask_background a) fps;
  '(video, masked_video, binary_masks, gt_video_first_frame) ←
     first_frame_substitution si (img_inpainting_model a) (dilate_size a)
       video masked_video binary_masks;
  '(video, masked_video, binary_masks, frames, down_sample_fps) ←
     resample fps (down_sample_fps a) (long_video a) (inpainting_frames a)
       video masked_video binary_masks;
  '(binary_masks, gt_mask_first_frame) ←
     first_frame_policy (first_frame_gt a) (mask_background a) binary_masks;
  image ← PyList.first masked_video;
  mret {| p_video := video;
          p_masked_video := masked_video;
          p_binary_masks := binary_masks;
          p_frames := frames;
          p_down_sample_fps := down_sample_fps;
          p_gt_video_first_frame := gt_video_first_frame;
          p_gt_mask_first_frame := gt_mask_first_frame;
          p_call := {| pa_prompt := prompt;
                       pa_image := image;
                       pa_num_frames := frames;
                       pa_video := masked_video;
                       pa_masks := binary_masks;
                       pa_replace_gt := replace_gt a;
                       pa_mask_add := mask_add a;
                       pa_stride := frames - overlap_frames a;
                       pa_id_pool_resample_learnable :=
                         match id_adapter_resample_learnable_path a with
                         | Some _ => true
                         | None => false
                         end;
                       pa_forwarded := forwarded a |} |}.

(** What is handed to [export_to_video]. *)
Record Export (R : Type) : Type := {
  export_frames : list (list (list (R * R * R)));
  export_path : string;
  export_fps : Z
}.
Arguments export_frames {R} _.
Arguments export_path {R} _.
Arguments export_fps {R} _.

(** Lines 514-515: the two restoring assignments.  Each reads its
    right-hand side first, then stores into index 0. *)
Definition restore_first_frame {K} (p : Prepared K) : result (list rgb * list rgb) :=
  gt_mask ← read_local "gt_mask_first_frame" (p_gt_mask_first_frame p);
  binary_masks ← PyList.set_first (p_binary_masks p) gt_mask;
  gt_video ← read_local "gt_video_first_frame" (p_gt_video_first_frame p);
  video ← PyList.set_first (p_video p) gt_video;
  mret (video, binary_masks).

(** Lines 513-517: the restoring assignments, the comparison video and
    its export. *)
Definition finish {R K} (pipe : Pipeline R K) (a : Args K) (p : Prepared K)
    (video_generate : list (list (list (R * R * R)))) : result (Export R) :=
  '(video, binary_masks) ← restore_first_frame p;
  let n := Some (Z.of_nat (length video_generate)) in
  round_video ←
    _visualize_video pipe (mask_background a)
      (PyList.slice_to video n) video_generate (PyList.slice_to binary_masks n);
  mret {| export_frames := round_video;
          export_path :=
            Str.replace (output_path a) ".mp4"
              ("_fps" ++ Str.of_Z (p_down_sample_fps p) ++ ".mp4")%string;
          export_fps := 8 |}.

(** [generate_video] (lines 250-520).  With another [generate_type] the
    local [pipe] is never bound and line 468 reads it. *)
Definition generate_video {R K} (st : Storage) (si : StillImage)
    (pipe : Pipeline R K) (a : Args K) : result (Export R) :=
  if String.eqb (generate_type a) "i2v_inpainting" then
    p ← prepare st si a;
    video_generate ← pipe_call pipe (p_call p);
    finish pipe a p video_generate
  else Raise (NameError "pipe").

(** ** Windows of a long clip *)

(** Modelled from the spec: the Windowing Scheduler of section 4.4.  The
    loop that cuts a long clip into windows lives in the pipeline class,
    which is not among the sources; [generate_video] only hands it
    [stride] and [num_frames].  Window [k] starts at [k * stride] and
    covers [length] indices. *)
Record Window : Type := { w_start : Z; w_length : Z }.

(** Modelled from the spec: window [k] of a clip cut with the given
    [stride], each window being [length] frames long (sections 4.4 and 8:
    window [k] starts at [k * (length - overlap_frames)]). *)
Definition window (stride length : Z) (k : nat) : Window :=
  {| w_start := Z.of_nat k * stride; w_length := length |}.

(** Modelled from the spec: the number of indices that two windows have in
    common, the frames that consecutive windows share. *)
Definition shared_frames (a b : Window) : Z :=
  Z.max 0 (Z.min (w_start a + w_length a) (w_start b + w_length b)
           - Z.max (w_start a) (w_start b)).

(** ** A small concrete world, used to run the definitions *)

Module Demo.

Definition images_dir : string := "../../data/droid_2/images/".
Definition masks_dir : string := "../../data/droid_2/masks/".

(** Frame [k]: one row of two pixels that carry the number [k]. *)
Definition frame (k : nat) : rgb :=
  let z := Z.of_nat k in [[(z, 10 + z, 20 + z); (100 + z, 110 + z, 120 + z)]].

(** Mask [k]: the left pixel is selected, and the right one too when [k]
    is odd. *)
Definition seg (k : nat) : gray := [[255; if Nat.even k then 0 else 255]].

Definition lookup_file {A} (table : list (string * A)) (path : string) : result A :=
  match list_find (λ e, e.1 = path) table with
  | Some (_, (_, x)) => Ok x
  | None => Raise (OSError ("No such file or directory: " ++ path))
  end.

(** A storage whose directory [vdir] lists [frames] and holds frames
    0..n-1, and whose directory [mdir] lists [masks] and holds masks
    0..m-1; the video file "clip.mp4" holds the same n frames. *)
Definition storage_at (vdir mdir : string) (n m : nat)
    (frames masks : list string) : Storage := {|
  listdir := λ dir,
    if String.eqb dir vdir then Ok frames
    else if String.eqb dir mdir then Ok masks
    else Raise (OSError ("No such file or directory: " ++ dir));
  open_RGB :=
    lookup_file (map (λ k, (OsPath.join vdir (frame_file k), frame k)) (seq 0 n));
  open_L :=
    lookup_file (map (λ k, (OsPath.join mdir (mask_file k), seg k)) (seq 0 m));
  load_video := λ path,
    if String.eqb path "clip.mp4" then Ok (map frame (seq 0 n))
    else Raise (OSError ("No such file or directory: " ++ path));
  capture_fps := λ _, 24
|}.

(** The two directories of [generate_video], listed in numeric order. *)
Definition in_order (n m : nat) : Storage :=
  storage_at images_dir masks_dir n m
    (map frame_file (seq 0 n)) (map mask_file (seq 0 m)).

(** One directory "clip" that holds five frames and five masks and lists
    them out of order, among other files. *)
Definition shuffled : Storage :=
  storage_at "clip" "clip" 5 5
    ["seg_mask_3.png"; "frame_4.png"; "frame_10.txt"; "seg_mask_0.png";
     "frame_2.png"; "frame_0.png"; "seg_mask_4.png"; "notes.md";
     "seg_mask_1.png"; "frame_3.png"; "frame_1.png"; "seg_mask_2.png"]
    [].

(** The two directories of [generate_video] with twelve frames and twelve
    masks, listed in the lexicographic order of the names: 0, 1, 10, 11,
    2, ..., 9. *)
Definition lexicographic : Storage :=
  let order := [0; 1; 10; 11; 2; 3; 4; 5; 6; 7; 8; 9]%nat in
  storage_at images_dir masks_dir 12 12
    (map frame_file order) (map mask_file order).

(** A still-image collaborator: dilation leaves a mask as it is and the
    inpainting model paints every pixel of the frame with (7, 7, 7). *)
Definition still : StillImage := {|
  cv2_dilate := λ _ m, m;
  flux_fill := λ _ image _ _ _, Ok (map (map (λ _, (7, 7, 7))) image)
|}.

(** Resizing by cropping and padding with [fill]: the [h] by [w] top-left
    corner of the image. *)
Definition crop_or_pad {P} (fill : P) (h w : nat) (img : list (list P))
    : list (list P) :=
  map (λ r, map (λ c, default fill (img !! r ≫= (.!! c))) (seq 0 w)) (seq 0 h).

(** A pipeline on integer samples: the generated clip repeats the
    conditioning image [num_frames] times, pre-processing crops or pads
    each frame to the requested size (a mask keeps its red channel),
    post-processing returns its argument, and a mask sample is 255 or 0. *)
Definition pipeline : Pipeline Z unit := {|
  pipe_call := λ a, Ok (replicate (Z.to_nat (pa_num_frames a)) (pa_image a));
  video_preprocess := λ v h w, Ok (map (crop_or_pad (0, 0, 0) h w) v);
  mask_preprocess := λ v h w,
    Ok (map (λ img, map (map (λ p : Z * Z * Z, p.1.1)) (crop_or_pad (0, 0, 0) h w img)) v);
  video_postprocess := λ v, Ok v;
  ge_half := λ x, 1 <=? x;
  lt_half := λ x, x <? 1;
  mul_bool := λ x b, if b then x else 0
|}.

Definition args (frames overlap : Z) (gt long : bool) (model : option string)
    : Args unit := {|
  generate_type := "i2v_inpainting";
  meta_path := "000001.0.mp4";
  meta_caption := "a can on a table";
  output_path := "./output.mp4";
  inpainting_frames := Some frames;
  mask_background := false;
  first_frame_gt := gt;
  replace_gt := false;
  mask_add := false;
  long_video := long;
  down_sample_fps := 8;
  overlap_frames := overlap;
  dilate_size := -1;
  img_inpainting_model := model;
  id_adapter_resample_learnable_path := None;
  forwarded := tt
|}.

End Demo.

(** * Properties *)

(** ** The result monad *)

Lemma bind_ok {A B} (m : result A) (f : A → result B) (b : B) :
  m ≫= f = Ok b ↔ ∃ a, m = Ok a ∧ f a = Ok b.
Proof.
  destruct m as [a|e]; simpl.
  - split; [eauto | by intros (? & [= <-] & ?)].
  - split; [done | by intros (? & ? & ?)].
Qed.

(** Replaces a hypothesis [x ← m; k = Ok b] by [m = Ok a] and [k a = Ok b]. *)
Ltac inv_bind H :=
  let a := fresh "a" in
  let Ha := fresh "Hm" in
  apply bind_ok in H; destruct H as (a & Ha & H); simpl in H.

Section MapM.
Context {A B : Type} (f : A → result B).

Lemma mapM_ok_Forall2 l k : mapM f l = Ok k ↔ Forall2 (λ x y, f x = Ok y) l k.
Proof.
  split.
  - revert k. induction l as [|x l IH]; intros k Hk; simpl in Hk.
    + by injection Hk as <-.
    + inv_bind Hk. inv_bind Hk. injection Hk as <-. auto.
  - induction 1 as [|x y l k Hxy _ IH]; simpl; [done|].
    by rewrite Hxy; simpl; rewrite IH.
Qed.

Lemma mapM_ok_length l k : mapM f l = Ok k → length k = length l.
Proof. intros H%mapM_ok_Forall2. by apply Forall2_length in H. Qed.

Lemma mapM_total l :
  Forall (λ x, ∃ y, f x = Ok y) l → ∃ k, mapM f l = Ok k.
Proof.
  induction 1 as [|x l [y Hy] _ [k Hk]]; simpl; [by eexists|].
  rewrite Hy; simpl. rewrite Hk; simpl. by eexists.
Qed.

Lemma mapM_pure (g : A → B) l : (∀ x, f x = Ok (g x)) → mapM f l = Ok (map g l).
Proof.
  intros Hg. induction l as [|x l IH]; simpl; [done|].
  by rewrite Hg; simpl; rewrite IH.
Qed.
End MapM.

(** ** Slices *)

(** [every k c l] holds the elements of [l] at the indices [c], [c + k],
    [c + 2k], ... *)
Lemma every_lookup {A} k c (l : list A) j :
  (1 ≤ k)%nat → PyList.every k c l !! j = l !! (c + j * k)%nat.
Proof.
  intros Hk. revert c j. induction l as [|x l IH]; intros c j; simpl.
  - by rewrite !lookup_nil.
  - destruct c as [|c]; simpl.
    + destruct j as [|j]; simpl; [done|].
      replace (k + j * k)%nat with (S (k - 1 + j * k)) by lia.
      simpl. apply IH.
    + apply IH.
Qed.

(** The length of [every k c l] depends on the length of [l] only, and
    grows with it. *)
Lemma every_length_le {A B} k c (l : list A) (l' : list B) :
  (length l ≤ length l')%nat →
  (length (PyList.every k c l) ≤ length (PyList.every k c l'))%nat.
Proof.
  revert c l'. induction l as [|x l IH]; intros c [|y l'] Hlen; simpl in *;
    try lia.
  destruct c; simpl; [apply le_n_S|]; apply IH; lia.
Qed.

Lemma every_length_eq {A B} k c (l : list A) (l' : list B) :
  length l = length l' →
  length (PyList.every k c l) = length (PyList.every k c l').
Proof.
  intros Hlen. apply Nat.le_antisymm; apply every_length_le; lia.
Qed.

Lemma slice_step_ok {A} (l : list A) step l' :
  PyList.slice_step l step = Ok l' →
  step ≠ 0 ∧
  l' = if 0 <? step then PyList.every (Z.to_nat step) 0 l
       else PyList.every (Z.to_nat (- step)) 0 (reverse l).
Proof.
  unfold PyList.slice_step. destruct (Z.eqb_spec step 0); [done|].
  destruct (0 <? step); by intros [= <-].
Qed.

Lemma slice_step_length_le {A B} (l : list A) (m : list B) step l' m' :
  PyList.slice_step l step = Ok l' → PyList.slice_step m step = Ok m' →
  (length l ≤ length m)%nat → (length l' ≤ length m')%nat.
Proof.
  intros [_ ->]%slice_step_ok [_ ->]%slice_step_ok Hlen.
  destruct (0 <? step); apply every_length_le; by rewrite ?length_reverse.
Qed.

Lemma length_slice {A} (l : list A) start stop :
  length (PyList.slice l start stop)
  = (PyList.clamp (length l) stop - PyList.clamp (length l) start)%nat.
Proof.
  unfold PyList.slice. rewrite length_take, length_drop.
  assert (PyList.clamp (length l) stop ≤ length l)%nat
    by (unfold PyList.clamp; destruct (stop <? 0) eqn:?; lia).
  lia.
Qed.

Lemma clamp_mono n n' i :
  (n ≤ n')%nat → (PyList.clamp n 0 = 0)%nat ∧
  (PyList.clamp n i ≤ PyList.clamp n' i)%nat.
Proof.
  intros Hn. split; [done|].
  unfold PyList.clamp. destruct (i <? 0) eqn:?; lia.
Qed.

Lemma slice_to_length_le {A B} (l : list A) (m : list B) stop :
  (length l ≤ length m)%nat →
  (length (PyList.slice_to l stop) ≤ length (PyList.slice_to m stop))%nat.
Proof.
  intros Hlen. destruct stop as [n|]; simpl; [|done].
  rewrite !length_slice.
  pose proof (clamp_mono _ _ n Hlen) as [_ ?].
  by replace (PyList.clamp (length l) 0) with 0%nat by done;
     replace (PyList.clamp (length m) 0) with 0%nat by done; lia.
Qed.

Lemma every_one {A} (l : list A) : PyList.every 1 0 l = l.
Proof. induction l as [|x l IH]; simpl; [done|]. by rewrite IH. Qed.

Lemma length_slice_to_nonneg {A} (l : list A) n :
  0 ≤ n → length (PyList.slice_to l (Some n)) = (Z.to_nat n `min` length l)%nat.
Proof.
  intros Hn. simpl. rewrite length_slice. unfold PyList.clamp.
  replace (n <? 0) with false by lia. simpl. lia.
Qed.

Lemma set_first_length {A} (l : list A) x l' :
  PyList.set_first l x = Ok l' → length l' = length l.
Proof. destruct l; [done|]. by intros [= <-]. Qed.

Lemma set_first_head {A} (l : list A) x l' :
  PyList.set_first l x = Ok l' → l' = x :: tail l.
Proof. destruct l; [done|]. by intros [= <-]. Qed.

Lemma first_ok {A} (l : list A) x : PyList.first l = Ok x ↔ head l = Some x.
Proof. destruct l; simpl; split; congruence. Qed.

(** ** Lengths through the stages *)

Lemma mask_frames_lengths {M} (binarize : M → list (list bool)) mb video
    (masks : list M) mv bm :
  mask_frames binarize mb video masks = Ok (mv, bm) →
  length mv = (length video `min` length masks)%nat ∧ length bm = length mv.
Proof.
  unfold mask_frames. intros H. inv_bind H. injection H as <- <-.
  apply mapM_ok_length in Hm.
  by rewrite !length_fmap, Hm, length_zip.
Qed.

Lemma loader_lengths st vp mp s e mb fps video masks v mv bm f :
  load_frames_and_masks st vp mp = Ok (video, masks) →
  read_video_with_mask_from_frame st vp mp s e mb fps = Ok (v, mv, bm, f) →
  v = video ∧ f = fps ∧
  length mv = (length video `min` length masks)%nat ∧ length bm = length mv.
Proof.
  unfold read_video_with_mask_from_frame. intros -> H. simpl in H.
  inv_bind H. destruct a as [mv' bm']. injection H as <- <- <- <-.
  by apply mask_frames_lengths in Hm.
Qed.

Lemma loader_length_le st vp mp s e mb fps v mv bm f :
  read_video_with_mask_from_frame st vp mp s e mb fps = Ok (v, mv, bm, f) →
  (length mv ≤ length v)%nat.
Proof.
  unfold read_video_with_mask_from_frame. intros H.
  inv_bind H. destruct a as [video masks].
  inv_bind H. destruct a as [mv' bm']. injection H as <- <- <- <-.
  apply mask_frames_lengths in Hm0 as [-> _]. lia.
Qed.

Lemma substitution_lengths si model dil v mv bm v' mv' bm' gt :
  first_frame_substitution si model dil v mv bm = Ok (v', mv', bm', gt) →
  length v' = length v ∧ length mv' = length mv ∧ length bm' = length bm.
Proof.
  unfold first_frame_substitution. destruct (truthy model).
  - intros H. do 7 inv_bind H. injection H as <- <- <- <-.
    repeat split; eauto using set_first_length.
    destruct (0 <? dil); by rewrite ?length_map.
  - by intros [= <- <- <- <-].
Qed.

Lemma resample_ok {A} fps d long frames (v mv bm v' mv' bm' : list A) n d' :
  resample fps d long frames v mv bm = Ok (v', mv', bm', n, d') →
  ∃ step sv smv sbm,
    d' = (if d =? 0 then fps else d) ∧
    resample_step fps d' = Ok step ∧
    PyList.slice_step v step = Ok sv ∧
    PyList.slice_step mv step = Ok smv ∧
    PyList.slice_step bm step = Ok sbm ∧
    frames = Some n ∧ Z.of_nat (length v') >= n ∧
    v' = (if long then sv else PyList.slice_to sv frames) ∧
    mv' = (if long then smv else PyList.slice_to smv frames) ∧
    bm' = (if long then sbm else PyList.slice_to sbm frames).
Proof.
  unfold resample. intros H. do 4 inv_bind H.
  exists a, a0, a1, a2.
  destruct frames as [m|]; [|by destruct long].
  destruct long; simpl in H;
    match type of H with
    | (if ?c then _ else _) = _ => destruct c eqn:Hc; [done|]
    end;
    injection H as <- <- <- <- <-; repeat split; auto; lia.
Qed.

Lemma resample_lengths {A} fps d long frames (v mv bm v' mv' bm' : list A) n d' :
  resample fps d long frames v mv bm = Ok (v', mv', bm', n, d') →
  (length mv = length bm → length mv' = length bm') ∧
  (length v = length mv → length v' = length mv').
Proof.
  intros (step & sv & smv & sbm & _ & _ & Hv & Hmv & Hbm & _ & _ & -> & -> & ->)%resample_ok.
  assert (∀ (l m l' m' : list A),
            PyList.slice_step l step = Ok l' → PyList.slice_step m step = Ok m' →
            length l = length m →
            length (if long then l' else PyList.slice_to l' frames)
            = length (if long then m' else PyList.slice_to m' frames)) as Heq.
  { intros l m l' m' Hl Hm' Hlen.
    assert (length l' = length m') as Hlen'
      by (apply Nat.le_antisymm; eapply slice_step_length_le; eauto; lia).
    destruct long; [done|].
    apply Nat.le_antisymm; apply slice_to_length_le; lia. }
  split; intros; eapply Heq; eauto.
Qed.

Lemma resample_length_le {A} fps d long frames (v mv bm v' mv' bm' : list A) n d' :
  resample fps d long frames v mv bm = Ok (v', mv', bm', n, d') →
  (length mv ≤ length v)%nat → (length mv' ≤ length v')%nat.
Proof.
  intros (step & sv & smv & sbm & _ & _ & Hv & Hmv & _ & _ & _ & -> & -> & _)%resample_ok Hle.
  assert (length smv ≤ length sv)%nat by (eapply slice_step_length_le; eauto).
  destruct long; [done|]. by apply slice_to_length_le.
Qed.

Lemma policy_lengths g mb bm bm' gt :
  first_frame_policy g mb bm = Ok (bm', gt) → length bm' = length bm.
Proof.
  unfold first_frame_policy. destruct g.
  - intros H. do 2 inv_bind H. injection H as <- <-.
    eauto using set_first_length.
  - by intros [= <- <-].
Qed.

(** ** The run around the generative call *)

(** What a successful [prepare] went through. *)
Lemma prepare_ok {K} st si (a : Args K) p :
  prepare st si a = Ok p →
  ∃ v1 mv1 bm1 v2 mv2 bm2 gtv v3 mv3 bm3 n d' bm4 gtm image,
    read_video_with_mask_from_frame st "../../data/droid_2/images/"
      "../../data/droid_2/masks/" 0 (-1) (mask_background a) 8
    = Ok (v1, mv1, bm1, 8)
    ∧ first_frame_substitution si (img_inpainting_model a) (dilate_size a) v1 mv1 bm1
      = Ok (v2, mv2, bm2, gtv)
    ∧ resample 8 (down_sample_fps a) (long_video a) (inpainting_frames a) v2 mv2 bm2
      = Ok (v3, mv3, bm3, n, d')
    ∧ first_frame_policy (first_frame_gt a) (mask_background a) bm3 = Ok (bm4, gtm)
    ∧ PyList.first mv3 = Ok image
    ∧ p_video p = v3 ∧ p_masked_video p = mv3 ∧ p_binary_masks p = bm4
    ∧ p_frames p = n ∧ p_down_sample_fps p = d'
    ∧ p_gt_video_first_frame p = gtv ∧ p_gt_mask_first_frame p = gtm
    ∧ pa_image (p_call p) = image ∧ pa_video (p_call p) = mv3
    ∧ pa_masks (p_call p) = bm4 ∧ pa_num_frames (p_call p) = n
    ∧ pa_stride (p_call p) = n - overlap_frames a.
Proof.
  unfold prepare. intros H.
  inv_bind H. clear Hm a0.
  inv_bind H. destruct a0 as [[[v1 mv1] bm1] f].
  assert (f = 8) as ->.
  { unfold read_video_with_mask_from_frame in Hm.
    inv_bind Hm. destruct a0. inv_bind Hm. destruct a0. by injection Hm. }
  inv_bind H. destruct a0 as [[[v2 mv2] bm2] gtv].
  inv_bind H. destruct a0 as [[[[v3 mv3] bm3] n] d'].
  inv_bind H. destruct a0 as [bm4 gtm].
  inv_bind H. injection H as <-. simpl.
  exists v1, mv1, bm1, v2, mv2, bm2, gtv, v3, mv3, bm3, n, d', bm4, gtm, a0.
  repeat split; done.
Qed.

(** The local [gt_mask_first_frame] is bound exactly when [first_frame_gt]
    is set, and then the mask list is not empty. *)
Lemma policy_binds g mb bm bm' gtm :
  first_frame_policy g mb bm = Ok (bm', gtm) →
  if g then
    ∃ m0, head bm = Some m0 ∧ gtm = Some m0
          ∧ bm' = (if mb then Np.ones_like_255 m0 else Np.zeros_like m0) :: tail bm
  else gtm = None ∧ bm' = bm.
Proof.
  unfold first_frame_policy. destruct g.
  - intros H. inv_bind H. inv_bind H. injection H as <- <-.
    exists a. apply first_ok in Hm. apply set_first_head in Hm0. done.
  - by intros [= <- <-].
Qed.

(** The local [gt_video_first_frame] is bound exactly when an
    image-inpainting model is configured. *)
Lemma substitution_binds si model dil v mv bm v' mv' bm' gtv :
  first_frame_substitution si model dil v mv bm = Ok (v', mv', bm', gtv) →
  if truthy model then
    ∃ f0 still, head v = Some f0 ∧ gtv = Some f0
                ∧ v' = still :: tail v ∧ mv' = still :: tail mv
  else gtv = None ∧ v' = v ∧ mv' = mv ∧ bm' = bm.
Proof.
  unfold first_frame_substitution. destruct (truthy model).
  - intros H. do 7 inv_bind H. injection H as <- <- <- <-.
    exists a3, a2. apply first_ok in Hm3.
    apply set_first_head in Hm4, Hm5. done.
  - by intros [= <- <- <- <-].
Qed.

(** ** Rasters of one shape *)

Lemma has_shape_map {P Q} (f : P → Q) h w (img : list (list P)) :
  has_shape h w img → has_shape h w (map (map f) img).
Proof.
  intros [Hh Hw]. split; [by rewrite length_map|].
  apply Forall_fmap. eapply Forall_impl; [exact Hw|].
  intros row Hrow. simpl. by rewrite length_map.
Qed.

Lemma broadcast_row {A B C} err (f : A → B → C) (la : list A) (lb : list B) :
  length la = length lb →
  Np.broadcast err (λ x y, Ok (f x y)) la lb = Ok (zip_with f la lb).
Proof.
  intros Hlen. unfold Np.broadcast. rewrite decide_True by done.
  rewrite (mapM_pure _ (λ ab, f ab.1 ab.2)) by done.
  rewrite (zip_with_zip f la lb). f_equal. apply list_fmap_ext. by intros ? [??].
Qed.

(** On two rasters of one shape broadcasting is the pointwise operation. *)
Lemma broadcast_raster {A B C} err (f : A → B → C) h w
    (a : list (list A)) (b : list (list B)) :
  has_shape h w a → has_shape h w b →
  Np.broadcast err (Np.broadcast err (λ x y, Ok (f x y))) a b
  = Ok (zip_with (zip_with f) a b)
  ∧ has_shape h w (zip_with (zip_with f) a b).
Proof.
  intros [Ha Hwa] [Hb Hwb]. split.
  - unfold Np.broadcast at 1. rewrite decide_True by congruence.
    rewrite (mapM_ok_Forall2 _ (zip a b) (zip_with (zip_with f) a b)).
    clear Ha Hb. revert b Hwb.
    induction Hwa as [|ra a Hra _ IH]; intros [|rb b] Hwb; simpl; try constructor.
    + apply broadcast_row. apply Forall_cons in Hwb as [-> _]. done.
    + apply IH. by apply Forall_cons in Hwb as [_ ?].
  - split.
    + rewrite length_zip_with. lia.
    + clear Ha Hb. revert b Hwb.
      induction Hwa as [|ra a Hra _ IH]; intros [|rb b] Hwb; simpl; try constructor.
      * apply Forall_cons in Hwb as [Hrb _]. rewrite length_zip_with. lia.
      * apply IH. by apply Forall_cons in Hwb as [_ ?].
Qed.

(** Frames and masks of one shape can always be combined. *)
Lemma mask_one_frame_total mb h w (frame : rgb) (binary_mask : list (list bool)) :
  has_shape h w frame → has_shape h w binary_mask →
  ∃ masked_frame,
    mask_one_frame mb frame binary_mask
    = Ok (masked_frame,
          Np.gray_to_rgb (if mb then Np.where_scalar binary_mask 0 255
                          else Np.where_scalar binary_mask 255 0))
    ∧ has_shape h w masked_frame.
Proof.
  intros Hf Hm. unfold mask_one_frame, Np.where3.
  assert (has_shape h w (Np.zeros_like frame)) as Hz by by apply has_shape_map.
  destruct (broadcast_raster Np.shape_error (λ (b : bool) (p : Z * Z * Z), (b, p))
              h w _ _ Hm Hz) as [-> Hcx].
  simpl.
  destruct (broadcast_raster Np.shape_error
              (λ (bp : bool * (Z * Z * Z)) q, if bp.1 then bp.2 else q)
              h w _ _ Hcx Hf) as [-> Hout].
  simpl. eexists. split; [|exact Hout]. by destruct mb.
Qed.

Lemma mask_frames_total {M} (binarize : M → list (list bool)) mb h w
    (video : list rgb) (masks : list M) :
  Forall (has_shape h w) video →
  Forall (λ m, has_shape h w (binarize m)) masks →
  ∃ mv bm,
    mask_frames binarize mb video masks = Ok (mv, bm)
    ∧ length mv = (length video `min` length masks)%nat
    ∧ length bm = (length video `min` length masks)%nat.
Proof.
  intros Hv Hm. unfold mask_frames.
  destruct (mapM_total
              (λ fm : rgb * M, mask_one_frame mb fm.1 (binarize fm.2))
              (zip video masks)) as [pairs Hpairs].
  { apply Forall_forall. intros [f m] Hin. simpl.
    destruct (mask_one_frame_total mb h w f (binarize m)) as (mf & -> & _).
    - eapply Forall_forall; [exact Hv|]. by eapply elem_of_zip_l.
    - eapply (proj1 (Forall_forall _ _) Hm). by eapply elem_of_zip_r.
    - by eexists. }
  rewrite Hpairs. simpl. do 2 eexists. split; [done|].
  apply mapM_ok_length in Hpairs.
  by rewrite !length_fmap, Hpairs, length_zip.
Qed.

Lemma has_shape_eq_scalar h w (m : gray) v :
  has_shape h w m → has_shape h w (Np.eq_scalar m v).
Proof. apply has_shape_map. Qed.

(** The directory loader returns whenever decoding succeeds on images of
    one shape. *)
Lemma directory_loader_returns (st : Storage) (mb : bool) (h w : nat) (fps : Z)
    vp mp s e video (masks : list gray) :
  load_frames_and_masks st vp mp = Ok (video, masks) →
  Forall (has_shape h w) video → Forall (has_shape h w) masks →
  ∃ mv bm,
    read_video_with_mask_from_frame st vp mp s e mb fps = Ok (video, mv, bm, fps)
    ∧ length mv = (length video `min` length masks)%nat
    ∧ length bm = (length video `min` length masks)%nat.
Proof.
  intros Hload Hv Hm.
  unfold read_video_with_mask_from_frame. rewrite Hload. simpl.
  destruct (mask_frames_total (λ mask, Np.eq_scalar mask 255) mb h w video masks)
    as (mv & bm & -> & Hmv & Hbm); [done| |by exists mv, bm].
  eapply Forall_impl; [exact Hm|]. intros m. apply has_shape_eq_scalar.
Qed.

(** So does the video-file loader. *)
Lemma video_file_loader_returns (st : Storage) (mb : bool) (h w : nat) (fps : Z)
    path (masks : list gray) mask_id s e loaded :
  load_video st path = Ok loaded →
  Forall (has_shape h w) loaded → Forall (has_shape h w) masks →
  ∃ mv bm,
    read_video_with_mask st path masks mask_id s e mb fps
    = Ok (PyList.slice loaded s e, mv, bm,
          if fps =? 0 then capture_fps st path else fps)
    ∧ length mv = (length (PyList.slice loaded s e)
                   `min` length (PyList.slice masks s e))%nat
    ∧ length bm = length mv.
Proof.
  intros Hload Hv Hm.
  destruct (mask_frames_total (λ frame_mask, Np.eq_scalar frame_mask mask_id)
              mb h w (PyList.slice loaded s e) (PyList.slice masks s e))
    as (mv & bm & Hmf & Hmv & Hbm).
  - by apply Forall_take, Forall_drop.
  - apply Forall_take, Forall_drop.
    eapply Forall_impl; [exact Hm|]. intros m. apply has_shape_eq_scalar.
  - exists mv, bm. unfold read_video_with_mask. rewrite Hload.
    cbn [mbind result_bind]. rewrite Hmf. cbn [mbind result_bind].
    repeat split; congruence.
Qed.

(** ** File names and their numbers *)

Lemma split_not_nil sep s : Str.split sep s ≠ [].
Proof.
  destruct s as [|c s]; simpl; [done|].
  destruct (Ascii.eqb c sep); [done|]. by destruct (Str.split sep s).
Qed.

(** Appending a string without separator extends the last segment. *)
Lemma split_app_no_sep sep a f :
  Str.split sep f = [f] →
  ∃ init w, Str.split sep a = (init ++ [w])%list
            ∧ Str.split sep (a ++ f)%string = (init ++ [(w ++ f)%string])%list.
Proof.
  intros Hf. induction a as [|c a (init & w & Ha & Haf)].
  - by exists [], ""%string.
  - change (String c a ++ f)%string with (String c (a ++ f)%string).
    simpl. destruct (Ascii.eqb c sep).
    + exists (EmptyString :: init), w. by rewrite Ha, Haf.
    + rewrite Ha, Haf. destruct init as [|i0 init]; simpl.
      * by exists [], (String c w).
      * by exists (String c i0 :: init), w.
Qed.

Lemma split_single_empty sep s : Str.split sep s = [EmptyString] → s = EmptyString.
Proof.
  destruct s as [|c s]; simpl; [done|].
  destruct (Ascii.eqb c sep).
  - intros [= H]. by apply split_not_nil in H.
  - by destruct (Str.split sep s).
Qed.

Lemma endswith_slash_cons c a :
  a ≠ EmptyString → Str.endswith (String c a) "/" = Str.endswith a "/".
Proof.
  destruct a as [|c' a]; [done|]. intros _.
  unfold Str.endswith. simpl String.length.
  replace (S (S (String.length a)) - 1)%nat with (S (String.length a)) by lia.
  replace (S (String.length a) - 1)%nat with (String.length a) by lia.
  done.
Qed.

Lemma endswith_slash_split a :
  Str.endswith a "/" = true → ∃ init, Str.split "/" a = (init ++ [EmptyString])%list.
Proof.
  induction a as [|c a IH]; [done|].
  destruct (decide (a = EmptyString)) as [->|Hne].
  - unfold Str.endswith. simpl. intros Hc.
    destruct (Ascii.eqb_spec c "/") as [->|Hc']; [by exists [EmptyString]|done].
  - rewrite endswith_slash_cons by done. intros [init Ha]%IH.
    simpl. rewrite Ha. destruct (Ascii.eqb c "/").
    + by exists (EmptyString :: init).
    + destruct init as [|i0 init]; simpl.
      * by apply split_single_empty in Ha.
      * by exists (String c i0 :: init).
Qed.

Lemma endswith_slash_app a : Str.endswith (a ++ "/")%string "/" = true.
Proof.
  induction a as [|c a IH]; [done|].
  change (String c a ++ "/")%string with (String c (a ++ "/")%string).
  rewrite endswith_slash_cons; [done|]. by destruct a.
Qed.

Lemma string_app_assoc (a b c : string) :
  ((a ++ b) ++ c)%string = (a ++ b ++ c)%string.
Proof.
  induction a as [|x a IH]; [done|].
  change (String x (((a ++ b) ++ c)%string) = String x (a ++ b ++ c)%string).
  by rewrite IH.
Qed.

(** A name without a slash is the base name of the path that
    [os.path.join] forms with it, whatever the directory. *)
Lemma basename_join dir f :
  Str.split "/" f = [f] → OsPath.basename (OsPath.join dir f) = f.
Proof.
  intros Hf.
  assert (∀ b, Str.endswith b "/" = true → OsPath.basename (b ++ f)%string = f) as Hend.
  { intros b [init Hb]%endswith_slash_split.
    destruct (split_app_no_sep "/" b f Hf) as (init' & w & Hb' & Hbf).
    rewrite Hb in Hb'. apply app_inj_tail in Hb' as [<- <-].
    unfold OsPath.basename. by rewrite Hbf, last_snoc. }
  unfold OsPath.join.
  assert (Str.startswith f "/" = false) as ->.
  { destruct f as [|c f]; [done|]. unfold Str.startswith. simpl.
    simpl in Hf. destruct (Ascii.eqb_spec c "/") as [->|Hc].
    - injection Hf as Hf _. done.
    - destruct c as [[] [] [] [] [] [] [] []]; try done. }
  destruct (String.eqb_spec dir "") as [->|Hdir]; simpl.
  - change (OsPath.basename f = f). unfold OsPath.basename. by rewrite Hf.
  - destruct (Str.endswith dir "/") eqn:Hslash; [by apply Hend|].
    rewrite <- string_app_assoc. apply Hend, endswith_slash_app.
Qed.

Lemma sort_key_join dir f :
  Str.split "/" f = [f] → sort_key (OsPath.join dir f) = sort_key f.
Proof.
  intros Hf. unfold sort_key. rewrite basename_join by done.
  unfold OsPath.basename. by rewrite Hf.
Qed.

(** ** [sorted] with a key *)

Section Sorted.
Context {A : Type}.
Implicit Types l : list (Z * A).

Lemma insert_by_key_perm k (x : A) l :
  PyList.insert_by_key k x l ≡ₚ (k, x) :: l.
Proof.
  induction l as [|[k' y] l IH]; simpl; [done|].
  destruct (k <=? k'); [done|]. by rewrite IH, Permutation_swap.
Qed.

Lemma stable_sort_perm l : PyList.stable_sort l ≡ₚ l.
Proof.
  induction l as [|[k x] l IH]; simpl; [done|].
  by rewrite insert_by_key_perm, IH.
Qed.

Lemma insert_by_key_sorted k (x : A) l :
  StronglySorted (λ p q : Z * A, p.1 ≤ q.1) l →
  StronglySorted (λ p q : Z * A, p.1 ≤ q.1) (PyList.insert_by_key k x l).
Proof.
  induction 1 as [|[k' y] l Hl IH Hall]; simpl.
  - repeat constructor.
  - destruct (Z.leb_spec k k').
    + constructor; [by constructor|].
      constructor; [done|].
      eapply Forall_impl; [exact Hall|]. intros [??]; simpl in *. lia.
    + constructor; [done|].
      rewrite insert_by_key_perm. constructor; [simpl; lia | done].
Qed.

Lemma stable_sort_sorted l :
  StronglySorted (λ p q : Z * A, p.1 ≤ q.1) (PyList.stable_sort l).
Proof.
  induction l as [|[k x] l IH]; simpl; [constructor|].
  by apply insert_by_key_sorted.
Qed.

(** Keys that increase strictly along a list tell its elements apart. *)
Lemma increasing_keys_inj (k : A → Z) (canon : list A) a b :
  StronglySorted (λ x y, k x < k y) canon →
  a ∈ canon → b ∈ canon → k a = k b → a = b.
Proof.
  induction 1 as [|c cs Hcs IH Hall]; [by intros ?%elem_of_nil|].
  rewrite Forall_forall in Hall.
  intros [->|Ha]%elem_of_cons [->|Hb]%elem_of_cons Hk; auto.
  - specialize (Hall _ Hb). lia.
  - specialize (Hall _ Ha). lia.
Qed.

(** Whatever the order of the input, [sorted] returns the one arrangement
    whose keys increase. *)
Lemma sorted_canonical (key : A → result Z) (k : A → Z) (canon input : list A) :
  (∀ x, x ∈ canon → key x = Ok (k x)) →
  StronglySorted (λ x y, k x < k y) canon →
  input ≡ₚ canon →
  PyList.sorted key input = Ok canon.
Proof.
  intros Hkey Hinc Hperm. unfold PyList.sorted.
  assert (mapM key input = Ok (map k input)) as ->.
  { apply mapM_ok_Forall2. apply Forall2_fmap_r, Forall_Forall2_diag.
    apply Forall_forall. intros x Hx. apply Hkey. by rewrite <- Hperm. }
  simpl. f_equal.
  assert (zip (map k input) input = map (λ x, (k x, x)) input) as ->.
  { clear. induction input as [|x l IH]; simpl; [done|]. by rewrite IH. }
  assert (PyList.stable_sort (map (λ x, (k x, x)) input)
          = map (λ x, (k x, x)) canon) as ->.
  { apply (StronglySorted_unique_strong (λ p q : Z * A, p.1 ≤ q.1)).
    - intros [k1 a] [k2 b] H1 H2 Hle Hge. simpl in *.
      rewrite stable_sort_perm, Hperm in H1.
      apply list_elem_of_fmap in H1 as (a' & [= -> ->] & Ha).
      apply list_elem_of_fmap in H2 as (b' & [= -> ->] & Hb).
      assert (a' = b') as -> by (eapply increasing_keys_inj; eauto; lia).
      done.
    - apply stable_sort_sorted.
    - clear Hkey Hperm. induction Hinc as [|c cs Hcs IH Hall]; simpl; constructor; [done|].
      apply Forall_fmap. eapply Forall_impl; [exact Hall|]. simpl. lia.
    - by rewrite stable_sort_perm, Hperm. }
  rewrite <- list_fmap_compose. apply list_fmap_id.
Qed.

End Sorted.

(** ** Numbered files in any order *)

Lemma sort_key_frame_file dir i :
  (i < 5)%nat → sort_key (OsPath.join dir (frame_file i)) = Ok (Z.of_nat i).
Proof.
  intros Hi. do 5 (destruct i as [|i]; [by rewrite sort_key_join|]). lia.
Qed.

Lemma sort_key_mask_file dir i :
  (i < 5)%nat → sort_key (OsPath.join dir (mask_file i)) = Ok (Z.of_nat i).
Proof.
  intros Hi. do 5 (destruct i as [|i]; [by rewrite sort_key_join|]). lia.
Qed.

(** Five numbered files, listed in any order, are sorted into the order of
    their numbers. *)
Lemma sorted_numbered_files dir (name : nat → string) (listed : list string) :
  (∀ i, (i < 5)%nat → sort_key (OsPath.join dir (name i)) = Ok (Z.of_nat i)) →
  listed ≡ₚ map name (seq 0 5) →
  PyList.sorted sort_key (map (OsPath.join dir) listed)
  = Ok (map (OsPath.join dir) (map name (seq 0 5))).
Proof.
  intros Hkey Hperm.
  apply (sorted_canonical sort_key
           (λ p, match sort_key p with Ok z => z | Raise _ => 0 end)).
  - intros x (f & -> & (i & -> & Hi)%list_elem_of_fmap)%list_elem_of_fmap.
    apply elem_of_seq in Hi. by rewrite Hkey by lia.
  - simpl. repeat constructor; rewrite !Hkey by lia; lia.
  - by rewrite Hperm.
Qed.

(** ** Frames side by side *)

(** Four rasters of one shape, stacked side by side. *)
Lemma side_by_side_rows {P} H W (a b c d : list (list P)) :
  has_shape H W a → has_shape H W b → has_shape H W c → has_shape H W d →
  has_shape H (4 * W) (zip_with app (zip_with app (zip_with app a b) c) d)
  ∧ ∀ r ra rb rc rd,
      a !! r = Some ra → b !! r = Some rb → c !! r = Some rc → d !! r = Some rd →
      zip_with app (zip_with app (zip_with app a b) c) d !! r
      = Some (ra ++ rb ++ rc ++ rd)%list.
Proof.
  intros [Ha Hwa] [Hb Hwb] [Hc Hwc] [Hd Hwd].
  assert (∀ r ra rb rc rd,
            a !! r = Some ra → b !! r = Some rb → c !! r = Some rc →
            d !! r = Some rd →
            zip_with app (zip_with app (zip_with app a b) c) d !! r
            = Some (ra ++ rb ++ rc ++ rd)%list) as Hrows.
  { intros r ra rb rc rd Hra Hrb Hrc Hrd.
    rewrite !lookup_zip_with, Hra, Hrb, Hrc, Hrd. simpl.
    by rewrite <- !(assoc_L (++)%list). }
  split; [|exact Hrows]. split.
  - rewrite !length_zip_with. lia.
  - apply Forall_lookup. intros r row Hrow.
    assert (r < H)%nat as Hr.
    { apply lookup_lt_Some in Hrow. rewrite !length_zip_with in Hrow. lia. }
    destruct (lookup_lt_is_Some_2 a r) as [ra Hra]; [lia|].
    destruct (lookup_lt_is_Some_2 b r) as [rb Hrb]; [lia|].
    destruct (lookup_lt_is_Some_2 c r) as [rc Hrc]; [lia|].
    destruct (lookup_lt_is_Some_2 d r) as [rd Hrd]; [lia|].
    rewrite (Hrows _ _ _ _ _ Hra Hrb Hrc Hrd) in Hrow. injection Hrow as <-.
    rewrite !length_app.
    rewrite (Forall_lookup_1 _ _ _ _ Hwa Hra), (Forall_lookup_1 _ _ _ _ Hwb Hrb),
      (Forall_lookup_1 _ _ _ _ Hwc Hrc), (Forall_lookup_1 _ _ _ _ Hwd Hrd).
    lia.
Qed.

(** [concatenate_images_horizontally] on four sequences of [n] frames of
    one shape. *)
Lemma concatenate_four {P} (a b c d : list (list (list P))) n H W :
  length a = n → length b = n → length c = n → length d = n →
  Forall (has_shape H W) a → Forall (has_shape H W) b →
  Forall (has_shape H W) c → Forall (has_shape H W) d →
  ∃ out,
    concatenate_images_horizontally [a; b; c; d] "np" = Ok out
    ∧ length out = n
    ∧ ∀ i ai bi ci di,
        a !! i = Some ai → b !! i = Some bi → c !! i = Some ci → d !! i = Some di →
        out !! i = Some (zip_with app (zip_with app (zip_with app ai bi) ci) di).
Proof.
  intros Ha Hb Hc Hd Hsa Hsb Hsc Hsd.
  unfold concatenate_images_horizontally. simpl. rewrite Ha.
  set (body := λ i : nat, _).
  assert (∀ i ai bi ci di,
            a !! i = Some ai → b !! i = Some bi → c !! i = Some ci →
            d !! i = Some di →
            body i = Ok (zip_with app (zip_with app (zip_with app ai bi) ci) di))
    as Hbody.
  { intros i ai bi ci di Hai Hbi Hci Hdi. unfold body. simpl.
    rewrite Hai, Hbi, Hci, Hdi. simpl.
    destruct (Forall_lookup_1 _ _ _ _ Hsa Hai) as [Hha _].
    destruct (Forall_lookup_1 _ _ _ _ Hsb Hbi) as [Hhb _].
    destruct (Forall_lookup_1 _ _ _ _ Hsc Hci) as [Hhc _].
    destruct (Forall_lookup_1 _ _ _ _ Hsd Hdi) as [Hhd _].
    unfold Np.concatenate_axis1. simpl.
    rewrite Hha, Hhb, Hhc, Hhd, Nat.eqb_refl. done. }
  destruct (mapM_total body (seq 0 n)) as [out Hout].
  { apply Forall_forall. intros i Hi%elem_of_seq.
    destruct (lookup_lt_is_Some_2 a i) as [ai Hai]; [lia|].
    destruct (lookup_lt_is_Some_2 b i) as [bi Hbi]; [lia|].
    destruct (lookup_lt_is_Some_2 c i) as [ci Hci]; [lia|].
    destruct (lookup_lt_is_Some_2 d i) as [di Hdi]; [lia|].
    eexists. by apply (Hbody i ai bi ci di). }
  exists out. split; [done|].
  pose proof Hout as Hlen%mapM_ok_length. rewrite length_seq in Hlen.
  split; [done|].
  intros i ai bi ci di Hai Hbi Hci Hdi.
  apply mapM_ok_Forall2 in Hout.
  assert (i < n)%nat as Hi by (apply lookup_lt_Some in Hai; lia).
  destruct (Forall2_lookup_l _ _ _ i i Hout) as (f & Hf & Hfi).
  { by apply lookup_seq_lt. }
  rewrite (Hbody i ai bi ci di) in Hfi by done. by injection Hfi as <-.
Qed.

Lemma broadcast_frames {A B C} err (f : A → B → C) h w
    (a : list (list (list A))) (b : list (list (list B))) :
  length a = length b →
  Forall (has_shape h w) a → Forall (has_shape h w) b →
  Np.broadcast err (Np.broadcast err (Np.broadcast err (λ x y, Ok (f x y)))) a b
  = Ok (zip_with (zip_with (zip_with f)) a b)
  ∧ Forall (has_shape h w) (zip_with (zip_with (zip_with f)) a b).
Proof.
  intros Hlen Ha Hb. split.
  - unfold Np.broadcast at 1. rewrite decide_True by done.
    apply mapM_ok_Forall2. clear Hlen. revert b Hb.
    induction Ha as [|fa a Hfa _ IH]; intros [|fb b] Hb; simpl; try constructor.
    + apply Forall_cons in Hb as [Hfb _].
      by destruct (broadcast_raster err f h w fa fb).
    + apply IH. by apply Forall_cons in Hb as [_ ?].
  - clear Hlen. revert b Hb.
    induction Ha as [|fa a Hfa _ IH]; intros [|fb b] Hb; simpl; try constructor.
    + apply Forall_cons in Hb as [Hfb _].
      by destruct (broadcast_raster err f h w fa fb).
    + apply IH. by apply Forall_cons in Hb as [_ ?].
Qed.

(** Frames of the height and width read off the first generated frame
    have the shape of the generated frames. *)
Lemma shape_of_first_frame {P Q} H W (video : list (list (list P)))
    (t : list (list (list Q))) :
  Forall (has_shape H W) video → length t = length video →
  Forall (has_shape (frame_height video) (frame_width video)) t →
  Forall (has_shape H W) t.
Proof.
  intros Hvideo Hlen Ht.
  destruct video as [|f video]; [by destruct t|].
  apply Forall_cons in Hvideo as [[Hh Hw] _]. simpl in Ht.
  eapply Forall_impl; [exact Ht|]. intros img [Hi Hrows].
  destruct f as [|row f]; simpl in *.
  - subst H. destruct img; [|done]. by split.
  - apply Forall_cons in Hw as [Hrow _]. subst. by split.
Qed.

Lemma three_channels_shape {R} H W (masks : list (list (list R))) :
  Forall (has_shape H W) masks → Forall (has_shape H W) (three_channels masks).
Proof.
  intros Hm. unfold three_channels. apply Forall_fmap.
  eapply Forall_impl; [exact Hm|]. intros img. apply has_shape_map.
Qed.

Lemma crop_or_pad_shape {P} (fill : P) h w img :
  has_shape h w (Demo.crop_or_pad fill h w img).
Proof.
  unfold Demo.crop_or_pad. split.
  - by rewrite length_map, length_seq.
  - apply Forall_fmap, Forall_forall. intros r _. simpl.
    by rewrite length_map, length_seq.
Qed.

Lemma demo_pipeline_keeps_shape : processors_keep_shape Demo.pipeline.
Proof.
  split; [|split].
  - intros v h w. eexists. split; [reflexivity|]. split.
    + by rewrite length_map.
    + apply Forall_fmap, Forall_forall. intros img _. apply crop_or_pad_shape.
  - intros v h w. eexists. split; [reflexivity|]. split.
    + by rewrite length_map.
    + apply Forall_fmap, Forall_forall. intros img _.
      apply has_shape_map, crop_or_pad_shape.
  - intros t h w Ht. by exists t.
Qed.

(** ** Slices with non-negative bounds *)

Lemma slice_lookup {A} (l : list A) (start stop : Z) (j : nat) :
  0 ≤ start → 0 ≤ stop →
  PyList.slice l start stop !! j
  = if decide (start + Z.of_nat j < stop) then l !! (Z.to_nat start + j)%nat
    else None.
Proof.
  intros Hstart Hstop. unfold PyList.slice, PyList.clamp.
  replace (start <? 0) with false by lia.
  replace (stop <? 0) with false by lia.
  rewrite lookup_take, lookup_drop.
  repeat case_decide; try done; try lia.
  - destruct (decide (Z.to_nat start < length l)%nat).
    + f_equal. lia.
    + rewrite !lookup_ge_None_2; [done|lia|lia].
  - symmetry. apply lookup_ge_None_2. lia.
Qed.

(** * The claims *)

(** ** Lengths of the three sequences *)

(** C1, as amended.  After each stage (Loader, first-frame substitution,
    Resampler, First-Frame Policy) the masked frames and the binary masks
    have equal length, for every source input on which the stages return;
    the frames have that length too whenever the source has no more frames
    than masks.  When the source has more frames than masks the Loader
    returns more frames than masked frames. *)
Theorem clip_lengths_after_each_stage
    (st : Storage) (si : StillImage) (vp mp : string) (s e : Z) (mb : bool)
    (fps : Z) (model : option string) (dil d : Z) (long : bool)
    (frames : option Z) (g : bool)
    (video : list rgb) (masks : list gray)
    (v1 mv1 bm1 : list rgb) (f : Z)
    (v2 mv2 bm2 : list rgb) (gtv : option rgb)
    (v3 mv3 bm3 : list rgb) (n d' : Z)
    (bm4 : list rgb) (gtm : option rgb) :
  load_frames_and_masks st vp mp = Ok (video, masks) →
  read_video_with_mask_from_frame st vp mp s e mb fps = Ok (v1, mv1, bm1, f) →
  first_frame_substitution si model dil v1 mv1 bm1 = Ok (v2, mv2, bm2, gtv) →
  resample f d long frames v2 mv2 bm2 = Ok (v3, mv3, bm3, n, d') →
  first_frame_policy g mb bm3 = Ok (bm4, gtm) →
  (length mv1 = length bm1 ∧ length mv2 = length bm2
   ∧ length mv3 = length bm3 ∧ length mv3 = length bm4)
  ∧ ((length video ≤ length masks)%nat →
     length v1 = length mv1 ∧ length v2 = length mv2 ∧ length v3 = length mv3)
  ∧ ((length masks < length video)%nat → (length mv1 < length v1)%nat).
Proof.
  intros Hload Hread Hsub Hres Hpol.
  destruct (loader_lengths _ _ _ _ _ _ _ _ _ _ _ _ _ Hload Hread)
    as (-> & -> & Hmv1 & Hbm1).
  destruct (substitution_lengths _ _ _ _ _ _ _ _ _ _ Hsub) as (Hv2 & Hmv2 & Hbm2).
  destruct (resample_lengths _ _ _ _ _ _ _ _ _ _ _ _ Hres) as (Hmb3 & Hvm3).
  apply policy_lengths in Hpol.
  assert (length mv2 = length bm2) as H2 by congruence.
  specialize (Hmb3 H2).
  repeat split; try congruence; lia.
Qed.

(** The amended C1 on a source of three frames and three masks, with an
    image-inpainting model, resampled at stride 1 and cut to two frames. *)
Lemma clip_lengths_on_three_frames :
  ∃ v1 mv1 bm1 v2 mv2 bm2 gtv v3 mv3 bm3 bm4 gtm,
    read_video_with_mask_from_frame (Demo.in_order 3 3)
      Demo.images_dir Demo.masks_dir 0 (-1) false 8 = Ok (v1, mv1, bm1, 8)
    ∧ first_frame_substitution Demo.still (Some "flux") (-1) v1 mv1 bm1
      = Ok (v2, mv2, bm2, gtv)
    ∧ resample 8 8 false (Some 2) v2 mv2 bm2 = Ok (v3, mv3, bm3, 2, 8)
    ∧ first_frame_policy true false bm3 = Ok (bm4, gtm)
    ∧ (length mv1 = length bm1 ∧ length mv2 = length bm2
       ∧ length mv3 = length bm3 ∧ length mv3 = length bm4)
    ∧ (length v1 = length mv1 ∧ length v2 = length mv2 ∧ length v3 = length mv3)
    ∧ length v1 = 3%nat ∧ length v3 = 2%nat.
Proof.
  do 12 eexists.
  split; [reflexivity|]. split; [reflexivity|].
  split; [reflexivity|]. split; [reflexivity|].
  destruct (clip_lengths_after_each_stage
              (Demo.in_order 3 3) Demo.still Demo.images_dir Demo.masks_dir
              0 (-1) false 8 (Some "flux") (-1) 8 false (Some 2) true
              (map Demo.frame (seq 0 3)) (map Demo.seg (seq 0 3))
              _ _ _ _ _ _ _ _ _ _ _ _ _ _ _
              eq_refl eq_refl eq_refl eq_refl eq_refl) as (Hmasks & Hframes & _).
  split; [exact Hmasks|]. split; [exact (Hframes ltac:(done))|]. done.
Defined.

(** C1 as stated fails: on three frames and two masks the Loader returns
    three frames beside two masked frames and two binary masks, and in
    long-video mode the clip handed to the generative model still has
    three frames beside two masked frames. *)
Lemma loader_returns_unequal_lengths :
  (∃ v mv bm f,
      read_video_with_mask_from_frame (Demo.in_order 3 2)
        Demo.images_dir Demo.masks_dir 0 (-1) false 8 = Ok (v, mv, bm, f)
      ∧ length v = 3%nat ∧ length mv = 2%nat ∧ length bm = 2%nat)
  ∧ (∃ p,
      prepare (Demo.in_order 3 2) Demo.still (Demo.args 2 0 true true None) = Ok p
      ∧ length (p_video p) = 3%nat
      ∧ length (p_masked_video p) = 2%nat
      ∧ length (p_binary_masks p) = 2%nat).
Proof.
  split.
  - do 4 eexists. split; [reflexivity|]. done.
  - eexists. split; [reflexivity|]. done.
Qed.

(** ** The resampling stride *)

(** C2, as amended.  For a positive target fps the stride is
    floor(source_fps / target_fps) and nothing raises it to 1.  When the
    target does not exceed the source, the stride is at least 1 and the
    Resampler takes every stride-th index of each of the three sequences
    (then cuts them to [frames] unless long-video mode is on).  When the
    target exceeds a non-negative source, the stride is 0 and the
    resampling step raises [ValueError]. *)
Theorem resample_takes_every_stride_th {A : Type} (fps d : Z) (long : bool)
    (frames : option Z) (v mv bm : list A) :
  0 < d →
  resample_step fps d = Ok (fps `div` d)
  ∧ (d ≤ fps →
     let k := Z.to_nat (fps `div` d) in
     let cut (l : list A) :=
       if long then PyList.every k 0 l
       else PyList.slice_to (PyList.every k 0 l) frames in
     (1 ≤ k)%nat
     ∧ (∀ (l : list A) (j : nat), PyList.every k 0 l !! j = l !! (j * k)%nat)
     ∧ resample fps d long frames v mv bm =
         match frames with
         | None =>
             Raise (TypeError "'<' not supported between instances of 'int' and 'NoneType'")
         | Some n =>
             if Z.of_nat (length (cut v)) <? n
             then Raise (ValueError (too_short_message n (Z.of_nat (length (cut v)))))
             else Ok (cut v, cut mv, cut bm, n, d)
         end)
  ∧ (0 ≤ fps < d →
     fps `div` d = 0
     ∧ resample fps d long frames v mv bm
       = Raise (ValueError "slice step cannot be zero")).
Proof.
  intros Hd.
  assert (resample_step fps d = Ok (fps `div` d)) as Hstep.
  { unfold resample_step. destruct (Z.eqb_spec d 0); [lia | done]. }
  assert ((d =? 0) = false) as Hd0 by lia.
  split; [done|]. split.
  - intros Hle k cut.
    assert (1 ≤ fps `div` d) as Hk.
    { apply Z.div_le_lower_bound; lia. }
    split; [lia|]. split.
    { intros l j. rewrite every_lookup by lia. done. }
    unfold resample. rewrite Hd0, Hstep. simpl.
    unfold PyList.slice_step.
    replace (fps `div` d =? 0) with false by lia.
    replace (0 <? fps `div` d) with true by lia.
    simpl. fold k.
    destruct long, frames as [n|]; simpl; try done.
  - intros Hlt.
    assert (fps `div` d = 0) as H0 by (apply Z.div_small; lia).
    split; [done|].
    unfold resample. rewrite Hd0, Hstep, H0. done.
Qed.

(** The amended C2 at source fps 24 and target fps 8, on sixteen numbered
    frames cut to six. *)
Lemma resample_24_to_8 :
  0 < 8
  ∧ resample_step 24 8 = Ok 3
  ∧ resample 24 8 false (Some 6) (seq 0 16) (seq 100 16) (seq 200 16)
    = Ok ([0; 3; 6; 9; 12; 15]%nat, [100; 103; 106; 109; 112; 115]%nat,
          [200; 203; 206; 209; 212; 215]%nat, 6, 8).
Proof.
  pose proof (resample_takes_every_stride_th 24 8 false (Some 6)
                (seq 0 16) (seq 100 16) (seq 200 16) eq_refl)
    as (Hstep & Hdown & _).
  split; [done|]. split; [exact Hstep|].
  destruct (Hdown ltac:(done)) as (_ & _ & ->). reflexivity.
Defined.

(** C2 as stated fails: at source fps 8 and target fps 16 the stride is 0,
    not 1, and no resampled clip is produced. *)
Lemma stride_zero_when_target_exceeds_source :
  resample_step 8 16 = Ok 0
  ∧ resample 8 16 false (Some 2) (seq 0 16) (seq 100 16) (seq 200 16)
    = Raise (ValueError "slice step cannot be zero").
Proof. split; reflexivity. Qed.

(** ** Sixteen frames *)

(** Turns a list whose length is a known numeral into a list of that many
    variables. *)
Ltac enumerate_list l H :=
  repeat (destruct l as [|? l]; [try discriminate H | simpl in H; try discriminate H]).

(** The statements of lines 478-485 taken alone, at a source rate of 24,
    which [generate_video] never passes to them: sixteen frames are
    resampled at stride 3 to the six frames of indices 0, 3, ..., 15; with
    [frames] 6 the check of the minimum length passes, and with [frames] 7
    it raises the [ValueError] whose message gives the 6 frames that are
    there. *)
Lemma sixteen_frames_at_24_fps {A : Type} (long : bool) (v mv bm : list A) :
  length v = 16%nat → length mv = 16%nat → length bm = 16%nat →
  resample_step 24 8 = Ok 3
  ∧ (∃ v' mv' bm',
        resample 24 8 long (Some 6) v mv bm = Ok (v', mv', bm', 6, 8)
        ∧ length v' = 6%nat ∧ length mv' = 6%nat ∧ length bm' = 6%nat
        ∧ ∀ j, (j < 6)%nat →
               v' !! j = v !! (3 * j)%nat ∧ mv' !! j = mv !! (3 * j)%nat
               ∧ bm' !! j = bm !! (3 * j)%nat)
  ∧ resample 24 8 long (Some 7) v mv bm
    = Raise (ValueError "video length is less than 7, len(video): 6, using 5 frames...").
Proof.
  intros Hv Hmv Hbm.
  enumerate_list v Hv. enumerate_list mv Hmv. enumerate_list bm Hbm.
  split; [reflexivity|]. split.
  - destruct long; do 3 eexists; (split; [reflexivity|]);
      (repeat split; try reflexivity);
      do 6 (destruct j as [|j]; [reflexivity|]); lia.
  - destruct long; reflexivity.
Qed.

(** Sixteen numbered frames at a source rate of 24. *)
Lemma sixteen_numbered_frames :
  resample 24 8 false (Some 6) (seq 0 16) (seq 100 16) (seq 200 16)
  = Ok ([0; 3; 6; 9; 12; 15]%nat, [100; 103; 106; 109; 112; 115]%nat,
        [200; 203; 206; 209; 212; 215]%nat, 6, 8)
  ∧ resample 24 8 false (Some 7) (seq 0 16) (seq 100 16) (seq 200 16)
    = Raise (ValueError "video length is less than 7, len(video): 6, using 5 frames...").
Proof.
  destruct (sixteen_frames_at_24_fps false (seq 0 16) (seq 100 16) (seq 200 16)
              eq_refl eq_refl eq_refl) as (_ & _ & Hseven).
  split; [reflexivity | exact Hseven].
Defined.






(** ** The first frame without an image-inpainting model *)

(** C4 at its failing input: [first_frame_gt] set, [mask_background] unset
    and no image-inpainting model (the default).  The mask of frame 0
    handed to the generative model is all zero, but after the call the run
    stops on the unbound [gt_video_first_frame] and no frame sequence is
    restored or exported. *)
Lemma first_frame_gt_without_image_model :
  (∃ p, prepare (Demo.in_order 3 3) Demo.still (Demo.args 2 0 true false None) = Ok p
        ∧ head (pa_masks (p_call p)) = Some [[(0, 0, 0); (0, 0, 0)]]
        ∧ p_gt_mask_first_frame p = Some [[(255, 255, 255); (0, 0, 0)]]
        ∧ p_gt_video_first_frame p = None)
  ∧ generate_video (Demo.in_order 3 3) Demo.still Demo.pipeline
      (Demo.args 2 0 true false None)
    = Raise (NameError "gt_video_first_frame").
Proof.
  split; [|reflexivity].
  eexists. split; [reflexivity|]. done.
Qed.

(** ** The bounds of the loaded range *)

(** C5 at its failing input: three frames, [skip_frames_start] 1 and
    [skip_frames_end] 2.  The directory loader returns the three frames,
    where the video-file loader returns frame 1 alone. *)
Lemma directory_loader_ignores_skip_bounds :
  read_video_with_mask_from_frame (Demo.in_order 3 3)
    Demo.images_dir Demo.masks_dir 1 2 false 8
  = Ok ([Demo.frame 0; Demo.frame 1; Demo.frame 2],
        [[[(0, 0, 0); (100, 110, 120)]]; [[(0, 0, 0); (0, 0, 0)]];
         [[(0, 0, 0); (102, 112, 122)]]],
        [[[(255, 255, 255); (0, 0, 0)]]; [[(255, 255, 255); (255, 255, 255)]];
         [[(255, 255, 255); (0, 0, 0)]]],
        8)
  ∧ read_video_with_mask (Demo.in_order 3 3) "clip.mp4"
      [Demo.seg 0; Demo.seg 1; Demo.seg 2] 255 1 2 false 8
    = Ok ([Demo.frame 1], [[[(0, 0, 0); (0, 0, 0)]]],
          [[[(255, 255, 255); (255, 255, 255)]]], 8).
Proof. split; reflexivity. Qed.

(** ** Frames and masks of different lengths *)

(** C6, as amended.  When decoding succeeds and the frames and masks have
    one shape, both loaders return a clip whatever the two lengths are: no
    error is raised when they differ; the masked frames and the binary
    masks are cut to the shorter of the two lengths and the frames keep
    theirs. *)
Theorem loaders_truncate_to_shorter_sequence (st : Storage) (mb : bool)
    (h w : nat) (fps : Z) :
  (∀ vp mp s e video (masks : list gray),
      load_frames_and_masks st vp mp = Ok (video, masks) →
      Forall (has_shape h w) video → Forall (has_shape h w) masks →
      ∃ mv bm,
        read_video_with_mask_from_frame st vp mp s e mb fps
        = Ok (video, mv, bm, fps)
        ∧ length mv = (length video `min` length masks)%nat
        ∧ length bm = (length video `min` length masks)%nat)
  ∧ (∀ path (masks : list gray) mask_id s e loaded,
      load_video st path = Ok loaded →
      Forall (has_shape h w) loaded → Forall (has_shape h w) masks →
      ∃ mv bm,
        read_video_with_mask st path masks mask_id s e mb fps
        = Ok (PyList.slice loaded s e, mv, bm,
              if fps =? 0 then capture_fps st path else fps)
        ∧ length mv = (length (PyList.slice loaded s e)
                       `min` length (PyList.slice masks s e))%nat
        ∧ length bm = length mv).
Proof.
  split.
  - intros. by eapply directory_loader_returns.
  - intros. by eapply video_file_loader_returns.
Qed.

(** The amended C6 on two frames and three masks of one row of two
    pixels. *)
Lemma directory_loader_on_two_frames_three_masks :
  ∃ mv bm,
    read_video_with_mask_from_frame (Demo.in_order 2 3)
      Demo.images_dir Demo.masks_dir 0 (-1) false 8
    = Ok ([Demo.frame 0; Demo.frame 1], mv, bm, 8)
    ∧ length mv = 2%nat ∧ length bm = 2%nat.
Proof.
  destruct (loaders_truncate_to_shorter_sequence (Demo.in_order 2 3) false 1 2 8)
    as [Hdir _].
  apply (Hdir Demo.images_dir Demo.masks_dir 0 (-1)
           [Demo.frame 0; Demo.frame 1] [Demo.seg 0; Demo.seg 1; Demo.seg 2]
           eq_refl).
  - repeat constructor.
  - repeat constructor.
Defined.

(** C6 as stated fails: with two frames and three masks the directory
    loader returns a clip of length two, the third mask being dropped, and
    with three frames and two masks the video-file loader returns three
    frames beside two masked frames. *)
Lemma loaders_return_on_unequal_lengths :
  read_video_with_mask_from_frame (Demo.in_order 2 3)
    Demo.images_dir Demo.masks_dir 0 (-1) false 8
  = Ok ([Demo.frame 0; Demo.frame 1],
        [[[(0, 0, 0); (100, 110, 120)]]; [[(0, 0, 0); (0, 0, 0)]]],
        [[[(255, 255, 255); (0, 0, 0)]]; [[(255, 255, 255); (255, 255, 255)]]],
        8)
  ∧ read_video_with_mask (Demo.in_order 3 3) "clip.mp4"
      [Demo.seg 0; Demo.seg 1] 255 0 3 false 0
    = Ok ([Demo.frame 0; Demo.frame 1; Demo.frame 2],
          [[[(0, 0, 0); (100, 110, 120)]]; [[(0, 0, 0); (0, 0, 0)]]],
          [[[(255, 255, 255); (0, 0, 0)]]; [[(255, 255, 255); (255, 255, 255)]]],
          24).
Proof. split; reflexivity. Qed.

(** ** Pairing frames and masks by their numbers *)

(** C7.  Whatever the order in which the two directories are listed, when
    their frame files are frame_0.png ... frame_4.png and their mask files
    seg_mask_0.png ... seg_mask_4.png (images of one shape), the directory
    loader returns a clip of length five whose index i holds frame i, with
    the masked frame and the binary mask made from frame i and mask i. *)
Theorem directory_loader_pairs_by_number
    (st : Storage) (vp mp : string) (s e : Z) (mb : bool) (fps : Z)
    (names_v names_m : list string) (F : nat → rgb) (M : nat → gray)
    (h w : nat) :
  listdir st vp = Ok names_v →
  listdir st mp = Ok names_m →
  filter (is_numbered "frame_") names_v ≡ₚ map frame_file (seq 0 5) →
  filter (is_numbered "seg_mask_") names_m ≡ₚ map mask_file (seq 0 5) →
  (∀ i, (i < 5)%nat →
        open_RGB st (OsPath.join vp (frame_file i)) = Ok (F i)
        ∧ has_shape h w (F i)) →
  (∀ i, (i < 5)%nat →
        open_L st (OsPath.join mp (mask_file i)) = Ok (M i)
        ∧ has_shape h w (M i)) →
  ∃ mv bm,
    read_video_with_mask_from_frame st vp mp s e mb fps
    = Ok (map F (seq 0 5), mv, bm, fps)
    ∧ length mv = 5%nat ∧ length bm = 5%nat
    ∧ ∀ i, (i < 5)%nat →
           ∃ masked_frame binary_mask,
             mask_one_frame mb (F i) (Np.eq_scalar (M i) 255)
             = Ok (masked_frame, binary_mask)
             ∧ mv !! i = Some masked_frame ∧ bm !! i = Some binary_mask.
Proof.
  intros Hlv Hlm Hpv Hpm HF HM.
  assert (load_frames_and_masks st vp mp
          = Ok (map F (seq 0 5), map M (seq 0 5))) as Hload.
  { unfold load_frames_and_masks. rewrite Hlv, Hlm. simpl.
    rewrite (sorted_numbered_files vp frame_file)
      by eauto using sort_key_frame_file.
    rewrite (sorted_numbered_files mp mask_file)
      by eauto using sort_key_mask_file.
    simpl.
    rewrite !(λ i Hi, proj1 (HF i Hi)) by lia. simpl.
    rewrite !(λ i Hi, proj1 (HM i Hi)) by lia. done. }
  assert (∀ i, (i < 5)%nat →
               ∃ mf, mask_one_frame mb (F i) (Np.eq_scalar (M i) 255)
                     = Ok (mf, Np.gray_to_rgb
                                 (if mb then Np.where_scalar (Np.eq_scalar (M i) 255) 0 255
                                  else Np.where_scalar (Np.eq_scalar (M i) 255) 255 0)))
    as Hone.
  { intros i Hi.
    destruct (mask_one_frame_total mb h w (F i) (Np.eq_scalar (M i) 255))
      as (mf & Hmf & _); [by apply HF | by apply has_shape_eq_scalar, HM |].
    by exists mf. }
  destruct (Hone 0%nat ltac:(lia)) as [mf0 H0], (Hone 1%nat ltac:(lia)) as [mf1 H1],
    (Hone 2%nat ltac:(lia)) as [mf2 H2], (Hone 3%nat ltac:(lia)) as [mf3 H3],
    (Hone 4%nat ltac:(lia)) as [mf4 H4].
  unfold read_video_with_mask_from_frame. rewrite Hload.
  unfold mask_frames. simpl. rewrite H0, H1, H2, H3, H4. simpl.
  do 2 eexists. split; [reflexivity|]. split; [done|]. split; [done|].
  intros i Hi.
  do 5 (destruct i as [|i]; [by eauto|]). lia.
Qed.

(** C7 on one directory that lists its five frames and five masks out of
    order, among other files. *)
Lemma shuffled_directory_is_paired_by_number :
  ∃ mv bm,
    read_video_with_mask_from_frame Demo.shuffled "clip" "clip" 0 (-1) false 8
    = Ok (map Demo.frame (seq 0 5), mv, bm, 8)
    ∧ length mv = 5%nat ∧ length bm = 5%nat
    ∧ ∀ i, (i < 5)%nat →
           ∃ masked_frame binary_mask,
             mask_one_frame false (Demo.frame i) (Np.eq_scalar (Demo.seg i) 255)
             = Ok (masked_frame, binary_mask)
             ∧ mv !! i = Some masked_frame ∧ bm !! i = Some binary_mask.
Proof.
  eapply (directory_loader_pairs_by_number Demo.shuffled "clip" "clip" 0 (-1)
            false 8 _ _ Demo.frame Demo.seg 1 2).
  - reflexivity.
  - reflexivity.
  - vm_compute. solve_Permutation.
  - vm_compute. solve_Permutation.
  - intros i Hi. do 5 (destruct i as [|i]; [by repeat constructor|]). lia.
  - intros i Hi. do 5 (destruct i as [|i]; [by repeat constructor|]). lia.
Defined.

(** ** The stride handed to the generative pipeline *)

(** C8.  In every run that reaches the generative call, the [stride]
    argument is the clip length [inpainting_frames] minus [overlap_frames].
    With that stride consecutive windows start [L - o] indices apart, and
    for an overlap between 0 and [L] they share exactly [o] frames. *)
Theorem stride_is_length_minus_overlap {K : Type}
    (st : Storage) (si : StillImage) (a : Args K) (p : Prepared K) :
  prepare st si a = Ok p →
  ∃ L,
    inpainting_frames a = Some L
    ∧ pa_num_frames (p_call p) = L
    ∧ pa_stride (p_call p) = L - overlap_frames a
    ∧ (∀ k, w_start (window (pa_stride (p_call p)) L (S k))
            = w_start (window (pa_stride (p_call p)) L k) + (L - overlap_frames a))
    ∧ (0 ≤ overlap_frames a ≤ L →
       ∀ k, shared_frames (window (pa_stride (p_call p)) L k)
                          (window (pa_stride (p_call p)) L (S k))
            = overlap_frames a).
Proof.
  intros Hp.
  apply prepare_ok in Hp
    as (v1 & mv1 & bm1 & v2 & mv2 & bm2 & gtv & v3 & mv3 & bm3 & n & d'
        & bm4 & gtm & image & _ & _ & Hres & _ & _ & _ & _ & _ & _ & _
        & _ & _ & _ & _ & _ & Hn & Hstride).
  apply resample_ok in Hres as (_ & _ & _ & _ & _ & _ & _ & _ & _ & Hframes & _).
  exists n. rewrite Hstride, Hn.
  split; [done|]. split; [done|]. split; [done|]. split.
  - intros k. unfold window. simpl. lia.
  - intros Ho k. unfold shared_frames, window. simpl. lia.
Qed.

(** C8 on a run with two frames per clip and an overlap of one. *)
Lemma stride_of_two_frames_overlap_one :
  ∃ p, prepare (Demo.in_order 3 3) Demo.still (Demo.args 2 1 true false (Some "flux")) = Ok p
       ∧ pa_num_frames (p_call p) = 2
       ∧ pa_stride (p_call p) = 1
       ∧ shared_frames (window 1 2 0) (window 1 2 1) = 1.
Proof.
  eexists. split; [reflexivity|].
  destruct (stride_is_length_minus_overlap (Demo.in_order 3 3) Demo.still
              (Demo.args 2 1 true false (Some "flux")) _ eq_refl)
    as (L & HL & Hn & Hs & _ & Hshared).
  injection HL as <-.
  split; [exact Hn|]. split; [exact Hs|].
  exact (Hshared ltac:(done) 0%nat).
Defined.

(** ** The comparison frames *)

(** C9.  When the processors of the pipeline keep the number and the shape
    of the frames, and the originals, the masks and the generated frames
    are [n] each, the generated frames being [H] by [W], the compositor
    returns [n] frames of [H] rows and [4 * W] pixels; row [r] of frame [i]
    is row [r] of the original frame, of the masked frame, of the binary
    mask replicated on three channels, and of the generated frame, in that
    order from left to right. *)
Theorem comparison_frame_is_four_panels {R K : Type}
    (pipe : Pipeline R K) (mb : bool) (original masks : list rgb)
    (video : list (list (list (R * R * R)))) (n H W : nat) :
  processors_keep_shape pipe →
  length original = n → length masks = n → length video = n →
  Forall (has_shape H W) video →
  ∃ ov mk pov pmv out,
    video_preprocess pipe original (frame_height video) (frame_width video) = Ok ov
    ∧ mask_preprocess pipe masks (frame_height video) (frame_width video) = Ok mk
    ∧ video_postprocess pipe ov = Ok pov
    ∧ video_postprocess pipe (zip_with (zip_with (zip_with (mask_pixel pipe mb))) ov mk)
      = Ok pmv
    ∧ _visualize_video pipe mb original video masks = Ok out
    ∧ length out = n
    ∧ ∀ i o m k g,
        pov !! i = Some o → pmv !! i = Some m → mk !! i = Some k →
        video !! i = Some g →
        ∃ f, out !! i = Some f
             ∧ has_shape H (4 * W) f
             ∧ ∀ r ro rm rk rg,
                 o !! r = Some ro → m !! r = Some rm → k !! r = Some rk →
                 g !! r = Some rg →
                 f !! r = Some (ro ++ rm ++ map (λ v, (v, v, v)) rk ++ rg)%list.
Proof.
  intros (Hpre & Hmpre & Hpost) Ho Hm Hv Hshape.
  destruct (Hpre original (frame_height video) (frame_width video))
    as (ov & Hov & Hlov & Hsov).
  destruct (Hmpre masks (frame_height video) (frame_width video))
    as (mk & Hmk & Hlmk & Hsmk).
  apply (shape_of_first_frame H W) in Hsov; [|done|congruence].
  apply (shape_of_first_frame H W) in Hsmk; [|done|congruence].
  destruct (broadcast_frames
              (RuntimeError "The size of tensor a must match the size of tensor b")
              (mask_pixel pipe mb) H W ov mk) as [Hmasked Hsmasked];
    [congruence|done|done|].
  destruct (Hpost ov H W Hsov) as (pov & Hpov & Hlpov & Hspov).
  destruct (Hpost _ H W Hsmasked) as (pmv & Hpmv & Hlpmv & Hspmv).
  rewrite !length_zip_with in Hlpmv.
  pose proof (three_channels_shape H W mk Hsmk) as Hs3.
  destruct (concatenate_four pov pmv (three_channels mk) video n H W)
    as (out & Hout & Hlout & Hpanels); try done; try lia.
  { unfold three_channels. rewrite length_map. lia. }
  exists ov, mk, pov, pmv, out.
  repeat (split; [done|]).
  split.
  { unfold _visualize_video. rewrite Hov. simpl. rewrite Hmk. simpl.
    rewrite Hmasked. simpl. rewrite Hpov. simpl. rewrite Hpmv. simpl. done. }
  split; [done|].
  intros i o m k g Hio Him Hik Hig.
  assert (three_channels mk !! i = Some (map (map (λ v : R, (v, v, v))) k)) as Hik3.
  { unfold three_channels. by rewrite list_lookup_fmap, Hik. }
  eexists. split; [by apply (Hpanels i o m (map (map (λ v : R, (v, v, v))) k) g)|].
  destruct (side_by_side_rows H W o m (map (map (λ v : R, (v, v, v))) k) g)
    as [Hf Hrows].
  - eapply Forall_lookup_1; [exact Hspov|exact Hio].
  - eapply Forall_lookup_1; [exact Hspmv|exact Him].
  - eapply Forall_lookup_1; [exact Hs3|exact Hik3].
  - eapply Forall_lookup_1; [exact Hshape|exact Hig].
  - split; [exact Hf|].
    intros r ro rm rk rg Hro Hrm Hrk Hrg.
    apply Hrows; try done. by rewrite list_lookup_fmap, Hrk.
Qed.

(** C9 on two frames of one row and two pixels: each comparison frame has
    one row of eight pixels. *)
Lemma comparison_of_two_frames :
  ∃ out,
    _visualize_video Demo.pipeline false
      [Demo.frame 0; Demo.frame 1]
      [[[(7, 7, 7); (7, 7, 7)]]; [[(8, 8, 8); (8, 8, 8)]]]
      [[[(255, 255, 255); (0, 0, 0)]]; [[(255, 255, 255); (255, 255, 255)]]]
    = Ok out
    ∧ length out = 2%nat
    ∧ out !! 0%nat
      = Some [[(0, 10, 20); (100, 110, 120); (0, 0, 0); (100, 110, 120);
               (255, 255, 255); (0, 0, 0); (7, 7, 7); (7, 7, 7)]].
Proof.
  destruct (comparison_frame_is_four_panels Demo.pipeline false
              [Demo.frame 0; Demo.frame 1]
              [[[(255, 255, 255); (0, 0, 0)]]; [[(255, 255, 255); (255, 255, 255)]]]
              [[[(7, 7, 7); (7, 7, 7)]]; [[(8, 8, 8); (8, 8, 8)]]]
              2 1 2 demo_pipeline_keeps_shape eq_refl eq_refl eq_refl
              ltac:(repeat constructor))
    as (ov & mk & pov & pmv & out & _ & _ & _ & _ & Hout & Hlen & _).
  exists out. split; [exact Hout|]. split; [exact Hlen|].
  vm_compute in Hout. injection Hout as <-. reflexivity.
Defined.

(** ** The ground truth read after the generative call *)

(** C10.  In the i2v_inpainting path, a run with [first_frame_gt] false or
    with no image-inpainting model never completes: once the generative
    call has returned, reading [gt_mask_first_frame] (when [first_frame_gt]
    is false) or else [gt_video_first_frame] raises [NameError], and no
    comparison video is produced. *)
Theorem unbound_ground_truth_after_generation {R K : Type}
    (st : Storage) (si : StillImage) (pipe : Pipeline R K) (a : Args K) :
  generate_type a = "i2v_inpainting" →
  first_frame_gt a = false ∨ truthy (img_inpainting_model a) = false →
  (∀ p video_generate,
      prepare st si a = Ok p →
      pipe_call pipe (p_call p) = Ok video_generate →
      generate_video st si pipe a
      = Raise (NameError (if first_frame_gt a then "gt_video_first_frame"
                          else "gt_mask_first_frame")))
  ∧ (∀ out, generate_video st si pipe a ≠ Ok out).
Proof.
  intros Htype Hflags.
  assert (∀ p video_generate,
            prepare st si a = Ok p →
            pipe_call pipe (p_call p) = Ok video_generate →
            generate_video st si pipe a
            = Raise (NameError (if first_frame_gt a then "gt_video_first_frame"
                                else "gt_mask_first_frame"))) as Hraise.
  { intros p vg Hp Hcall.
    unfold generate_video. rewrite Htype. simpl. rewrite Hp. simpl.
    rewrite Hcall. simpl.
    apply prepare_ok in Hp
      as (v1 & mv1 & bm1 & v2 & mv2 & bm2 & gtv & v3 & mv3 & bm3 & n & d'
          & bm4 & gtm & image & _ & Hsub & _ & Hpol & _ & _ & _ & Hbm & _ & _
          & Hgtv & Hgtm & _).
    apply policy_binds in Hpol. apply substitution_binds in Hsub.
    unfold finish, restore_first_frame. rewrite Hbm, Hgtv, Hgtm.
    destruct (first_frame_gt a).
    - destruct Hflags as [|Hmodel]; [done|]. rewrite Hmodel in Hsub.
      destruct Hpol as (m0 & _ & -> & ->), Hsub as (-> & _). done.
    - by destruct Hpol as (-> & _). }
  split; [exact Hraise|].
  intros out Hout.
  unfold generate_video in Hout. rewrite Htype in Hout. simpl in Hout.
  inv_bind Hout. inv_bind Hout.
  pose proof (Hraise _ _ Hm Hm0) as Hr.
  unfold generate_video in Hr. rewrite Htype in Hr. simpl in Hr.
  rewrite Hm in Hr. simpl in Hr. rewrite Hm0 in Hr. simpl in Hr.
  congruence.
Qed.

(** C10 on three frames and three masks: with [first_frame_gt] unset the
    run stops on [gt_mask_first_frame]. *)
Lemma run_without_first_frame_gt :
  generate_video (Demo.in_order 3 3) Demo.still Demo.pipeline
    (Demo.args 2 0 false false (Some "flux"))
  = Raise (NameError "gt_mask_first_frame").
Proof.
  destruct (unbound_ground_truth_after_generation
              (Demo.in_order 3 3) Demo.still Demo.pipeline
              (Demo.args 2 0 false false (Some "flux")) eq_refl (or_introl eq_refl))
    as [Hraise _].
  exact (Hraise _ _ eq_refl eq_refl).
Defined.

(** * Further properties *)

(** The video-file loader honours non-negative bounds: index [j] of the
    returned frames is the source frame [skip_frames_start + j], as long
    as that index is below [skip_frames_end]. *)
Theorem video_file_loader_honours_bounds (st : Storage) (path : string)
    (masks : list gray) (mask_id s e : Z) (mb : bool) (fps : Z)
    (loaded : list rgb) (h w : nat) :
  load_video st path = Ok loaded →
  Forall (has_shape h w) loaded → Forall (has_shape h w) masks →
  0 ≤ s → 0 ≤ e →
  ∃ v mv bm f,
    read_video_with_mask st path masks mask_id s e mb fps = Ok (v, mv, bm, f)
    ∧ ∀ j : nat,
        v !! j = if decide (s + Z.of_nat j < e) then loaded !! (Z.to_nat s + j)%nat
                 else None.
Proof.
  intros Hload Hv Hm Hs He.
  destruct (video_file_loader_returns st mb h w fps path masks mask_id s e loaded
              Hload Hv Hm) as (mv & bm & Hread & _).
  do 4 eexists. split; [exact Hread|].
  intros j. by apply slice_lookup.
Qed.

(** The bounds 1 and 2 on the three frames of "clip.mp4". *)
Lemma video_file_loader_on_bounds_1_2 :
  ∃ v mv bm f,
    read_video_with_mask (Demo.in_order 3 3) "clip.mp4"
      [Demo.seg 0; Demo.seg 1; Demo.seg 2] 255 1 2 false 8 = Ok (v, mv, bm, f)
    ∧ ∀ j : nat,
        v !! j = if decide (1 + Z.of_nat j < 2)
                 then map Demo.frame (seq 0 3) !! (Z.to_nat 1 + j)%nat
                 else None.
Proof.
  apply (video_file_loader_honours_bounds (Demo.in_order 3 3) "clip.mp4"
           [Demo.seg 0; Demo.seg 1; Demo.seg 2] 255 1 2 false 8
           (map Demo.frame (seq 0 3)) 1 2 eq_refl);
    [repeat constructor | repeat constructor | done | done].
Defined.

(** The directory loader returns the same clip whatever the bounds it is
    given. *)
Theorem directory_loader_is_independent_of_bounds (st : Storage)
    (vp mp : string) (s e s' e' : Z) (mb : bool) (fps : Z) :
  read_video_with_mask_from_frame st vp mp s e mb fps
  = read_video_with_mask_from_frame st vp mp s' e' mb fps.
Proof. reflexivity. Qed.

(** With [first_frame_gt], no [mask_background] and an image-inpainting
    model, a run that reaches the generative call hands it an all-zero mask
    at index 0, and the restoring assignments put the saved mask and the
    loaded frame 0 back at index 0, the other indices staying as they
    are. *)
Theorem first_frame_is_overridden_then_restored {K : Type}
    (st : Storage) (si : StillImage) (a : Args K) (p : Prepared K) :
  prepare st si a = Ok p →
  first_frame_gt a = true → mask_background a = false →
  truthy (img_inpainting_model a) = true →
  ∃ loaded masked_loaded masks_loaded mask0 frame0 video masks,
    read_video_with_mask_from_frame st "../../data/droid_2/images/"
      "../../data/droid_2/masks/" 0 (-1) false 8
    = Ok (loaded, masked_loaded, masks_loaded, 8)
    ∧ head loaded = Some frame0
    ∧ p_gt_video_first_frame p = Some frame0
    ∧ p_gt_mask_first_frame p = Some mask0
    ∧ head (pa_masks (p_call p)) = Some (Np.zeros_like mask0)
    ∧ Forall (Forall (λ px, px = (0, 0, 0))) (Np.zeros_like mask0)
    ∧ restore_first_frame p = Ok (video, masks)
    ∧ video = frame0 :: tail (p_video p)
    ∧ masks = mask0 :: tail (pa_masks (p_call p)).
Proof.
  intros Hp Hgt Hmb Hmodel.
  apply prepare_ok in Hp
    as (v1 & mv1 & bm1 & v2 & mv2 & bm2 & gtv & v3 & mv3 & bm3 & n & d'
        & bm4 & gtm & image & Hread & Hsub & Hres & Hpol & Himage & Hv & _ & Hbm
        & _ & _ & Hgtv & Hgtm & _ & _ & Hmasks & _).
  rewrite Hmb in Hread.
  apply policy_binds in Hpol. rewrite Hgt, Hmb in Hpol.
  destruct Hpol as (m0 & Hm0 & -> & ->).
  apply substitution_binds in Hsub. rewrite Hmodel in Hsub.
  destruct Hsub as (f0 & still & Hf0 & -> & -> & ->).
  assert (∃ x rest, v3 = x :: rest) as (x & rest & ->).
  { apply loader_length_le in Hread as Hle.
    apply resample_length_le in Hres.
    - destruct mv3; [done|]. destruct v3; [simpl in Hres; lia|]. by eauto.
    - destruct v1, mv1; simpl in *; lia. }
  exists v1, mv1, bm1, m0, f0. do 2 eexists.
  split; [exact Hread|]. split; [exact Hf0|]. split; [exact Hgtv|].
  split; [exact Hgtm|]. split; [by rewrite Hmasks|]. split.
  { apply Forall_fmap, Forall_forall. intros row _.
    apply Forall_fmap, Forall_forall. by intros px _. }
  unfold restore_first_frame. rewrite Hgtm, Hgtv, Hbm, Hv, Hmasks. simpl.
  done.
Qed.

(** The override and the restoration on three frames and three masks with
    an image-inpainting model: the exported comparison video shows the
    loaded frame 0 and its mask again. *)
Lemma first_frame_round_trip_on_three_frames :
  (∃ p video masks,
      prepare (Demo.in_order 3 3) Demo.still (Demo.args 2 0 true false (Some "flux")) = Ok p
      ∧ head (pa_masks (p_call p)) = Some [[(0, 0, 0); (0, 0, 0)]]
      ∧ restore_first_frame p = Ok (video, masks)
      ∧ head video = Some (Demo.frame 0)
      ∧ head masks = Some [[(255, 255, 255); (0, 0, 0)]])
  ∧ generate_video (Demo.in_order 3 3) Demo.still Demo.pipeline
      (Demo.args 2 0 true false (Some "flux"))
    = Ok {| export_frames :=
              [[[(0, 10, 20); (100, 110, 120); (0, 0, 0); (100, 110, 120);
                 (255, 255, 255); (0, 0, 0); (7, 7, 7); (7, 7, 7)]];
               [[(1, 11, 21); (101, 111, 121); (0, 0, 0); (0, 0, 0);
                 (255, 255, 255); (255, 255, 255); (7, 7, 7); (7, 7, 7)]]];
            export_path := "./output_fps8.mp4";
            export_fps := 8 |}.
Proof.
  split; [|reflexivity].
  destruct (first_frame_is_overridden_then_restored
              (Demo.in_order 3 3) Demo.still
              (Demo.args 2 0 true false (Some "flux")) _ eq_refl eq_refl eq_refl eq_refl)
    as (loaded & ml & bl & mask0 & frame0 & video & masks
        & Hread & Hf0 & _ & Hm0 & Hhead & _ & Hrestore & -> & ->).
  injection Hread as <- _ _. injection Hf0 as <-. injection Hm0 as <-.
  do 3 eexists. split; [reflexivity|].
  split; [exact Hhead|]. split; [exact Hrestore|]. done.
Defined.

(** ** More on the resampler *)

(** Taking every [k]-th element of [n] leaves the ceiling of [n / k]. *)
Lemma length_every {A} k c (l : list A) :
  (1 ≤ k)%nat →
  length (PyList.every k c l) = ((length l - c + (k - 1)) / k)%nat.
Proof.
  intros Hk. revert c. induction l as [|x l IH]; intros c; simpl.
  - symmetry. apply Nat.div_small. lia.
  - destruct c as [|c]; simpl; [|apply IH].
    rewrite IH.
    destruct (decide (k - 1 ≤ length l)%nat).
    + replace (length l - (k - 1) + (k - 1))%nat with (length l) by lia.
      replace (S (length l + (k - 1)))%nat with (length l + 1 * k)%nat by lia.
      rewrite Nat.div_add by lia. lia.
    + replace (length l - (k - 1) + (k - 1))%nat with (k - 1)%nat by lia.
      rewrite (Nat.div_small (k - 1) k) by lia.
      apply (Nat.div_unique _ _ 1%nat (length l + (k - 1) + 1 - k)%nat); lia.
Qed.

(** In long-video mode a clip of [n] frames resampled at stride [k] has the
    ceiling of [n / k] frames, in each of the three sequences. *)
Theorem long_video_resampled_lengths {A : Type} (fps d : Z) (frames : option Z)
    (v mv bm v' mv' bm' : list A) (n d' : Z) :
  0 < d → d ≤ fps →
  resample fps d true frames v mv bm = Ok (v', mv', bm', n, d') →
  let k := Z.to_nat (fps `div` d) in
  length v' = ((length v + (k - 1)) / k)%nat
  ∧ length mv' = ((length mv + (k - 1)) / k)%nat
  ∧ length bm' = ((length bm + (k - 1)) / k)%nat
  ∧ n ≤ Z.of_nat (length v').
Proof.
  intros Hd Hle Hres k.
  assert (1 ≤ fps `div` d) as Hk by (apply Z.div_le_lower_bound; lia).
  apply resample_ok in Hres
    as (step & sv & smv & sbm & -> & Hstep & Hv & Hmv & Hbm & _ & Hn & -> & -> & ->).
  replace (d =? 0) with false in Hstep by lia.
  unfold resample_step in Hstep. replace (d =? 0) with false in Hstep by lia.
  injection Hstep as <-.
  apply slice_step_ok in Hv as [_ ->], Hmv as [_ ->], Hbm as [_ ->].
  replace (0 <? fps `div` d) with true by lia. fold k.
  rewrite !length_every by lia.
  replace (0 <? fps `div` d) with true in Hn by lia. fold k in Hn.
  rewrite length_every in Hn by lia.
  rewrite !Nat.sub_0_r in *. repeat split; lia.
Qed.

(** Sixteen frames at stride 3 in long-video mode: six frames. *)
Lemma long_video_sixteen_frames :
  ∃ v' mv' bm',
    resample 24 8 true (Some 4) (seq 0 16) (seq 100 16) (seq 200 16)
    = Ok (v', mv', bm', 4, 8)
    ∧ length v' = 6%nat ∧ length mv' = 6%nat ∧ length bm' = 6%nat.
Proof.
  do 3 eexists. split; [reflexivity|].
  destruct (long_video_resampled_lengths 24 8 (Some 4)
              (seq 0 16) (seq 100 16) (seq 200 16) _ _ _ 4 8
              eq_refl ltac:(done) eq_refl) as (Hv & Hmv & Hbm & _).
  split; [exact Hv|]. split; [exact Hmv | exact Hbm].
Defined.

(** Outside long-video mode, a successful resampling with a non-negative
    [frames] returns exactly [frames] frames; the masked frames and the
    binary masks are as many when the source had as many of them as
    frames. *)
Lemma truncated_clip_has_exactly_frames {A : Type} (fps d : Z)
    (frames : option Z) (v mv bm v' mv' bm' : list A) (n d' : Z) :
  resample fps d false frames v mv bm = Ok (v', mv', bm', n, d') →
  0 ≤ n →
  length v' = Z.to_nat n
  ∧ (length mv = length v → length mv' = Z.to_nat n)
  ∧ (length bm = length v → length bm' = Z.to_nat n).
Proof.
  intros Hres Hn.
  apply resample_ok in Hres
    as (step & sv & smv & sbm & _ & _ & Hv & Hmv & Hbm & -> & Hlen & -> & -> & ->).
  rewrite !length_slice_to_nonneg in * by done.
  split; [lia|]. split; intros Heq.
  - assert (length smv = length sv)
      by (apply Nat.le_antisymm; eapply slice_step_length_le; eauto; lia).
    lia.
  - assert (length sbm = length sv)
      by (apply Nat.le_antisymm; eapply slice_step_length_le; eauto; lia).
    lia.
Qed.

(** Four frames out of sixteen at stride 3. *)
Lemma truncated_clip_of_four :
  ∃ v' mv' bm' : list nat,
    resample 24 8 false (Some 4) (seq 0 16) (seq 100 16) (seq 200 16)
    = Ok (v', mv', bm', 4, 8)
    ∧ length v' = 4%nat ∧ length mv' = 4%nat ∧ length bm' = 4%nat.
Proof.
  do 3 eexists. split; [reflexivity|].
  destruct (truncated_clip_has_exactly_frames 24 8 (Some 4)
              (seq 0 16) (seq 100 16) (seq 200 16) _ _ _ 4 8
              eq_refl ltac:(done)) as (Hv & Hmv & Hbm).
  split; [exact Hv|]. split; [exact (Hmv eq_refl) | exact (Hbm eq_refl)].
Defined.

(** When [down_sample_fps] is 0 or equals the source rate, the stride is 1:
    in long-video mode the clip goes through unchanged and the effective
    rate is the source rate.  With a source rate of 0 and [down_sample_fps]
    0 the division by zero is raised. *)
Theorem resample_at_source_rate {A : Type} (fps d n : Z) (long : bool)
    (frames : option Z) (v mv bm : list A) :
  (fps ≠ 0 → d = 0 ∨ d = fps → n ≤ Z.of_nat (length v) →
   resample fps d true (Some n) v mv bm = Ok (v, mv, bm, n, fps))
  ∧ resample 0 0 long frames v mv bm = Raise ZeroDivisionError.
Proof.
  split; [|done].
  intros Hfps Hd Hn. unfold resample.
  assert ((if d =? 0 then fps else d) = fps) as ->
    by (destruct Hd as [-> | ->]; [done | by destruct (fps =? 0)]).
  unfold resample_step. replace (fps =? 0) with false by lia.
  rewrite Z.div_same by done. simpl.
  rewrite !every_one. simpl.
  by replace (Z.of_nat (length v) <? n) with false by lia.
Qed.

(** ** More on the comparison compositor *)

Lemma mapM_ext {A B} (f g : A → result B) l :
  (∀ x, x ∈ l → f x = g x) → mapM f l = mapM g l.
Proof.
  induction l as [|x l IH]; intros Hfg; simpl; [done|].
  rewrite (Hfg x) by left. rewrite IH; [done|].
  intros y Hy. apply Hfg. by right.
Qed.

Lemma mapM_map {A B C} (f : B → result C) (h : A → B) l :
  mapM f (map h l) = mapM (λ x, f (h x)) l.
Proof. induction l as [|x l IH]; simpl; [done|]. by rewrite IH. Qed.

(** The first failure of the body is the failure of the whole loop. *)
Lemma mapM_raise {A B} (f : A → result B) l x :
  x ∈ l → (∃ e, f x = Raise e) →
  ∃ y e, y ∈ l ∧ f y = Raise e ∧ mapM f l = Raise e.
Proof.
  induction l as [|z l IH]; intros Hx Hfx; [by apply elem_of_nil in Hx|].
  simpl. destruct (f z) as [b|e] eqn:Hz.
  - apply elem_of_cons in Hx as [->|Hx].
    + destruct Hfx as [e He]. congruence.
    + destruct (IH Hx Hfx) as (y & e & Hy & Hfy & Hm).
      exists y, e. split; [by right|]. split; [done|]. simpl. by rewrite Hm.
  - exists z, e. split; [left|]. by split.
Qed.

(** A successful composition has as many frames as the first sequence, and
    no other sequence was shorter than the first. *)
Theorem composition_follows_the_first_sequence {P : Type}
    (first_seq : list (list (list P))) (rest : list (list (list (list P))))
    (output_type : string) (out : list (list (list P))) :
  concatenate_images_horizontally (first_seq :: rest) output_type = Ok out →
  length out = length first_seq
  ∧ Forall (λ item, (length first_seq ≤ length item)%nat) rest.
Proof.
  unfold concatenate_images_horizontally. simpl. intros Hout.
  split; [apply mapM_ok_length in Hout; by rewrite length_seq in Hout|].
  apply mapM_ok_Forall2 in Hout.
  apply Forall_forall. intros item Hitem.
  destruct (decide (length first_seq ≤ length item)%nat) as [|Hlt]; [done|].
  exfalso.
  destruct (Forall2_lookup_l _ _ _ (length item) (length item) Hout)
    as (img & _ & Hbody); [apply lookup_seq_lt; lia|].
  inv_bind Hbody. clear Hbody.
  simpl in Hm. inv_bind Hm. inv_bind Hm. clear Hm.
  apply mapM_ok_Forall2 in Hm1.
  apply list_elem_of_lookup in Hitem as [j Hj].
  destruct (Forall2_lookup_l _ _ _ _ _ Hm1 Hj) as (y & _ & Hy).
  by rewrite (lookup_ge_None_2 item (length item)) in Hy by lia.
Qed.

(** Two frames beside three: the third frame of the longer sequence is not
    looked at. *)
Lemma composition_of_two_and_three :
  ∃ out,
    concatenate_images_horizontally
      [[ [[1]]; [[2]] ]; [ [[3]]; [[4]]; [[5]] ]] "np" = Ok out
    ∧ length out = 2%nat
    ∧ Forall (λ item : list (list (list Z)), (2 ≤ length item)%nat)
        [[ [[3]]; [[4]]; [[5]] ]].
Proof.
  eexists. split; [reflexivity|].
  apply (composition_follows_the_first_sequence
           [ [[1]]; [[2]] ] [[ [[3]]; [[4]]; [[5]] ]] "np").
  reflexivity.
Defined.

Lemma index_all_take {P} n i (l : list (list (list (list P)))) :
  (i < n)%nat →
  mapM (λ item : list (list (list P)),
          match item !! i with
          | Some img => Ok img
          | None => Raise (IndexError "index out of bounds")
          end) (map (take n) l)
  = mapM (λ item : list (list (list P)),
            match item !! i with
            | Some img => Ok img
            | None => Raise (IndexError "index out of bounds")
            end) l.
Proof.
  intros Hi. rewrite mapM_map. apply mapM_ext. intros item _.
  by rewrite lookup_take_lt.
Qed.

(** Frames of the other sequences beyond the length of the first one have
    no influence on the result, be it a value or an error. *)
Theorem composition_ignores_trailing_frames {P : Type}
    (first_seq : list (list (list P))) (rest : list (list (list (list P))))
    (output_type : string) :
  concatenate_images_horizontally (first_seq :: rest) output_type
  = concatenate_images_horizontally
      (first_seq :: map (take (length first_seq)) rest) output_type.
Proof.
  unfold concatenate_images_horizontally. simpl.
  apply mapM_ext. intros i Hi%elem_of_seq.
  by rewrite index_all_take by lia.
Qed.

(** The output type is examined once per frame and after the arrays were
    joined: with a type other than "pil" and "np" the function returns only
    for an empty first sequence, and then the empty list. *)
Theorem unknown_output_type_returns_only_on_empty_input {P : Type}
    (first_seq : list (list (list P))) (rest : list (list (list (list P))))
    (output_type : string) (out : list (list (list P))) :
  output_type ≠ "pil" → output_type ≠ "np" →
  concatenate_images_horizontally (first_seq :: rest) output_type = Ok out
  ↔ first_seq = [] ∧ out = [].
Proof.
  intros Hpil%String.eqb_neq Hnp%String.eqb_neq.
  unfold concatenate_images_horizontally. simpl. split.
  - destruct first_seq as [|img first_seq]; simpl; [by intros [= <-]|].
    rewrite Hpil, Hnp. intros Hout. exfalso.
    inv_bind Hout. clear Hout. inv_bind Hm. by inv_bind Hm.
  - by intros [-> ->].
Qed.

Lemma unknown_output_type_on_no_frames :
  concatenate_images_horizontally (P := Z) [[]; [ [[1]] ]] "gif" = Ok [].
Proof.
  apply (unknown_output_type_returns_only_on_empty_input [] [[ [[1]] ]] "gif" []);
    [done|done|done].
Defined.

(** ** What the loaders compute for a pixel *)

Lemma pixel_at_zip_with {A B C} (f : A → B → C) (a : list (list A))
    (b : list (list B)) r c x y :
  pixel_at a r c = Some x → pixel_at b r c = Some y →
  pixel_at (zip_with (zip_with f) a b) r c = Some (f x y).
Proof.
  unfold pixel_at. intros Ha Hb. rewrite lookup_zip_with.
  destruct (a !! r) as [ra|]; [|done]. destruct (b !! r) as [rb|]; [|done].
  simpl in *. by rewrite lookup_zip_with, Ha, Hb.
Qed.

Lemma pixel_at_map {A B} (f : A → B) (a : list (list A)) r c :
  pixel_at (map (map f) a) r c = f <$> pixel_at a r c.
Proof.
  unfold pixel_at. rewrite list_lookup_fmap.
  destruct (a !! r) as [ra|]; [|done]. simpl. by rewrite list_lookup_fmap.
Qed.

(** The two images of one frame, pixel by pixel. *)
Lemma mask_one_frame_pixels mb h w (frame : rgb) (binary_mask : list (list bool))
    masked_frame binary_image r c p b :
  has_shape h w frame → has_shape h w binary_mask →
  mask_one_frame mb frame binary_mask = Ok (masked_frame, binary_image) →
  pixel_at frame r c = Some p → pixel_at binary_mask r c = Some b →
  pixel_at masked_frame r c = Some (if b then (0, 0, 0) else p)
  ∧ pixel_at binary_image r c
    = Some (let v := if xorb b mb then 255 else 0 in (v, v, v)).
Proof.
  intros Hf Hm Hone Hp Hb. revert Hone.
  unfold mask_one_frame, Np.where3.
  assert (has_shape h w (Np.zeros_like frame)) as Hz by by apply has_shape_map.
  destruct (broadcast_raster Np.shape_error (λ (b : bool) (p : Z * Z * Z), (b, p))
              h w _ _ Hm Hz) as [-> Hcx].
  simpl.
  destruct (broadcast_raster Np.shape_error
              (λ (bp : bool * (Z * Z * Z)) q, if bp.1 then bp.2 else q)
              h w _ _ Hcx Hf) as [-> _].
  simpl. intros [= <- <-]. split.
  - assert (pixel_at (Np.zeros_like frame) r c = Some (0, 0, 0)) as Hzero
      by (unfold Np.zeros_like; by rewrite pixel_at_map, Hp).
    rewrite (pixel_at_zip_with _ _ _ r c (b, (0, 0, 0)) p); [done| |done].
    by apply pixel_at_zip_with.
  - unfold Np.gray_to_rgb.
    destruct mb; unfold Np.where_scalar; rewrite !pixel_at_map, Hb; by destruct b.
Qed.

Lemma mask_frames_lookup {M} (binarize : M → list (list bool)) mb
    (video : list rgb) (masks : list M) mv bm i frame mask :
  mask_frames binarize mb video masks = Ok (mv, bm) →
  video !! i = Some frame → masks !! i = Some mask →
  ∃ mf bi, mask_one_frame mb frame (binarize mask) = Ok (mf, bi)
           ∧ mv !! i = Some mf ∧ bm !! i = Some bi.
Proof.
  unfold mask_frames. intros H Hf Hm. inv_bind H. injection H as <- <-.
  apply mapM_ok_Forall2 in Hm0.
  destruct (Forall2_lookup_l _ _ _ i (frame, mask) Hm0) as ([mf bi] & Hi & Hone).
  { rewrite lookup_zip_with, Hf. simpl. by rewrite Hm. }
  exists mf, bi. split; [done|].
  by rewrite !list_lookup_fmap, Hi.
Qed.

(** A pixel of a masked frame of the directory loader is black where the
    mask file holds exactly 255 and the frame's pixel elsewhere (a mask
    value such as 254 or 1 selects nothing); the binary mask holds 255
    there and 0 elsewhere, the other way round with [mask_background]. *)
Theorem directory_loader_pixels (st : Storage) (vp mp : string) (s e : Z)
    (mb : bool) (fps fps' : Z) (video video' : list rgb) (masks : list gray)
    (mv bm : list rgb) (i h w r c : nat) (frame : rgb) (mask : gray)
    (p : Z * Z * Z) (v : Z) :
  load_frames_and_masks st vp mp = Ok (video, masks) →
  read_video_with_mask_from_frame st vp mp s e mb fps = Ok (video', mv, bm, fps') →
  video !! i = Some frame → masks !! i = Some mask →
  has_shape h w frame → has_shape h w mask →
  pixel_at frame r c = Some p → pixel_at mask r c = Some v →
  (mv !! i ≫= λ f, pixel_at f r c)
  = Some (if bool_decide (v = 255) then (0, 0, 0) else p)
  ∧ (bm !! i ≫= λ f, pixel_at f r c)
    = Some (let x := if xorb (bool_decide (v = 255)) mb then 255 else 0 in (x, x, x)).
Proof.
  unfold read_video_with_mask_from_frame.
  intros -> H Hf Hm Hsf Hsm Hp Hv. simpl in H.
  inv_bind H. destruct a as [mv' bm']. injection H as _ <- <- _.
  destruct (mask_frames_lookup _ _ _ _ _ _ _ _ _ Hm0 Hf Hm)
    as (mf & bi & Hone & Hmf & Hbi).
  unfold rgb in *. rewrite Hmf, Hbi. simpl.
  apply (mask_one_frame_pixels mb h w frame (Np.eq_scalar mask 255) mf bi r c p);
    [done|by apply has_shape_eq_scalar|done|done|].
  unfold Np.eq_scalar. by rewrite pixel_at_map, Hv.
Qed.

(** The video-file loader does the same with the label [mask_id] in place
    of 255, on the frames and label maps left by the skip bounds. *)
Theorem video_file_loader_pixels (st : Storage) (path : string)
    (labels : list gray) (mask_id s e : Z) (mb : bool) (fps fps' : Z)
    (loaded video' mv bm : list rgb) (i h w r c : nat) (frame : rgb) (label : gray)
    (p : Z * Z * Z) (v : Z) :
  load_video st path = Ok loaded →
  read_video_with_mask st path labels mask_id s e mb fps = Ok (video', mv, bm, fps') →
  PyList.slice loaded s e !! i = Some frame →
  PyList.slice labels s e !! i = Some label →
  has_shape h w frame → has_shape h w label →
  pixel_at frame r c = Some p → pixel_at label r c = Some v →
  (mv !! i ≫= λ f, pixel_at f r c)
  = Some (if bool_decide (v = mask_id) then (0, 0, 0) else p)
  ∧ (bm !! i ≫= λ f, pixel_at f r c)
    = Some (let x := if xorb (bool_decide (v = mask_id)) mb then 255 else 0 in (x, x, x)).
Proof.
  unfold read_video_with_mask.
  intros -> H Hf Hm Hsf Hsm Hp Hv. simpl in H.
  inv_bind H. destruct a as [mv' bm']. injection H as _ <- <- _.
  destruct (mask_frames_lookup _ _ _ _ _ _ _ _ _ Hm0 Hf Hm)
    as (mf & bi & Hone & Hmf & Hbi).
  unfold rgb in *. rewrite Hmf, Hbi. simpl.
  apply (mask_one_frame_pixels mb h w frame (Np.eq_scalar label mask_id) mf bi r c p);
    [done|by apply has_shape_eq_scalar|done|done|].
  unfold Np.eq_scalar. by rewrite pixel_at_map, Hv.
Qed.

(** Frame 0 of two [Demo] frames: the left pixel is selected by its mask,
    the right one is not. *)
Lemma directory_loader_pixels_of_frame_0 :
  ∃ mv bm,
    read_video_with_mask_from_frame (Demo.in_order 2 2)
      Demo.images_dir Demo.masks_dir 0 (-1) false 8
    = Ok (map Demo.frame (seq 0 2), mv, bm, 8)
    ∧ ((mv !! 0%nat ≫= λ f, pixel_at f 0 0) = Some (0, 0, 0)
       ∧ (bm !! 0%nat ≫= λ f, pixel_at f 0 0) = Some (255, 255, 255))
    ∧ ((mv !! 0%nat ≫= λ f, pixel_at f 0 1) = Some (100, 110, 120)
       ∧ (bm !! 0%nat ≫= λ f, pixel_at f 0 1) = Some (0, 0, 0)).
Proof.
  do 2 eexists. split; [vm_compute; reflexivity|]. split.
  - refine (directory_loader_pixels (Demo.in_order 2 2)
             Demo.images_dir Demo.masks_dir 0 (-1) false 8 8
             (map Demo.frame (seq 0 2)) (map Demo.frame (seq 0 2))
             (map Demo.seg (seq 0 2)) _ _ 0 1 2 0 0
             (Demo.frame 0) (Demo.seg 0) (0, 10, 20) 255
             eq_refl eq_refl eq_refl eq_refl _ _ eq_refl eq_refl);
      (split; [reflexivity | by repeat constructor]).
  - refine (directory_loader_pixels (Demo.in_order 2 2)
             Demo.images_dir Demo.masks_dir 0 (-1) false 8 8
             (map Demo.frame (seq 0 2)) (map Demo.frame (seq 0 2))
             (map Demo.seg (seq 0 2)) _ _ 0 1 2 0 1
             (Demo.frame 0) (Demo.seg 0) (100, 110, 120) 0
             eq_refl eq_refl eq_refl eq_refl _ _ eq_refl eq_refl);
      (split; [reflexivity | by repeat constructor]).
Defined.

(** The clip "clip.mp4" of four [Demo] frames with label maps that hold the
    label 3 on the left pixel, between the bounds 1 and -1, with
    [mask_background]. *)
Lemma video_file_loader_pixels_of_label_3 :
  ∃ mv bm,
    read_video_with_mask (Demo.in_order 4 0) "clip.mp4"
      (replicate 4 [[3; 5]]) 3 1 (-1) true 0
    = Ok (map Demo.frame [1; 2]%nat, mv, bm, 24)
    ∧ (mv !! 0%nat ≫= λ f, pixel_at f 0 0) = Some (0, 0, 0)
    ∧ (bm !! 0%nat ≫= λ f, pixel_at f 0 0) = Some (0, 0, 0).
Proof.
  do 2 eexists. split; [vm_compute; reflexivity|].
  refine (video_file_loader_pixels (Demo.in_order 4 0) "clip.mp4"
           (replicate 4 [[3; 5]]) 3 1 (-1) true 0 24
           (map Demo.frame (seq 0 4)) (map Demo.frame [1; 2]%nat) _ _ 0 1 2 0 0
           (Demo.frame 1) [[3; 5]] (1, 11, 21) 3
           eq_refl eq_refl eq_refl eq_refl _ _ eq_refl eq_refl);
    (split; [reflexivity | by repeat constructor]).
Defined.

(** ** Polarity of the binary masks *)

Lemma mapM_related {A B} (f g : A → result B) (h : B → B) l :
  (∀ x, match f x with
        | Ok y => g x = Ok (h y)
        | Raise e => g x = Raise e
        end) →
  match mapM f l with
  | Ok k => mapM g l = Ok (map h k)
  | Raise e => mapM g l = Raise e
  end.
Proof.
  intros Hfg. induction l as [|x l IH]; simpl; [done|].
  specialize (Hfg x). destruct (f x) as [y|e]; rewrite Hfg; simpl; [|done].
  destruct (mapM f l) as [k|e]; rewrite IH; done.
Qed.

Lemma mask_frames_polarity {M} (binarize : M → list (list bool)) mb
    (video : list rgb) (masks : list M) :
  match mask_frames binarize mb video masks with
  | Ok (mv, bm) =>
      mask_frames binarize (negb mb) video masks
      = Ok (mv, map (map (map (λ p : Z * Z * Z,
                                 (255 - p.1.1, 255 - p.1.2, 255 - p.2)))) bm)
  | Raise e => mask_frames binarize (negb mb) video masks = Raise e
  end.
Proof.
  unfold mask_frames.
  set (inv := λ p : Z * Z * Z, (255 - p.1.1, 255 - p.1.2, 255 - p.2)).
  pose proof (mapM_related
    (λ fm : rgb * M, mask_one_frame mb fm.1 (binarize fm.2))
    (λ fm : rgb * M, mask_one_frame (negb mb) fm.1 (binarize fm.2))
    (λ q : rgb * rgb, (q.1, map (map inv) q.2)) (zip video masks)) as Hrel.
  destruct (mapM (λ fm : rgb * M, mask_one_frame mb fm.1 (binarize fm.2))
              (zip video masks)) as [pairs|e].
  - simpl. rewrite Hrel; simpl.
    + f_equal. f_equal.
      * rewrite <- list_fmap_compose. by apply list_fmap_ext.
      * rewrite <- !list_fmap_compose. by apply list_fmap_ext.
    + intros [f m]. simpl. unfold mask_one_frame.
      destruct (Np.where3 _ _ f) as [mf|e]; simpl; [|done].
      do 2 f_equal. unfold Np.gray_to_rgb, Np.where_scalar.
      destruct mb; simpl; rewrite <- !list_fmap_compose;
        apply list_fmap_ext; intros _ row _; simpl;
        rewrite <- !list_fmap_compose; apply list_fmap_ext; by intros _ [] _.
  - simpl. rewrite Hrel; [done|].
    intros [f m]. simpl. unfold mask_one_frame.
    destruct (Np.where3 _ _ f) as [mf|e']; simpl; [|done].
    do 2 f_equal. unfold Np.gray_to_rgb, Np.where_scalar.
    destruct mb; simpl; rewrite <- !list_fmap_compose;
      apply list_fmap_ext; intros _ row _; simpl;
      rewrite <- !list_fmap_compose; apply list_fmap_ext; by intros _ [] _.
Qed.

(** [mask_background] decides nothing but the polarity of the binary masks:
    with the flag flipped either loader returns the same frames, the same
    masked frames and the same rate, and every channel [x] of every binary
    mask becomes [255 - x]; if it raises, it raises the same error. *)
Theorem mask_background_only_inverts_binary_masks (st : Storage)
    (vp mp path : string) (labels : list gray) (mask_id s e : Z)
    (mb : bool) (fps : Z) :
  let invert :=
    map (map (map (λ p : Z * Z * Z, (255 - p.1.1, 255 - p.1.2, 255 - p.2)))) in
  match read_video_with_mask_from_frame st vp mp s e mb fps with
  | Ok (v, mv, bm, f) =>
      read_video_with_mask_from_frame st vp mp s e (negb mb) fps
      = Ok (v, mv, invert bm, f)
  | Raise err =>
      read_video_with_mask_from_frame st vp mp s e (negb mb) fps = Raise err
  end
  ∧ match read_video_with_mask st path labels mask_id s e mb fps with
    | Ok (v, mv, bm, f) =>
        read_video_with_mask st path labels mask_id s e (negb mb) fps
        = Ok (v, mv, invert bm, f)
    | Raise err =>
        read_video_with_mask st path labels mask_id s e (negb mb) fps = Raise err
    end.
Proof.
  intros invert. split.
  - unfold read_video_with_mask_from_frame.
    destruct (load_frames_and_masks st vp mp) as [[video masks]|err]; simpl; [|done].
    pose proof (mask_frames_polarity (λ mask, Np.eq_scalar mask 255) mb video masks)
      as Hpol.
    destruct (mask_frames _ mb video masks) as [[mv bm]|err]; simpl;
      by rewrite Hpol.
  - unfold read_video_with_mask.
    destruct (load_video st path) as [loaded|err]; simpl; [|done].
    pose proof (mask_frames_polarity
                  (λ frame_mask, Np.eq_scalar frame_mask mask_id) mb
                  (PyList.slice loaded s e) (PyList.slice labels s e)) as Hpol.
    destruct (mask_frames _ mb (PyList.slice loaded s e) _) as [[mv bm]|err];
      simpl; by rewrite Hpol.
Qed.

(** ** The first-frame policy and the loader *)

Lemma zip_with_keeps_right {A B} (f : A → B → B) (la : list A) (lb : list B) :
  length la = length lb →
  (∀ i a b, la !! i = Some a → lb !! i = Some b → f a b = b) →
  zip_with f la lb = lb.
Proof.
  revert lb. induction la as [|a la IH]; intros [|b lb] Hlen Hf; simpl in *;
    try done.
  rewrite (Hf 0%nat a b) by done. f_equal.
  apply IH; [lia|]. intros i. apply (Hf (S i)).
Qed.

(** Where the selection is empty the masked frame is the frame. *)
Lemma where3_nothing_selected h w (c : list (list bool)) (x frame : rgb) :
  has_shape h w c → has_shape h w x → has_shape h w frame →
  Forall (Forall (λ b, b = false)) c →
  Np.where3 c x frame = Ok frame.
Proof.
  intros Hc Hx Hf Hfalse. unfold Np.where3. unfold rgb in *.
  destruct (broadcast_raster Np.shape_error (λ (b : bool) (p : Z * Z * Z), (b, p))
              h w _ _ Hc Hx) as [-> Hcx].
  simpl.
  destruct (broadcast_raster Np.shape_error
              (λ (bp : bool * (Z * Z * Z)) q, if bp.1 then bp.2 else q)
              h w _ _ Hcx Hf) as [-> _].
  f_equal. destruct Hcx as [Hcxh Hcxw], Hf as [Hfh Hfw], Hc as [Hch Hcw].
  apply zip_with_keeps_right; [lia|].
  intros r rcx rf Hrcx Hrf.
  apply zip_with_keeps_right.
  - pose proof (Forall_lookup_1 _ _ _ _ Hcxw Hrcx) as Hw1.
    pose proof (Forall_lookup_1 _ _ _ _ Hfw Hrf) as Hw2.
    simpl in Hw1, Hw2. congruence.
  - intros k [b q] p Hbq _. simpl.
    rewrite lookup_zip_with in Hrcx.
    destruct (c !! r) as [rc|] eqn:Hrc; simpl in Hrcx; [|congruence].
    destruct (x !! r) as [rx|]; simpl in Hrcx; [|congruence].
    injection Hrcx as <-.
    rewrite lookup_zip_with in Hbq.
    destruct (rc !! k) as [b'|] eqn:Hb'; simpl in Hbq; [|congruence].
    destruct (rx !! k); simpl in Hbq; [|congruence]. injection Hbq as <- <-.
    rewrite (Forall_lookup_1 _ _ _ _ (Forall_lookup_1 _ _ _ _ Hfalse Hrc) Hb').
    done.
Qed.

(** With [first_frame_gt] the mask put at index 0 is the binary mask that
    the loaders render, in the polarity of [mask_background], for a frame
    of that size in which nothing is selected (and such a frame is left as
    it is by the masking); the other masks are not touched and the mask
    that was at index 0 is the one saved. *)
Theorem first_frame_gt_mask_selects_nothing (mb : bool) (bm bm' : list rgb)
    (gtm : option rgb) :
  first_frame_policy true mb bm = Ok (bm', gtm) →
  ∃ m0 override,
    head bm = Some m0 ∧ gtm = Some m0
    ∧ bm' = override :: tail bm
    ∧ ∀ (h w : nat) (frame : rgb),
        has_shape h w m0 → has_shape h w frame →
        mask_one_frame mb frame (map (map (λ _, false)) m0)
        = Ok (frame, override).
Proof.
  intros (m0 & Hhead & -> & ->)%policy_binds.
  exists m0. eexists. split; [done|]. split; [done|]. split; [done|].
  intros h w frame Hm0 Hframe. unfold mask_one_frame.
  rewrite (where3_nothing_selected h w).
  - simpl. do 2 f_equal.
    unfold Np.gray_to_rgb, Np.where_scalar, Np.ones_like_255, Np.zeros_like.
    destruct mb; rewrite <- !list_fmap_compose; apply list_fmap_ext;
      intros _ row _; simpl; by rewrite <- !list_fmap_compose.
  - by apply has_shape_map.
  - by apply has_shape_map.
  - done.
  - apply Forall_fmap, Forall_forall. intros row _.
    apply Forall_fmap, Forall_forall. by intros px _.
Qed.

(** Two masks of one row of two pixels, with [mask_background]. *)
Lemma first_frame_gt_on_two_masks :
  ∃ m0 override,
    head [[[(0, 0, 0); (255, 255, 255)]]; [[(255, 255, 255); (0, 0, 0)]]] = Some m0
    ∧ Some [[(0, 0, 0); (255, 255, 255)]] = Some m0
    ∧ [[[(255, 255, 255); (255, 255, 255)]]; [[(255, 255, 255); (0, 0, 0)]]]
      = override :: tail [[[(0, 0, 0); (255, 255, 255)]]; [[(255, 255, 255); (0, 0, 0)]]]
    ∧ ∀ (h w : nat) (frame : rgb),
        has_shape h w m0 → has_shape h w frame →
        mask_one_frame true frame (map (map (λ _, false)) m0)
        = Ok (frame, override).
Proof.
  exact (first_frame_gt_mask_selects_nothing true
           [[[(0, 0, 0); (255, 255, 255)]]; [[(255, 255, 255); (0, 0, 0)]]]
           _ _ eq_refl).
Defined.

(** ** The default bounds of the video-file loader *)

(** With [skip_frames_start] 0 and a negative [skip_frames_end] (the
    default is -1) the video-file loader leaves out that many frames at the
    end of the video: by default the last frame is never returned.  The
    rate is read from the file only when the caller passes 0. *)
Theorem video_file_loader_drops_trailing_frames (st : Storage) (path : string)
    (labels : list gray) (mask_id e : Z) (mb : bool) (fps f : Z)
    (loaded v mv bm : list rgb) :
  load_video st path = Ok loaded →
  e < 0 →
  read_video_with_mask st path labels mask_id 0 e mb fps = Ok (v, mv, bm, f) →
  v = take (length loaded - Z.to_nat (- e)) loaded
  ∧ (length mv ≤ length loaded - Z.to_nat (- e))%nat
  ∧ f = (if fps =? 0 then capture_fps st path else fps).
Proof.
  unfold read_video_with_mask. intros -> He H. simpl in H.
  inv_bind H. destruct a as [mv' bm']. injection H as <- <- <- <-.
  apply mask_frames_lengths in Hm as [Hmv _].
  assert (PyList.slice loaded 0 e = take (length loaded - Z.to_nat (- e)) loaded)
    as Hslice.
  { unfold PyList.slice, PyList.clamp.
    replace (e <? 0) with true by lia. simpl.
    rewrite Nat.sub_0_r. f_equal. lia. }
  rewrite Hslice in *. split; [done|]. split; [|done].
  rewrite Hmv, length_take. lia.
Qed.

(** Four frames with the default bounds: three are returned. *)
Lemma video_file_loader_with_default_bounds :
  ∃ mv bm,
    read_video_with_mask (Demo.in_order 4 0) "clip.mp4"
      (replicate 4 [[3; 5]]) 3 0 (-1) false 0
    = Ok (map Demo.frame (seq 0 3), mv, bm, 24)
    ∧ map Demo.frame (seq 0 3) = take (4 - Z.to_nat (- -1)) (map Demo.frame (seq 0 4))
    ∧ (length mv ≤ 4 - Z.to_nat (- -1))%nat.
Proof.
  do 2 eexists. split; [vm_compute; reflexivity|].
  destruct (video_file_loader_drops_trailing_frames (Demo.in_order 4 0) "clip.mp4"
              (replicate 4 [[3; 5]]) 3 (-1) false 0 24
              (map Demo.frame (seq 0 4)) (map Demo.frame (seq 0 3)) _ _
              eq_refl eq_refl eq_refl) as (Hv & Hmv & _).
  split; [exact Hv | exact Hmv].
Defined.

(** ** Numbers in file names *)

(** A decimal numeral, one constructor at a time. *)
Ltac each_digit d IH :=
  induction d as [|d IH|d IH|d IH|d IH|d IH|d IH|d IH|d IH|d IH|d IH].

(** A byte below 128 is its own code point. *)
Lemma code_points_ascii c s :
  (Unicode.byte c <? 128) = true →
  Unicode.code_points (String c s) = Unicode.byte c :: Unicode.code_points s.
Proof. intros Hc. cbn [Unicode.code_points]. by rewrite Hc. Qed.

(** What [int] reads in a decimal numeral: its digits. *)
Ltac read_digit :=
  cbn [NilEmpty.string_of_uint]; rewrite code_points_ascii by reflexivity;
  cbn [map];
  match goal with
  | |- context [Str.int_char (Unicode.byte ?c)] =>
      let v := eval vm_compute in (Str.int_char (Unicode.byte c)) in
      change (Str.int_char (Unicode.byte c)) with v
  end;
  cbn [Str.digits].

Lemma digits_of_uint_acc d p :
  Str.digits (Z.pos p)
    (map Str.int_char (Unicode.code_points (NilEmpty.string_of_uint d)))
  = (Z.pos (Pos.of_uint_acc d p), []).
Proof.
  revert p. each_digit d IH; intros p; [done|..];
    read_digit; cbn [Pos.of_uint_acc]; rewrite <- IH; f_equal; lia.
Qed.

Lemma digits_of_uint d :
  Str.digits 0
    (map Str.int_char (Unicode.code_points (NilEmpty.string_of_uint d)))
  = (Z.of_N (Pos.of_uint d), []).
Proof.
  each_digit d IH; [done|..]; read_digit;
    [exact IH | apply digits_of_uint_acc..].
Qed.

(** [int] reads back the decimal numeral of a natural number. *)
Lemma int_of_uint d :
  d ≠ Decimal.Nil →
  Str.int (NilEmpty.string_of_uint d) = Ok (Z.of_N (Pos.of_uint d)).
Proof.
  intros Hd. unfold Str.int.
  pose proof (digits_of_uint d) as Hdigits. revert Hdigits.
  destruct d; [done|..]; read_digit; intros Hdigits;
    rewrite Z.mul_0_r, Z.add_0_l in Hdigits;
    cbn [Str.skip_spaces Str.unsigned]; cbv beta iota zeta;
    rewrite Hdigits; reflexivity.
Qed.

Lemma of_Z_nonneg z :
  0 ≤ z →
  ∃ d, d ≠ Decimal.Nil ∧ Str.of_Z z = NilEmpty.string_of_uint d
       ∧ Z.of_N (Pos.of_uint d) = z.
Proof.
  intros Hz. destruct z as [|p|p]; [| |lia].
  - by exists (Decimal.D0 Decimal.Nil).
  - exists (Pos.to_uint p).
    pose proof (Unsigned.to_uint_nonnil p) as Hnil.
    split; [done|]. split; [|by rewrite Unsigned.of_to].
    unfold Str.of_Z. simpl. by destruct (Pos.to_uint p).
Qed.

(** [int(str(n)) == n] for a natural number [n]. *)
Lemma int_of_Z z : 0 ≤ z → Str.int (Str.of_Z z) = Ok z.
Proof.
  intros (d & Hd & -> & <-)%of_Z_nonneg. by apply int_of_uint.
Qed.

Lemma split_uint sep d :
  Unicode.decimal (Unicode.byte sep) = None →
  Str.split sep (NilEmpty.string_of_uint d) = [NilEmpty.string_of_uint d].
Proof.
  intros Hsep.
  each_digit d IH; [done|..]; cbn [NilEmpty.string_of_uint Str.split];
    rewrite IH;
    match goal with
    | |- context [Ascii.eqb ?c sep] =>
        destruct (Ascii.eqb_spec c sep) as [<-|_]; [by vm_compute in Hsep|done]
    end.
Qed.

Lemma split_app_sep sep a b :
  Str.split sep a = [a] →
  Str.split sep (a ++ String sep b)%string = a :: Str.split sep b.
Proof.
  induction a as [|c a IH]; intros Ha.
  - change ("" ++ String sep b)%string with (String sep b). simpl.
    by rewrite Ascii.eqb_refl.
  - change (String c a ++ String sep b)%string
      with (String c (a ++ String sep b)%string).
    simpl in *. destruct (Ascii.eqb c sep); [done|].
    destruct (Str.split sep a) as [|w ws] eqn:Hsplit;
      [by apply split_not_nil in Hsplit|].
    injection Ha as -> ->. by rewrite IH.
Qed.

Lemma split_app_free sep a b :
  Str.split sep a = [a] → Str.split sep b = [b] →
  Str.split sep (a ++ b)%string = [(a ++ b)%string].
Proof.
  intros Ha Hb. destruct (split_app_no_sep sep a b Hb) as (init & w & Hsplit & ->).
  rewrite Ha in Hsplit. destruct init as [|x [|y init]]; [|done..].
  by injection Hsplit as <-.
Qed.

(** The key of a file named [<stem>_<k>.png], for a stem made of one or
    two words without slash or dot that does not start with a dot. *)
Lemma sort_key_numbered_name (stem : string) k :
  Str.split "/" stem = [stem] → Str.split "." stem = [stem] →
  (∀ rest, OsPath.all_dots (stem ++ rest) = false) →
  (∀ rest, Str.split "_" rest = [rest] →
           last (Str.split "_" (stem ++ String "_" rest)) = Some rest) →
  sort_key (stem ++ String "_" (Str.of_Z (Z.of_nat k) ++ ".png"))%string
  = Ok (Z.of_nat k).
Proof.
  intros Hslash Hdot Hdots Hlast.
  destruct (of_Z_nonneg (Z.of_nat k)) as (d & Hd & HofZ & Hval); [lia|].
  pose proof (int_of_Z (Z.of_nat k) ltac:(lia)) as Hint.
  rewrite HofZ in *. set (D := NilEmpty.string_of_uint d) in *.
  assert (Str.split "/" D = [D]) as HDslash by by apply split_uint.
  assert (Str.split "." D = [D]) as HDdot by by apply split_uint.
  assert (Str.split "_" D = [D]) as HDunder by by apply split_uint.
  set (root := (stem ++ String "_" D)%string).
  assert ((stem ++ String "_" (D ++ ".png"))%string = (root ++ ".png")%string) as ->.
  { unfold root. rewrite string_app_assoc. done. }
  assert (Str.split "/" root = [root]) as Hrs.
  { apply split_app_free; [done|]. apply (split_app_free "/" "_" D); done. }
  assert (Str.split "." root = [root]) as Hrd.
  { apply split_app_free; [done|]. apply (split_app_free "." "_" D); done. }
  unfold sort_key, OsPath.basename.
  rewrite (split_app_free "/" root ".png") by done. simpl.
  unfold OsPath.splitext_root.
  rewrite (split_app_sep "." root "png") by done. simpl.
  unfold root at 1. rewrite Hdots.
  unfold PyList.last_item, root. by rewrite (Hlast D HDunder).
Qed.

Lemma frame_file_no_slash k : Str.split "/" (frame_file k) = [frame_file k].
Proof.
  destruct (of_Z_nonneg (Z.of_nat k)) as (d & _ & HofZ & _); [lia|].
  unfold frame_file. rewrite HofZ.
  apply (split_app_free "/" "frame_"); [reflexivity|].
  apply split_app_free; [by apply split_uint | reflexivity].
Qed.

Lemma mask_file_no_slash k : Str.split "/" (mask_file k) = [mask_file k].
Proof.
  destruct (of_Z_nonneg (Z.of_nat k)) as (d & _ & HofZ & _); [lia|].
  unfold mask_file. rewrite HofZ.
  apply (split_app_free "/" "seg_mask_"); [reflexivity|].
  apply split_app_free; [by apply split_uint | reflexivity].
Qed.

Lemma sort_key_of_frame_file dir k :
  sort_key (OsPath.join dir (frame_file k)) = Ok (Z.of_nat k).
Proof.
  rewrite sort_key_join by apply frame_file_no_slash.
  apply (sort_key_numbered_name "frame"); [reflexivity|reflexivity|intros; reflexivity|].
  intros rest Hrest. by rewrite (split_app_sep "_" "frame"), Hrest.
Qed.

Lemma sort_key_of_mask_file dir k :
  sort_key (OsPath.join dir (mask_file k)) = Ok (Z.of_nat k).
Proof.
  rewrite sort_key_join by apply mask_file_no_slash.
  apply (sort_key_numbered_name "seg_mask"); [reflexivity|reflexivity|intros; reflexivity|].
  intros rest Hrest.
  change ("seg_mask" ++ String "_" rest)%string
    with ("seg" ++ String "_" ("mask" ++ String "_" rest))%string.
  by rewrite (split_app_sep "_" "seg"), (split_app_sep "_" "mask"), Hrest.
Qed.

(** The sort key of [frame_<k>.png] and of [seg_mask_<k>.png] is [k], for
    every natural number [k] and in every directory: the files are ordered
    by number (frame_10 after frame_9), not by name. *)
Theorem sort_key_is_the_file_number (dir : string) (k : nat) :
  sort_key (OsPath.join dir (frame_file k)) = Ok (Z.of_nat k)
  ∧ sort_key (OsPath.join dir (mask_file k)) = Ok (Z.of_nat k).
Proof. split; [apply sort_key_of_frame_file | apply sort_key_of_mask_file]. Qed.

Lemma StronglySorted_map_seq {A} (R : A → A → Prop) (g : nat → A) a n :
  (∀ i j, (a ≤ i < j)%nat → (j < a + n)%nat → R (g i) (g j)) →
  StronglySorted R (map g (seq a n)).
Proof.
  revert a. induction n as [|n IH]; intros a HR; simpl; constructor.
  - apply IH. intros i j Hij Hj. apply HR; lia.
  - apply Forall_fmap, Forall_forall. intros j Hj%elem_of_seq. simpl.
    apply HR; lia.
Qed.

(** Numbered files, listed in any order, are sorted into the order of their
    numbers. *)
Lemma sorted_by_number dir (name : nat → string) (listed : list string) n :
  (∀ i, sort_key (OsPath.join dir (name i)) = Ok (Z.of_nat i)) →
  listed ≡ₚ map name (seq 0 n) →
  PyList.sorted sort_key (map (OsPath.join dir) listed)
  = Ok (map (OsPath.join dir) (map name (seq 0 n))).
Proof.
  intros Hkey Hperm.
  apply (sorted_canonical sort_key
           (λ p, match sort_key p with Ok z => z | Raise _ => 0 end)).
  - intros x (f & -> & (i & -> & Hi)%list_elem_of_fmap)%list_elem_of_fmap.
    by rewrite Hkey.
  - rewrite <- list_fmap_compose. apply StronglySorted_map_seq.
    intros i j Hij _. simpl. rewrite !Hkey. lia.
  - by rewrite Hperm.
Qed.

Lemma mapM_seq {B} (f : string → result B) (g : string → string)
    (name : nat → string) (F : nat → B) n :
  (∀ i, (i < n)%nat → f (g (name i)) = Ok (F i)) →
  mapM f (map g (map name (seq 0 n))) = Ok (map F (seq 0 n)).
Proof.
  intros Hf. rewrite !mapM_map.
  rewrite (mapM_ext _ (λ i, Ok (F i))).
  - by apply mapM_pure.
  - intros i Hi%elem_of_seq. apply Hf. lia.
Qed.

(** Whatever the order in which the two directories are listed, and however
    many files they hold: when the frame files are frame_0.png ...
    frame_(n-1).png and the mask files seg_mask_0.png ... seg_mask_(m-1).png
    (images of one shape), the directory loader returns the [n] frames in
    the order of their numbers and, for each index below both [n] and [m],
    the masked frame and the binary mask made from the frame and the mask
    of that number. *)
Theorem directory_loader_orders_any_number_of_files
    (st : Storage) (vp mp : string) (s e : Z) (mb : bool) (fps : Z)
    (names_v names_m : list string) (F : nat → rgb) (M : nat → gray)
    (h w n m : nat) :
  listdir st vp = Ok names_v →
  listdir st mp = Ok names_m →
  filter (is_numbered "frame_") names_v ≡ₚ map frame_file (seq 0 n) →
  filter (is_numbered "seg_mask_") names_m ≡ₚ map mask_file (seq 0 m) →
  (∀ i, (i < n)%nat →
        open_RGB st (OsPath.join vp (frame_file i)) = Ok (F i)
        ∧ has_shape h w (F i)) →
  (∀ i, (i < m)%nat →
        open_L st (OsPath.join mp (mask_file i)) = Ok (M i)
        ∧ has_shape h w (M i)) →
  ∃ mv bm,
    read_video_with_mask_from_frame st vp mp s e mb fps
    = Ok (map F (seq 0 n), mv, bm, fps)
    ∧ length mv = (n `min` m)%nat ∧ length bm = (n `min` m)%nat
    ∧ ∀ i, (i < n `min` m)%nat →
           ∃ masked_frame binary_mask,
             mask_one_frame mb (F i) (Np.eq_scalar (M i) 255)
             = Ok (masked_frame, binary_mask)
             ∧ mv !! i = Some masked_frame ∧ bm !! i = Some binary_mask.
Proof.
  intros Hlv Hlm Hpv Hpm HF HM.
  assert (load_frames_and_masks st vp mp
          = Ok (map F (seq 0 n), map M (seq 0 m))) as Hload.
  { unfold load_frames_and_masks. rewrite Hlv, Hlm. simpl.
    rewrite (sorted_by_number vp frame_file _ n)
      by eauto using sort_key_of_frame_file.
    rewrite (sorted_by_number mp mask_file _ m)
      by eauto using sort_key_of_mask_file.
    simpl.
    rewrite (mapM_seq (open_RGB st) (OsPath.join vp) frame_file F n)
      by (intros i Hi; apply HF, Hi).
    simpl.
    rewrite (mapM_seq (open_L st) (OsPath.join mp) mask_file M m)
      by (intros i Hi; apply HM, Hi).
    done. }
  destruct (directory_loader_returns st mb h w fps vp mp s e _ _ Hload)
    as (mv & bm & Hread & Hmv & Hbm).
  { apply Forall_fmap, Forall_forall. intros i Hi%elem_of_seq. apply HF. lia. }
  { apply Forall_fmap, Forall_forall. intros i Hi%elem_of_seq. apply HM. lia. }
  rewrite !length_map, !length_seq in Hmv, Hbm.
  exists mv, bm. split; [done|]. split; [done|]. split; [done|].
  intros i Hi.
  unfold read_video_with_mask_from_frame in Hread. rewrite Hload in Hread.
  simpl in Hread. inv_bind Hread. destruct a as [mv' bm'].
  injection Hread as <- <-.
  apply (mask_frames_lookup _ _ _ _ _ _ i (F i) (M i) Hm).
  - rewrite list_lookup_fmap, lookup_seq_lt by lia. done.
  - rewrite list_lookup_fmap, lookup_seq_lt by lia. done.
Qed.

(** Twelve frames and twelve masks listed in lexicographic order. *)
Lemma lexicographic_listing_is_ordered_by_number :
  ∃ mv bm,
    read_video_with_mask_from_frame Demo.lexicographic
      Demo.images_dir Demo.masks_dir 0 (-1) false 8
    = Ok (map Demo.frame (seq 0 12), mv, bm, 8)
    ∧ length mv = (12 `min` 12)%nat ∧ length bm = (12 `min` 12)%nat
    ∧ ∀ i, (i < 12 `min` 12)%nat →
           ∃ masked_frame binary_mask,
             mask_one_frame false (Demo.frame i) (Np.eq_scalar (Demo.seg i) 255)
             = Ok (masked_frame, binary_mask)
             ∧ mv !! i = Some masked_frame ∧ bm !! i = Some binary_mask.
Proof.
  apply (directory_loader_orders_any_number_of_files Demo.lexicographic
           Demo.images_dir Demo.masks_dir 0 (-1) false 8
           (map frame_file [0; 1; 10; 11; 2; 3; 4; 5; 6; 7; 8; 9]%nat)
           (map mask_file [0; 1; 10; 11; 2; 3; 4; 5; 6; 7; 8; 9]%nat)
           Demo.frame Demo.seg 1 2 12 12).
  - reflexivity.
  - reflexivity.
  - vm_compute. solve_Permutation.
  - vm_compute. solve_Permutation.
  - intros i Hi. do 12 (destruct i as [|i]; [by repeat constructor|]). lia.
  - intros i Hi. do 12 (destruct i as [|i]; [by repeat constructor|]). lia.
Defined.

(** ** File names without a number *)

Lemma mapM_raise_inv {A B} (f : A → result B) l e :
  mapM f l = Raise e → ∃ x, x ∈ l ∧ f x = Raise e.
Proof.
  induction l as [|z l IH]; simpl; [done|].
  destruct (f z) as [b|e'] eqn:Hz; simpl.
  - destruct (mapM f l) as [k|e'']; simpl; [done|].
    intros [= ->]. destruct IH as (x & Hx & Hfx); [done|].
    exists x. split; [by right|done].
  - intros [= ->]. exists z. split; [left|done].
Qed.

Lemma int_raises s e : Str.int s = Raise e → ∃ msg, e = ValueError msg.
Proof.
  unfold Str.int. intros H.
  repeat case_match; try discriminate; injection H as <-; by eexists.
Qed.

(** The only error of [sort_key] is the [ValueError] of [int]. *)
Lemma sort_key_raises path e : sort_key path = Raise e → ∃ msg, e = ValueError msg.
Proof.
  unfold sort_key, PyList.last_item.
  destruct (last _) as [suffix|] eqn:Hlast; simpl.
  - apply int_raises.
  - apply last_None in Hlast. by apply split_not_nil in Hlast.
Qed.

Lemma sorted_raises (l : list string) x e :
  x ∈ l → sort_key x = Raise e →
  ∃ msg, PyList.sorted sort_key l = Raise (ValueError msg).
Proof.
  intros Hx He. unfold PyList.sorted.
  destruct (mapM_raise sort_key l x Hx) as (y & e' & _ & Hy & ->); [by eexists|].
  apply sort_key_raises in Hy as [msg ->]. by exists msg.
Qed.

Lemma sorted_raises_value_error (l : list string) e :
  PyList.sorted sort_key l = Raise e → ∃ msg, e = ValueError msg.
Proof.
  unfold PyList.sorted.
  destruct (mapM sort_key l) as [keys|e'] eqn:Hkeys; simpl; [done|].
  intros [= ->]. apply mapM_raise_inv in Hkeys as (x & _ & Hx).
  by apply sort_key_raises in Hx.
Qed.

(** One file that passes the name filter of its directory but carries no
    integer after its last underscore (frame_final.png, seg_mask_1a.png)
    makes the directory loader raise the [ValueError] of [int]: no clip is
    returned, whatever the other files are. *)
Theorem unnumbered_file_fails_the_directory_loader
    (st : Storage) (vp mp : string) (s e : Z) (mb : bool) (fps : Z)
    (names_v names_m : list string) (f : string) (err : exn) :
  listdir st vp = Ok names_v →
  listdir st mp = Ok names_m →
  (f ∈ names_v ∧ is_numbered "frame_" f
   ∧ sort_key (OsPath.join vp f) = Raise err)
  ∨ (f ∈ names_m ∧ is_numbered "seg_mask_" f
     ∧ sort_key (OsPath.join mp f) = Raise err) →
  ∃ msg,
    read_video_with_mask_from_frame st vp mp s e mb fps = Raise (ValueError msg).
Proof.
  intros Hlv Hlm Hbad.
  unfold read_video_with_mask_from_frame, load_frames_and_masks.
  rewrite Hlv, Hlm. simpl.
  destruct Hbad as [(Hin & Hnum & Hkey)|(Hin & Hnum & Hkey)].
  - destruct (sorted_raises
                (map (OsPath.join vp) (filter (is_numbered "frame_") names_v))
                (OsPath.join vp f) err) as [msg ->]; [|done|by exists msg].
    apply list_elem_of_fmap. exists f. split; [done|].
    by apply list_elem_of_filter.
  - destruct (PyList.sorted sort_key
                (map (OsPath.join vp) (filter (is_numbered "frame_") names_v)))
      as [frames|e'] eqn:Hframes; simpl.
    + destruct (sorted_raises
                  (map (OsPath.join mp) (filter (is_numbered "seg_mask_") names_m))
                  (OsPath.join mp f) err) as [msg ->]; [|done|by exists msg].
      apply list_elem_of_fmap. exists f. split; [done|].
      by apply list_elem_of_filter.
    + apply sorted_raises_value_error in Hframes as [msg ->]. by exists msg.
Qed.

(** A directory with frame_0.png and frame_final.png. *)
Lemma directory_with_frame_final :
  ∃ msg,
    read_video_with_mask_from_frame
      (Demo.storage_at Demo.images_dir Demo.masks_dir 1 1
         ["frame_0.png"; "frame_final.png"] ["seg_mask_0.png"])
      Demo.images_dir Demo.masks_dir 0 (-1) false 8
    = Raise (ValueError msg).
Proof.
  eapply (unnumbered_file_fails_the_directory_loader _ _ _ 0 (-1) false 8
            ["frame_0.png"; "frame_final.png"] ["seg_mask_0.png"]
            "frame_final.png");
    [reflexivity|reflexivity|].
  left. split; [by right; left|]. split; [done|reflexivity].
Defined.

(** ** The clip handed to the generative pipeline *)

(** What a successful substitution with an image model went through. *)
Lemma substitution_with_model si model dil (v mv bm v' mv' bm' : list rgb) gtv :
  truthy model = true →
  first_frame_substitution si model dil v mv bm = Ok (v', mv', bm', gtv) →
  ∃ f0 m0 still,
    head v = Some f0 ∧ head bm' = Some m0 ∧ gtv = Some f0
    ∧ flux_fill si image_inpainting_prompt f0 m0 (length f0)
        (match f0 with row :: _ => length row | [] => O end) = Ok still
    ∧ v' = still :: tail v ∧ mv' = still :: tail mv
    ∧ bm' = (if 0 <? dil then map (cv2_dilate si dil) bm else bm).
Proof.
  unfold first_frame_substitution. intros -> H.
  do 7 inv_bind H. injection H as <- <- <- <-.
  apply first_ok in Hm, Hm0, Hm3. rewrite Hm in Hm3. injection Hm3 as <-.
  apply set_first_head in Hm4, Hm5.
  by exists a, a0, a2.
Qed.

Lemma head_every {A} k (l : list A) : head (PyList.every k 0 l) = head l.
Proof. by destruct l. Qed.

Lemma head_slice_to {A} (l : list A) n x :
  head (PyList.slice_to l n) = Some x → head l = Some x.
Proof.
  destruct n as [n|]; simpl; [|done]. unfold PyList.slice.
  destruct (PyList.clamp (length l) n - PyList.clamp (length l) 0)%nat; [done|].
  unfold PyList.clamp. simpl. by destruct l.
Qed.

(** With a non-negative [down_sample_fps] resampling keeps frame 0 at
    index 0. *)
Lemma resample_head {A} fps d long frames (v mv bm v' mv' bm' : list A) n d' x :
  0 ≤ fps → 0 ≤ d →
  resample fps d long frames v mv bm = Ok (v', mv', bm', n, d') →
  (head v' = Some x → head v = Some x) ∧ (head mv' = Some x → head mv = Some x).
Proof.
  intros Hfps Hd Hres.
  apply resample_ok in Hres
    as (step & sv & smv & sbm & -> & Hstep & Hv & Hmv & _ & _ & _ & -> & -> & _).
  unfold resample_step in Hstep.
  destruct (Z.eqb_spec (if d =? 0 then fps else d) 0) as [|Hd']; [done|].
  injection Hstep as <-.
  assert (0 ≤ fps `div` (if d =? 0 then fps else d)) as Hpos
    by (apply Z.div_pos; destruct (Z.eqb_spec d 0); lia).
  apply slice_step_ok in Hv as [Hne ->], Hmv as [_ ->].
  replace (0 <? _) with true by lia.
  split; intros Hhead.
  - destruct long; [|apply head_slice_to in Hhead]; by rewrite head_every in Hhead.
  - destruct long; [|apply head_slice_to in Hhead]; by rewrite head_every in Hhead.
Qed.

(** With an image-inpainting model and a non-negative [down_sample_fps],
    the generative pipeline is conditioned on the inpainted still: its
    [image] argument and frame 0 of its [video] argument are the image that
    the still-image model returned for the loaded frame 0, which itself is
    kept aside as the ground truth; frame 0 of the clip is the still too. *)
Theorem pipeline_is_conditioned_on_the_still {K : Type}
    (st : Storage) (si : StillImage) (a : Args K) (p : Prepared K) :
  prepare st si a = Ok p →
  truthy (img_inpainting_model a) = true →
  0 ≤ down_sample_fps a →
  ∃ frame0 mask0 still,
    p_gt_video_first_frame p = Some frame0
    ∧ flux_fill si image_inpainting_prompt frame0 mask0 (length frame0)
        (match frame0 with row :: _ => length row | [] => O end) = Ok still
    ∧ pa_image (p_call p) = still
    ∧ head (pa_video (p_call p)) = Some still
    ∧ head (p_video p) = Some still.
Proof.
  intros Hp Hmodel Hd.
  apply prepare_ok in Hp
    as (v1 & mv1 & bm1 & v2 & mv2 & bm2 & gtv & v3 & mv3 & bm3 & n & d'
        & bm4 & gtm & image & Hread & Hsub & Hres & Hpol & Himage & -> & _ & _
        & _ & _ & -> & _ & -> & -> & _).
  pose proof (substitution_lengths _ _ _ _ _ _ _ _ _ _ Hsub) as (Hlv & Hlmv & _).
  apply (substitution_with_model _ _ _ _ _ _ _ _ _ _ Hmodel) in Hsub
    as (f0 & m0 & still & Hf0 & Hm0 & -> & Hflux & -> & -> & _).
  apply first_ok in Himage.
  destruct (resample_head 8 _ _ _ _ _ _ _ _ _ _ _ image ltac:(done) Hd Hres)
    as [_ Hmv].
  specialize (Hmv Himage). simpl in Hmv. injection Hmv as ->.
  exists f0, m0, image. repeat (split; [done|]).
  assert (∃ x rest, v3 = x :: rest) as (x & rest & ->).
  { apply loader_length_le in Hread as Hle.
    apply resample_length_le in Hres as Hle3; [|simpl in *; lia].
    destruct mv3; [done|]. destruct v3; [simpl in Hle3; lia|]. by eauto. }
  destruct (resample_head 8 _ _ _ _ _ _ _ _ _ _ _ x ltac:(done) Hd Hres)
    as [Hv _].
  specialize (Hv eq_refl). simpl in Hv. by injection Hv as ->.
Qed.

(** Three frames with an image model: the image argument is the still,
    every pixel of which is (7, 7, 7). *)
Lemma conditioning_on_the_demo_still :
  ∃ p frame0 mask0 still,
    prepare (Demo.in_order 3 3) Demo.still (Demo.args 2 0 true false (Some "flux"))
    = Ok p
    ∧ p_gt_video_first_frame p = Some frame0
    ∧ flux_fill Demo.still image_inpainting_prompt frame0 mask0 (length frame0)
        (match frame0 with row :: _ => length row | [] => O end) = Ok still
    ∧ pa_image (p_call p) = still
    ∧ head (pa_video (p_call p)) = Some still
    ∧ head (p_video p) = Some still.
Proof.
  eexists.
  destruct (pipeline_is_conditioned_on_the_still
              (Demo.in_order 3 3) Demo.still
              (Demo.args 2 0 true false (Some "flux")) _ eq_refl eq_refl
              ltac:(done))
    as (frame0 & mask0 & still & H).
  exists frame0, mask0, still. split; [reflexivity | exact H].
Defined.

(** A negative [down_sample_fps] is not rejected: with minus the source
    rate the stride is -1 and, in long-video mode, the three sequences go
    on reversed in time. *)
Theorem negative_rate_reverses_the_clip {A : Type} (fps n : Z)
    (v mv bm : list A) :
  0 < fps → n ≤ Z.of_nat (length v) →
  resample fps (- fps) true (Some n) v mv bm
  = Ok (reverse v, reverse mv, reverse bm, n, - fps).
Proof.
  intros Hfps Hn. unfold resample, resample_step.
  replace (- fps =? 0) with false by lia. simpl.
  replace (- fps =? 0) with false by lia.
  replace (fps `div` (- fps)) with (-1)
    by (apply (Z.div_unique_neg fps (- fps) (-1) 0); lia).
  simpl. rewrite !every_one. simpl.
  rewrite length_reverse.
  by replace (Z.of_nat (length v) <? n) with false by lia.
Qed.

Lemma negative_rate_on_three_frames :
  resample 8 (-8) true (Some 3) [1; 2; 3] [4; 5; 6] [7; 8; 9]
  = Ok ([3; 2; 1], [6; 5; 4], [9; 8; 7], 3, -8).
Proof.
  exact (negative_rate_reverses_the_clip 8 3 [1; 2; 3] [4; 5; 6] [7; 8; 9]
           eq_refl ltac:(done)).
Defined.

(** Outside long-video mode the clip has exactly [num_frames] frames when
    the generative pipeline is called, and the conditioning video and the
    masks passed to it are equally long, at least one frame and at most
    [num_frames]; they are [num_frames] each when the frame directory held
    no more frames than the mask directory held masks. *)
Theorem pipeline_receives_num_frames {K : Type}
    (st : Storage) (si : StillImage) (a : Args K) (p : Prepared K) :
  prepare st si a = Ok p →
  long_video a = false →
  0 ≤ pa_num_frames (p_call p) →
  length (p_video p) = Z.to_nat (pa_num_frames (p_call p))
  ∧ length (pa_masks (p_call p)) = length (pa_video (p_call p))
  ∧ (1 ≤ length (pa_video (p_call p)) ≤ Z.to_nat (pa_num_frames (p_call p)))%nat
  ∧ ∀ video masks,
      load_frames_and_masks st "../../data/droid_2/images/"
        "../../data/droid_2/masks/" = Ok (video, masks) →
      (length video ≤ length masks)%nat →
      length (pa_video (p_call p)) = Z.to_nat (pa_num_frames (p_call p)).
Proof.
  intros Hp Hlong Hn.
  apply prepare_ok in Hp
    as (v1 & mv1 & bm1 & v2 & mv2 & bm2 & gtv & v3 & mv3 & bm3 & n & d'
        & bm4 & gtm & image & Hread & Hsub & Hres & Hpol & Himage & -> & _ & _
        & _ & _ & _ & _ & _ & -> & -> & Hnum & _).
  rewrite Hnum in *. rewrite Hlong in Hres.
  pose proof (substitution_lengths _ _ _ _ _ _ _ _ _ _ Hsub) as (Hlv & Hlmv & Hlbm).
  pose proof (loader_length_le _ _ _ _ _ _ _ _ _ _ _ Hread) as Hle1.
  pose proof (resample_lengths _ _ _ _ _ _ _ _ _ _ _ _ Hres) as [Hmb Hvm].
  pose proof (resample_length_le _ _ _ _ _ _ _ _ _ _ _ _ Hres ltac:(lia)) as Hle3.
  pose proof (truncated_clip_has_exactly_frames _ _ _ _ _ _ _ _ _ _ _ Hres Hn)
    as (Hv3 & Hmv3 & _).
  apply policy_lengths in Hpol.
  assert (length mv1 = length bm1) as Hmb1.
  { unfold read_video_with_mask_from_frame in Hread.
    inv_bind Hread. destruct a0 as [video masks].
    inv_bind Hread. destruct a0 as [mv' bm']. injection Hread as _ <- <-.
    apply mask_frames_lengths in Hm0 as [_ ?]. done. }
  apply first_ok in Himage.
  split; [done|]. split; [rewrite Hpol; symmetry; apply Hmb; lia|].
  split; [destruct mv3; [done|]; simpl in *; lia|].
  intros video masks Hload Hvm1.
  destruct (loader_lengths _ _ _ _ _ _ _ _ _ _ _ _ _ Hload Hread)
    as (-> & _ & Hmv1 & _).
  apply Hmv3. lia.
Qed.

(** Two of three frames, with an image model. *)
Lemma pipeline_receives_two_frames :
  ∃ p,
    prepare (Demo.in_order 3 3) Demo.still (Demo.args 2 0 true false (Some "flux"))
    = Ok p
    ∧ length (p_video p) = 2%nat
    ∧ length (pa_masks (p_call p)) = length (pa_video (p_call p))
    ∧ (1 ≤ length (pa_video (p_call p)) ≤ 2)%nat.
Proof.
  eexists. split; [reflexivity|].
  destruct (pipeline_receives_num_frames
              (Demo.in_order 3 3) Demo.still
              (Demo.args 2 0 true false (Some "flux")) _ eq_refl eq_refl
              ltac:(done)) as (Hv & Hm & Hle & _).
  split; [exact Hv|]. split; [exact Hm | exact Hle].
Defined.

(** ** A run that completes *)

(** Under the contract of the processors the compositor returns one frame
    of four panels per generated frame. *)
Lemma visualize_video_returns {R K : Type}
    (pipe : Pipeline R K) (mb : bool) (original masks : list rgb)
    (video : list (list (list (R * R * R)))) (n H W : nat) :
  processors_keep_shape pipe →
  length original = n → length masks = n → length video = n →
  Forall (has_shape H W) video →
  ∃ out, _visualize_video pipe mb original video masks = Ok out
         ∧ length out = n ∧ Forall (has_shape H (4 * W)) out.
Proof.
  intros (Hpre & Hmpre & Hpost) Ho Hm Hv Hshape.
  destruct (Hpre original (frame_height video) (frame_width video))
    as (ov & Hov & Hlov & Hsov).
  destruct (Hmpre masks (frame_height video) (frame_width video))
    as (mk & Hmk & Hlmk & Hsmk).
  apply (shape_of_first_frame H W) in Hsov; [|done|congruence].
  apply (shape_of_first_frame H W) in Hsmk; [|done|congruence].
  destruct (broadcast_frames
              (RuntimeError "The size of tensor a must match the size of tensor b")
              (mask_pixel pipe mb) H W ov mk) as [Hmasked Hsmasked];
    [congruence|done|done|].
  destruct (Hpost ov H W Hsov) as (pov & Hpov & Hlpov & Hspov).
  destruct (Hpost _ H W Hsmasked) as (pmv & Hpmv & Hlpmv & Hspmv).
  rewrite !length_zip_with in Hlpmv.
  pose proof (three_channels_shape H W mk Hsmk) as Hs3.
  destruct (concatenate_four pov pmv (three_channels mk) video n H W)
    as (out & Hout & Hlout & Hpanels); try done; try lia.
  { unfold three_channels. rewrite length_map. lia. }
  exists out. split.
  { unfold _visualize_video. rewrite Hov. simpl. rewrite Hmk. simpl.
    rewrite Hmasked. simpl. rewrite Hpov. simpl. rewrite Hpmv. simpl. done. }
  split; [done|].
  apply Forall_lookup. intros i f Hf.
  assert (i < n)%nat as Hi by (apply lookup_lt_Some in Hf; lia).
  destruct (lookup_lt_is_Some_2 pov i) as [o Hio]; [lia|].
  destruct (lookup_lt_is_Some_2 pmv i) as [m Him]; [lia|].
  destruct (lookup_lt_is_Some_2 (three_channels mk) i) as [k Hik];
    [unfold three_channels; rewrite length_map; lia|].
  destruct (lookup_lt_is_Some_2 video i) as [g Hig]; [lia|].
  rewrite (Hpanels i o m k g) in Hf by done. injection Hf as <-.
  apply side_by_side_rows.
  - eapply Forall_lookup_1; [exact Hspov|exact Hio].
  - eapply Forall_lookup_1; [exact Hspmv|exact Him].
  - eapply Forall_lookup_1; [exact Hs3|exact Hik].
  - eapply Forall_lookup_1; [exact Hshape|exact Hig].
Qed.

Lemma length_slice_to_le {A} (l : list A) (k : nat) :
  (k ≤ length l)%nat → length (PyList.slice_to l (Some (Z.of_nat k))) = k.
Proof. intros Hk. rewrite length_slice_to_nonneg by lia. lia. Qed.

(** With [first_frame_gt] and an image-inpainting model, under the contract
    of the processors, a run that reaches the generative call completes
    whenever that call returns frames of one size, no more of them than
    masks were passed to it: one comparison frame of four panels per
    generated frame is exported, at 8 frames per second, to the output
    path with "_fps<down_sample_fps>" put before each ".mp4". *)
Theorem run_with_both_flags_exports_the_comparison {R K : Type}
    (st : Storage) (si : StillImage) (pipe : Pipeline R K) (a : Args K)
    (p : Prepared K) (video_generate : list (list (list (R * R * R))))
    (H W : nat) :
  generate_type a = "i2v_inpainting" →
  first_frame_gt a = true →
  truthy (img_inpainting_model a) = true →
  processors_keep_shape pipe →
  prepare st si a = Ok p →
  pipe_call pipe (p_call p) = Ok video_generate →
  Forall (has_shape H W) video_generate →
  (length video_generate ≤ length (pa_masks (p_call p)))%nat →
  ∃ out,
    generate_video st si pipe a
    = Ok {| export_frames := out;
            export_path :=
              Str.replace (output_path a) ".mp4"
                ("_fps" ++ Str.of_Z (p_down_sample_fps p) ++ ".mp4")%string;
            export_fps := 8 |}
    ∧ length out = length video_generate
    ∧ Forall (has_shape H (4 * W)) out.
Proof.
  intros Htype Hgt Hmodel Hcontract Hp Hcall Hshape Hle.
  unfold generate_video. rewrite Htype, String.eqb_refl, Hp.
  cbn [mbind result_bind]. rewrite Hcall. cbn [mbind result_bind].
  apply prepare_ok in Hp
    as (v1 & mv1 & bm1 & v2 & mv2 & bm2 & gtv & v3 & mv3 & bm3 & n & d'
        & bm4 & gtm & image & Hread & Hsub & Hres & Hpol & Himage & Hv & _ & Hbm
        & _ & _ & Hgtv & Hgtm & _ & _ & Hmasks & _).
  rewrite Hmasks in Hle.
  pose proof (substitution_lengths _ _ _ _ _ _ _ _ _ _ Hsub) as (Hlv & Hlmv & Hlbm).
  pose proof (loader_length_le _ _ _ _ _ _ _ _ _ _ _ Hread) as Hle1.
  pose proof (resample_lengths _ _ _ _ _ _ _ _ _ _ _ _ Hres) as [Hmb _].
  pose proof (resample_length_le _ _ _ _ _ _ _ _ _ _ _ _ Hres ltac:(lia)) as Hle3.
  assert (length mv1 = length bm1) as Hmb1.
  { unfold read_video_with_mask_from_frame in Hread.
    inv_bind Hread. destruct a0 as [video masks].
    inv_bind Hread. destruct a0 as [mv' bm']. injection Hread as _ <- <-.
    apply mask_frames_lengths in Hm0 as [_ ?]. done. }
  pose proof (policy_lengths _ _ _ _ _ Hpol) as Hl4.
  apply policy_binds in Hpol. rewrite Hgt in Hpol.
  destruct Hpol as (m0 & _ & -> & Hbm4).
  apply substitution_binds in Hsub. rewrite Hmodel in Hsub.
  destruct Hsub as (f0 & still & _ & -> & _ & _).
  assert (∃ x rest, v3 = x :: rest) as (x & rest & ->).
  { apply first_ok in Himage. destruct mv3; [done|].
    destruct v3; [simpl in Hle3; lia|]. by eauto. }
  unfold finish, restore_first_frame. rewrite Hgtm, Hgtv, Hbm, Hv, Hbm4.
  cbn [read_local mbind result_bind mret result_ret PyList.set_first tail].
  destruct (visualize_video_returns pipe (mask_background a)
              (PyList.slice_to (<[0%nat:=f0]> (x :: rest))
                 (Some (Z.of_nat (length video_generate))))
              (PyList.slice_to
                 (<[0%nat:=m0]>
                    ((if mask_background a then Np.ones_like_255 m0
                      else Np.zeros_like m0) :: tail bm3))
                 (Some (Z.of_nat (length video_generate))))
              video_generate (length video_generate) H W)
    as (out & -> & Hlout & Hsout); try done.
  - apply length_slice_to_le. rewrite length_insert. lia.
  - apply length_slice_to_le. rewrite length_insert. by rewrite Hbm4 in Hle.
  - cbn [mbind result_bind mret result_ret]. by exists out.
Qed.

(** The run on three [Demo] frames with both flags: two comparison frames
    of one row and eight pixels. *)
Lemma completed_run_on_three_frames :
  ∃ out,
    generate_video (Demo.in_order 3 3) Demo.still Demo.pipeline
      (Demo.args 2 0 true false (Some "flux"))
    = Ok {| export_frames := out; export_path := "./output_fps8.mp4";
            export_fps := 8 |}
    ∧ length out = 2%nat
    ∧ Forall (has_shape 1 (4 * 2)) out.
Proof.
  destruct (run_with_both_flags_exports_the_comparison
              (Demo.in_order 3 3) Demo.still Demo.pipeline
              (Demo.args 2 0 true false (Some "flux")) _
              (replicate 2 [[(7, 7, 7); (7, 7, 7)]]) 1 2
              eq_refl eq_refl eq_refl demo_pipeline_keeps_shape
              eq_refl eq_refl) as (out & Hout & Hlen & Hs).
  - by repeat constructor.
  - vm_compute. lia.
  - exists out. split; [exact Hout|]. split; [exact Hlen | exact Hs].
Defined.

(** ** The captioning helper *)

(** Each mode of [video_editing_prompt] reads one of the two inputs.  When
    the caption is made from the masked image, the video description is
    not sent: with another description the service is asked the same and
    the same caption (or error) comes back.  When it is made from the
    description, the masked image is not looked at.  In both modes the
    description is returned as it was given. *)
Theorem each_caption_mode_reads_one_input (vlm : Vlm) (llm_model : string)
    (prompt prompt' : string) (masked_image masked_image' : option rgb) :
  match video_editing_prompt vlm (Some prompt) llm_model masked_image true with
  | Ok (returned, caption) =>
      returned = prompt
      ∧ video_editing_prompt vlm (Some prompt') llm_model masked_image true
        = Ok (prompt', caption)
  | Raise e =>
      video_editing_prompt vlm (Some prompt') llm_model masked_image true = Raise e
  end
  ∧ match video_editing_prompt vlm (Some prompt) llm_model masked_image false with
    | Ok (returned, caption) =>
        returned = prompt
        ∧ video_editing_prompt vlm (Some prompt) llm_model masked_image' false
          = Ok (prompt, caption)
    | Raise e =>
        video_editing_prompt vlm (Some prompt) llm_model masked_image' false
        = Raise e
    end.
Proof.
  unfold video_editing_prompt. split.
  - destruct (OpenAI vlm) as [client|e]; simpl; [|done].
    destruct masked_image as [img|]; simpl; [|done].
    destruct (chat_completions_create client llm_model _) as [response|e];
      simpl; [|done].
    by destruct response.
  - destruct (OpenAI vlm) as [client|e]; simpl; [|done].
    destruct (chat_completions_create client llm_model _) as [response|e];
      simpl; [|done].
    by destruct response.
Qed.

(** ** Pairing by rank *)

Lemma StronglySorted_map_on {A B} (R : A → A → Prop) (R' : B → B → Prop)
    (P : A → Prop) (f : A → B) (l : list A) :
  (∀ p q, P p → P q → R p q → R' (f p) (f q)) →
  Forall P l → StronglySorted R l → StronglySorted R' (map f l).
Proof.
  intros HR HP Hs. induction Hs as [|p l Hl IH Hall]; simpl; constructor.
  - apply IH. by apply Forall_cons in HP as [_ ?].
  - apply Forall_cons in HP as [Hp HP].
    apply Forall_fmap, Forall_forall. intros q Hq. simpl.
    apply HR; [done| |].
    + by eapply Forall_forall in HP.
    + by eapply Forall_forall in Hall.
Qed.

(** What [sorted] returns: the same elements, in an order in which the keys
    never decrease. *)
Lemma sorted_ok {A} (key : A → result Z) (l l' : list A) :
  PyList.sorted key l = Ok l' →
  l' ≡ₚ l
  ∧ StronglySorted (λ x y, ∀ kx ky, key x = Ok kx → key y = Ok ky → kx ≤ ky) l'.
Proof.
  unfold PyList.sorted. intros H. inv_bind H. injection H as <-.
  rename a into keys.
  pose proof (mapM_ok_length _ _ _ Hm) as Hlen.
  apply mapM_ok_Forall2 in Hm.
  split.
  - rewrite stable_sort_perm. by rewrite snd_zip by lia.
  - apply (StronglySorted_map_on (λ p q : Z * A, p.1 ≤ q.1) _
             (λ p : Z * A, key p.2 = Ok p.1)).
    + intros [k x] [k' y] Hx Hy Hle kx ky Hkx Hky. simpl in *.
      congruence.
    + rewrite stable_sort_perm. apply Forall_forall. intros [k x] Hin.
      apply list_elem_of_lookup in Hin as [i Hi].
      apply lookup_zip_with_Some in Hi as (k0 & x0 & [= <- <-] & Hk & Hx).
      simpl. destruct (Forall2_lookup_l _ _ _ _ _ Hm Hx) as (k' & Hk' & Hkey).
      congruence.
    + apply stable_sort_sorted.
Qed.

(** For any file names: the directory loader decodes the frame files and
    the mask files that pass its name filters, each kind in an order in
    which the file numbers never decrease, and pairs them by rank: the
    frame at index [i] of that order goes with the mask at index [i] of
    the other, whether or not their numbers agree. *)
Theorem directory_loader_pairs_by_rank
    (st : Storage) (vp mp : string) (s e : Z) (mb : bool) (fps f : Z)
    (names_v names_m : list string) (v mv bm : list rgb) :
  listdir st vp = Ok names_v →
  listdir st mp = Ok names_m →
  read_video_with_mask_from_frame st vp mp s e mb fps = Ok (v, mv, bm, f) →
  ∃ (frame_paths mask_paths : list string) (masks : list gray),
    frame_paths ≡ₚ map (OsPath.join vp) (filter (is_numbered "frame_") names_v)
    ∧ mask_paths ≡ₚ map (OsPath.join mp) (filter (is_numbered "seg_mask_") names_m)
    ∧ StronglySorted
        (λ x y, ∀ kx ky, sort_key x = Ok kx → sort_key y = Ok ky → kx ≤ ky)
        frame_paths
    ∧ StronglySorted
        (λ x y, ∀ kx ky, sort_key x = Ok kx → sort_key y = Ok ky → kx ≤ ky)
        mask_paths
    ∧ Forall2 (λ path img, open_RGB st path = Ok img) frame_paths v
    ∧ Forall2 (λ path img, open_L st path = Ok img) mask_paths masks
    ∧ ∀ i frame mask,
        v !! i = Some frame → masks !! i = Some mask →
        ∃ masked_frame binary_mask,
          mask_one_frame mb frame (Np.eq_scalar mask 255)
          = Ok (masked_frame, binary_mask)
          ∧ mv !! i = Some masked_frame ∧ bm !! i = Some binary_mask.
Proof.
  unfold read_video_with_mask_from_frame, load_frames_and_masks.
  intros -> -> H. simpl in H.
  inv_bind H. destruct a as [video masks].
  do 4 inv_bind Hm. injection Hm as <- <-.
  inv_bind H. destruct a3 as [mv' bm']. injection H as <- <- <- _.
  apply sorted_ok in Hm0 as [Hpv Hsv], Hm1 as [Hpm Hsm].
  apply mapM_ok_Forall2 in Hm2, Hm3.
  exists a, a0, a2. repeat (split; [done|]).
  intros i frame mask Hf Hmask.
  by apply (mask_frames_lookup _ _ _ _ _ _ i frame mask Hm).
Qed.

(** A directory that holds frames 0 and 2 and masks 0, 1 and 2: the second
    frame returned is frame 2, and it is masked with the second mask. *)
Lemma pairing_by_rank_with_a_missing_frame :
  ∃ mv bm,
    read_video_with_mask_from_frame
      (Demo.storage_at "clip" "clip" 3 3
         ["frame_2.png"; "seg_mask_1.png"; "frame_0.png"; "seg_mask_0.png";
          "seg_mask_2.png"] [])
      "clip" "clip" 0 (-1) false 8
    = Ok ([Demo.frame 0; Demo.frame 2], mv, bm, 8)
    ∧ ∃ (mask_paths : list string) (masks : list gray),
        mask_paths ≡ₚ ["clip/seg_mask_1.png"; "clip/seg_mask_0.png";
                        "clip/seg_mask_2.png"]
        ∧ Forall2 (λ path img,
                     open_L (Demo.storage_at "clip" "clip" 3 3
                               ["frame_2.png"; "seg_mask_1.png"; "frame_0.png";
                                "seg_mask_0.png"; "seg_mask_2.png"] []) path
                     = Ok img) mask_paths masks
        ∧ ∀ i frame mask,
            [Demo.frame 0; Demo.frame 2] !! i = Some frame →
            masks !! i = Some mask →
            ∃ masked_frame binary_mask,
              mask_one_frame false frame (Np.eq_scalar mask 255)
              = Ok (masked_frame, binary_mask)
              ∧ mv !! i = Some masked_frame ∧ bm !! i = Some binary_mask.
Proof.
  do 2 eexists. split; [vm_compute; reflexivity|].
  destruct (directory_loader_pairs_by_rank
              (Demo.storage_at "clip" "clip" 3 3
                 ["frame_2.png"; "seg_mask_1.png"; "frame_0.png"; "seg_mask_0.png";
                  "seg_mask_2.png"] [])
              "clip" "clip" 0 (-1) false 8 8 _ _ _ _ _
              eq_refl eq_refl eq_refl)
    as (frame_paths & mask_paths & masks & _ & Hperm & _ & _ & _ & Hopen & Hpair).
  exists mask_paths, masks. split; [exact Hperm|]. split; [exact Hopen | exact Hpair].
Defined.

(** ** A sequence shorter than the first one *)


